(** * Webhook dispatch and API-key gateway (src/lib/webhooks.ts, src/lib/audit.ts)

    A shallow embedding of the outbound webhook dispatcher
    ([triggerWebhooks], [verifyWebhookSignature], [createWebhook],
    [testWebhook]) and of the API-key layer ([generateApiKey],
    [createApiKey], [validateApiKey], [hasScope], [checkRateLimit],
    [revokeApiKey], [authenticateApiRequest]), together with the part of
    the audit module they call ([createAuditLog]).

    Conventions of the embedding:
    - a JavaScript string is a [string], the bytes of its UTF-8 form (so
      that [Buffer.from] is the identity). Keys, scopes and header values
      are cut at ASCII characters only, where code units and bytes coincide
      ([Js.substring0], [Js.substringFrom], [Js.slice0neg]); the body of a
      response is any text, and is measured and cut in UTF-16 code units
      ([Js.Text.length], [Js.Text.substring0]);
    - a [Date] is its number of milliseconds since the epoch, a [Z];
      [new Date()] and [Date.now()] read an explicit [now];
    - a Prisma table with an [@id] column is a [gmap] from the id to the row
      (the row record leaves the id out); the rows [findMany] returns are
      the pairs [(id, row)];
    - [async] functions are functions of the store that return the new
      store or a thrown error (the monad [M]); the delivery of one webhook
      is written call by call (a [Task]), so that the store after each of
      its awaited calls can be named; [undefined] and [null] are [None]. *)

From Stdlib Require Import ZArith String Ascii List Bool Lia DecimalString.
From stdpp Require Import gmap strings list fin_maps.
Import ListNotations.

Local Open Scope string_scope.
Local Open Scope Z_scope.

(** ** JavaScript string primitives *)

Module Js.

(** [s.startsWith(p)] *)
Definition startsWith (s p : string) : bool := String.prefix p s.

(** [s.endsWith(suffix)] *)
Definition endsWith (s suffix : string) : bool :=
  let n := String.length s in
  let m := String.length suffix in
  (m <=? n)%nat && String.eqb (substring (n - m) m s) suffix.

(** [s.slice(0, -k)]: everything but the last [k] characters (the empty
    string when [s] is shorter than [k]). *)
Definition slice0neg (k : nat) (s : string) : string :=
  substring 0 (String.length s - k) s.

(** [s.substring(0, k)] on a string of ASCII characters (a key). *)
Definition substring0 (k : Z) (s : string) : string := substring 0 (Z.to_nat k) s.

(** [s.substring(k)] *)
Definition substringFrom (k : nat) (s : string) : string :=
  substring k (String.length s - k) s.

(** [Array.prototype.includes] on an array of strings *)
Definition includes (l : list string) (x : string) : bool :=
  existsb (String.eqb x) l.

(** [Array.prototype.some] *)
Definition some {A} (l : list A) (p : A -> bool) : bool := existsb p l.

(** [n.toString()] and [`${n}`] for an integer *)
Definition numberToString (n : Z) : string :=
  NilZero.string_of_int (Z.to_int n).

(** Text that may hold any character. JavaScript measures and cuts a
    string in UTF-16 code units: a character of the basic plane (one to
    three bytes of UTF-8) is one unit, a character beyond it (four bytes)
    is two, a surrogate pair. *)
Module Text.

(** The code units a byte stands for: those of its character for a
    leading byte, none for a continuation byte ([10xxxxxx]). *)
Definition units (c : ascii) : nat :=
  let n := N_of_ascii c in
  if (n <? 128)%N then 1%nat
  else if (n <? 192)%N then 0%nat
  else if (n <? 240)%N then 1%nat
  else 2%nat.

(** [s.length] *)
Fixpoint length (s : string) : nat :=
  match s with
  | EmptyString => 0%nat
  | String c rest => (units c + length rest)%nat
  end.

(** The first half of the surrogate pair of the character whose four
    bytes are [b0 b1 b2 b3], alone: [0xD800 + ((cp - 0x10000) >> 10)], in
    the three-byte form [1110xxxx 10xxxxxx 10xxxxxx]. *)
Definition highSurrogate (b0 b1 b2 b3 : ascii) : string :=
  let cp := (N_of_ascii b0 mod 8 * 262144 + N_of_ascii b1 mod 64 * 4096
             + N_of_ascii b2 mod 64 * 64 + N_of_ascii b3 mod 64)%N in
  let hi := (55296 + (cp - 65536) / 1024)%N in
  String (ascii_of_N 237)
    (String (ascii_of_N (128 + (hi / 64) mod 64))
       (String (ascii_of_N (128 + hi mod 64)) EmptyString)).

(** The first [k] code units of [s]. A byte is kept while the units of
    its character fit; a cut in the middle of a surrogate pair keeps its
    first half. *)
Fixpoint take (k : nat) (s : string) : string :=
  match s with
  | EmptyString => EmptyString
  | String c rest =>
      if (units c <=? k)%nat then String c (take (k - units c) rest)
      else if (k =? 1)%nat then
        match rest with
        | String b1 (String b2 (String b3 _)) => highSurrogate c b1 b2 b3
        | _ => EmptyString
        end
      else EmptyString
  end.

(** [s.substring(0, k)] *)
Definition substring0 (k : Z) (s : string) : string := take (Z.to_nat k) s.

End Text.

End Js.

(** ** API keys: scope check (api-keys part of the source) *)

Definition API_KEY_PREFIX : string := "ip_".

(** [hasScope(apiKey, requiredScope)]; only the [scopes] field of the key
    is read. *)
Definition hasScope (scopes : list string) (requiredScope : string) : bool :=
  Js.includes scopes "*"
  || Js.includes scopes requiredScope
  || Js.some scopes (fun scope =>
       if Js.endsWith scope ".*" then
         let prefix := Js.slice0neg 2 scope in
         Js.startsWith requiredScope prefix
       else false).

(** The rule of the specification, written from its words: the scope set
    contains the required scope, or the universal wildcard, or an entry
    [X.*] such that the required scope starts with [X.] (dot included). *)
Definition authorize_spec (scopes : list string) (requiredScope : string) : Prop :=
  In requiredScope scopes
  \/ In "*" scopes
  \/ exists X, In (X +:+ ".*") scopes /\ Js.startsWith requiredScope (X +:+ ".") = true.

(** ** Values shared by both parts *)

(** A JSON value ([Record<string, unknown>] payloads and audit values). *)
#[local] Unset Elimination Schemes.
Inductive Json :=
| JNull
| JBool (b : bool)
| JNumber (n : Z)
| JString (s : string)
| JArray (items : list Json)
| JObject (fields : list (string * Json)).
#[local] Set Elimination Schemes.

(** What a JavaScript [throw] carries when it reaches the code below. *)
Inductive Error :=
| RangeError (message : string)
| PrismaRecordNotFound (model : string)
| PrismaUniqueConstraint (model field : string)
| JsError (message : string).

Inductive Result (A : Type) :=
| Ok (a : A)
| Throw (e : Error).
Arguments Ok {A} a.
Arguments Throw {A} e.

(** The [data] of a Prisma update on an integer column: a plain value or
    [{ increment: n }]. *)
Inductive IntUpdate :=
| IntSet (v : Z)
| IntIncrement (n : Z).

Definition applyIntUpdate (u : option IntUpdate) (old : Z) : Z :=
  match u with
  | None => old
  | Some (IntSet v) => v
  | Some (IntIncrement n) => old + n
  end.

Definition applyField {A} (u : option A) (old : A) : A :=
  match u with
  | None => old
  | Some v => v
  end.

(** [digest('hex')] of a 256-bit digest: exactly 64 lower-case hex digits. *)
Definition hexDigit (d : N) : ascii :=
  match d with
  | 0 => "0" | 1 => "1" | 2 => "2" | 3 => "3" | 4 => "4" | 5 => "5"
  | 6 => "6" | 7 => "7" | 8 => "8" | 9 => "9" | 10 => "a" | 11 => "b"
  | 12 => "c" | 13 => "d" | 14 => "e" | _ => "f"
  end%N%char.

Fixpoint hexDigits (k : nat) (d : N) (acc : string) : string :=
  match k with
  | O => acc
  | S k' => hexDigits k' (N.div d 16) (String (hexDigit (N.modulo d 16)) acc)
  end.

Definition digestHex (d : N) : string := hexDigits 64 d "".
Arguments digestHex : simpl never.

(** [crypto.timingSafeEqual(Buffer.from(a), Buffer.from(b))] of Node.js:
    it throws a [RangeError] when the two buffers differ in byte length,
    and compares them otherwise. *)
Definition timingSafeEqual (a b : string) : Result bool :=
  if (String.length a =? String.length b)%nat then Ok (String.eqb a b)
  else Throw (RangeError "Input buffers must have the same byte length").

(** ** Webhook events *)

Inductive WebhookEvent :=
| case_created
| case_updated
| case_deleted
| case_status_changed
| form_created
| form_submitted
| form_approved
| recording_transcribed
| recording_analyzed
| member_added
| member_removed.

Global Instance WebhookEvent_eq_dec : EqDecision WebhookEvent.
Proof. solve_decision. Defined.

Definition WebhookEvent_toString (e : WebhookEvent) : string :=
  match e with
  | case_created => "case.created"
  | case_updated => "case.updated"
  | case_deleted => "case.deleted"
  | case_status_changed => "case.status_changed"
  | form_created => "form.created"
  | form_submitted => "form.submitted"
  | form_approved => "form.approved"
  | recording_transcribed => "recording.transcribed"
  | recording_analyzed => "recording.analyzed"
  | member_added => "member.added"
  | member_removed => "member.removed"
  end.

Definition WEBHOOK_EVENTS : list WebhookEvent :=
  [ case_created; case_updated; case_deleted; case_status_changed;
    form_created; form_submitted; form_approved; recording_transcribed;
    recording_analyzed; member_added; member_removed ].

(** ** Rows of the store *)

Module Webhook.
Record t := mk {
  organizationId : string;
  url : string;
  events : list WebhookEvent;
  secret : string;
  isActive : bool;
  failureCount : Z;
  lastDeliveryAt : option Z
}.
End Webhook.

(** The [data] argument of [db.webhook.update]. *)
Module WebhookUpdate.
Record t := mk {
  lastDeliveryAt : option (option Z);
  failureCount : option IntUpdate;
  isActive : option bool
}.

Definition apply (d : t) (w : Webhook.t) : Webhook.t :=
  {| Webhook.organizationId := Webhook.organizationId w;
     Webhook.url := Webhook.url w;
     Webhook.events := Webhook.events w;
     Webhook.secret := Webhook.secret w;
     Webhook.isActive := applyField (isActive d) (Webhook.isActive w);
     Webhook.failureCount := applyIntUpdate (failureCount d) (Webhook.failureCount w);
     Webhook.lastDeliveryAt := applyField (lastDeliveryAt d) (Webhook.lastDeliveryAt w) |}.
End WebhookUpdate.

Module WebhookPayload.
Record t := mk {
  event : WebhookEvent;
  timestamp : string;
  data : Json;
  organizationId : string
}.
End WebhookPayload.

Module WebhookDelivery.
Record t := mk {
  webhookId : string;
  event : WebhookEvent;
  payload : WebhookPayload.t;
  statusCode : option Z;
  response : option string;
  duration : Z;
  success : bool;
  error : option string
}.
End WebhookDelivery.

Module ApiKey.
Record t := mk {
  organizationId : string;
  name : string;
  key : string;
  keyPrefix : string;
  scopes : list string;
  expiresAt : option Z;
  createdBy : string;
  isActive : bool;
  lastUsedAt : option Z;
  usageCount : Z;
  rateLimit : Z
}.
End ApiKey.

(** The [data] argument of [db.apiKey.update]. *)
Module ApiKeyUpdate.
Record t := mk {
  lastUsedAt : option (option Z);
  usageCount : option IntUpdate;
  isActive : option bool
}.

Definition apply (d : t) (k : ApiKey.t) : ApiKey.t :=
  {| ApiKey.organizationId := ApiKey.organizationId k;
     ApiKey.name := ApiKey.name k;
     ApiKey.key := ApiKey.key k;
     ApiKey.keyPrefix := ApiKey.keyPrefix k;
     ApiKey.scopes := ApiKey.scopes k;
     ApiKey.expiresAt := ApiKey.expiresAt k;
     ApiKey.createdBy := ApiKey.createdBy k;
     ApiKey.isActive := applyField (isActive d) (ApiKey.isActive k);
     ApiKey.lastUsedAt := applyField (lastUsedAt d) (ApiKey.lastUsedAt k);
     ApiKey.usageCount := applyIntUpdate (usageCount d) (ApiKey.usageCount k);
     ApiKey.rateLimit := ApiKey.rateLimit k |}.
End ApiKeyUpdate.

Module AuditLog.
Record t := mk {
  organizationId : string;
  userId : string;
  userEmail : option string;
  ipAddress : string;
  userAgent : option string;
  action : string;
  entityType : string;
  entityId : option string;
  description : option string;
  oldValue : option Json;
  newValue : option Json;
  metadata : Json;
  createdAt : Z
}.
End AuditLog.

(** The parameter object of [createAuditLog]. *)
Module AuditLogParams.
Record t := mk {
  organizationId : string;
  userId : string;
  userEmail : option string;
  action : string;
  entityType : string;
  entityId : option string;
  description : option string;
  oldValue : option Json;
  newValue : option Json;
  metadata : option Json
}.
End AuditLogParams.

(** ** The store and the monad of the [async] functions *)

Record Db := mkDb {
  apiKey : gmap string ApiKey.t;
  webhook : gmap string Webhook.t;
  webhookDelivery : list WebhookDelivery.t;
  auditLog : list AuditLog.t
}.

Definition emptyDb : Db :=
  {| apiKey := ∅; webhook := ∅; webhookDelivery := []; auditLog := [] |}.

Definition M (A : Type) : Type := Db -> Result (A * Db).

Definition ret {A} (a : A) : M A := fun db => Ok (a, db).

Definition bind {A B} (m : M A) (k : A -> M B) : M B :=
  fun db =>
    match m db with
    | Ok (a, db') => k a db'
    | Throw e => Throw e
    end.

Notation "'let*' x := m 'in' k" := (bind m (fun x => k))
  (at level 10, x name, m at level 100, k at level 200).
Notation "'do' m 'in' k" := (bind m (fun _ => k))
  (at level 10, m at level 100, k at level 200).

(** [await Promise.all(l.map(f))]. The tasks are run one after the other,
    in the order of the list, which is also the order of the results of
    [Promise.all]. The tasks of one dispatch write different subscription
    rows (one per id) and append one delivery row each, so their
    interleaving changes the store by the order of the appended rows only. *)
Fixpoint mapM {A B} (f : A -> M B) (l : list A) : M (list B) :=
  match l with
  | [] => ret []
  | x :: l' => let* y := f x in let* ys := mapM f l' in ret (y :: ys)
  end.

(** An [async] function as the store calls it awaits, one after the
    other. Every [await] of a call is a point where the store is written
    (or read) on its own: [stores] lists the store after each call, in
    order, and [run] is the whole function, from the store it starts in to
    the store it ends in. *)
Inductive Task (A : Type) : Type :=
| Done (a : A)
| Await {B : Type} (call : M B) (k : B -> Task A).
Arguments Done {A} a.
Arguments Await {A B} call k.

Notation "'await' x := m 'in' k" := (Await m (fun x => k))
  (at level 10, x name, m at level 100, k at level 200).
Notation "'await_' m 'in' k" := (Await m (fun _ => k))
  (at level 10, m at level 100, k at level 200).

(** A block of awaited calls followed by the rest of the function. *)
Fixpoint andThen {A B} (t : Task A) (k : A -> Task B) : Task B :=
  match t with
  | Done a => k a
  | Await call k' => Await call (fun b => andThen (k' b) k)
  end.

Fixpoint run {A} (t : Task A) : M A :=
  match t with
  | Done a => ret a
  | Await call k => let* b := call in run (k b)
  end.

Fixpoint stores {A} (t : Task A) (db : Db) : list Db :=
  match t with
  | Done _ => []
  | Await call k =>
      match call db with
      | Ok (b, db') => db' :: stores (k b) db'
      | Throw _ => []
      end
  end.

(** ** Primitive store operations (the Prisma client calls of the source) *)

Definition setWebhook (t : gmap string Webhook.t) (db : Db) : Db :=
  {| apiKey := apiKey db; webhook := t;
     webhookDelivery := webhookDelivery db; auditLog := auditLog db |}.

Definition setApiKey (t : gmap string ApiKey.t) (db : Db) : Db :=
  {| apiKey := t; webhook := webhook db;
     webhookDelivery := webhookDelivery db; auditLog := auditLog db |}.

(** [db.webhook.findMany({ where })] *)
Definition webhook_findMany (where_ : Webhook.t -> bool) : M (list (string * Webhook.t)) :=
  fun db => Ok (List.filter (fun r => where_ r.2) (map_to_list (webhook db)), db).

(** [db.webhook.findUnique({ where: { id } })] *)
Definition webhook_findUnique (id : string) : M (option Webhook.t) :=
  fun db => Ok (webhook db !! id, db).

(** [db.webhook.update({ where: { id }, data })]; Prisma throws when no row
    has the id. *)
Definition webhook_update (id : string) (data : WebhookUpdate.t) : M Webhook.t :=
  fun db =>
    match webhook db !! id with
    | Some w =>
        let w' := WebhookUpdate.apply data w in
        Ok (w', setWebhook (<[id := w']> (webhook db)) db)
    | None => Throw (PrismaRecordNotFound "Webhook")
    end.

(** [db.webhook.create({ data })]; the id is the one the store generates. *)
Definition webhook_create (newId : string) (row : Webhook.t) : M (string * Webhook.t) :=
  fun db =>
    match webhook db !! newId with
    | Some _ => Throw (PrismaUniqueConstraint "Webhook" "id")
    | None => Ok ((newId, row), setWebhook (<[newId := row]> (webhook db)) db)
    end.

(** [db.webhookDelivery.create({ data })] *)
Definition webhookDelivery_create (d : WebhookDelivery.t) : M unit :=
  fun db =>
    Ok (tt, {| apiKey := apiKey db; webhook := webhook db;
               webhookDelivery := (webhookDelivery db ++ [d])%list;
               auditLog := auditLog db |}).

(** [db.auditLog.create({ data })] *)
Definition auditLog_create (l : AuditLog.t) : M AuditLog.t :=
  fun db =>
    Ok (l, {| apiKey := apiKey db; webhook := webhook db;
              webhookDelivery := webhookDelivery db;
              auditLog := (auditLog db ++ [l])%list |}).

(** [db.auditLog.count({ where })] *)
Definition auditLog_count (where_ : AuditLog.t -> bool) : M Z :=
  fun db => Ok (Z.of_nat (length (List.filter where_ (auditLog db))), db).

(** [db.apiKey.findUnique({ where: { key } })]: [key] is a unique column. *)
Definition apiKey_findUnique_key (hash : string) : M (option (string * ApiKey.t)) :=
  fun db =>
    Ok (List.find (fun r => String.eqb (ApiKey.key r.2) hash) (map_to_list (apiKey db)), db).

(** [db.apiKey.update({ where: { id }, data })] *)
Definition apiKey_update (id : string) (data : ApiKeyUpdate.t) : M ApiKey.t :=
  fun db =>
    match apiKey db !! id with
    | Some k =>
        let k' := ApiKeyUpdate.apply data k in
        Ok (k', setApiKey (<[id := k']> (apiKey db)) db)
    | None => Throw (PrismaRecordNotFound "ApiKey")
    end.

(** [db.apiKey.update({ where: { id, organizationId }, data })] *)
Definition apiKey_update_in_org (id organizationId : string) (data : ApiKeyUpdate.t)
  : M ApiKey.t :=
  fun db =>
    match apiKey db !! id with
    | Some k =>
        if String.eqb (ApiKey.organizationId k) organizationId then
          let k' := ApiKeyUpdate.apply data k in
          Ok (k', setApiKey (<[id := k']> (apiKey db)) db)
        else Throw (PrismaRecordNotFound "ApiKey")
    | None => Throw (PrismaRecordNotFound "ApiKey")
    end.

(** [db.apiKey.create({ data })]: the generated id and the unique [key]
    column must both be new. *)
Definition apiKey_create (newId : string) (row : ApiKey.t) : M (string * ApiKey.t) :=
  fun db =>
    match apiKey db !! newId with
    | Some _ => Throw (PrismaUniqueConstraint "ApiKey" "id")
    | None =>
        if existsb (fun r => String.eqb (ApiKey.key r.2) (ApiKey.key row))
             (map_to_list (apiKey db))
        then Throw (PrismaUniqueConstraint "ApiKey" "key")
        else Ok ((newId, row), setApiKey (<[newId := row]> (apiKey db)) db)
    end.

(** ** The network *)

Module Request.
Record t := mk {
  url : string;
  method : string;
  headers : list (string * string);
  body : string;
  timeout : Z
}.
End Request.

(** What a rejected [fetch] throws: an [Error] with its message (a timeout
    of [AbortSignal.timeout] is one), or some other value. *)
Inductive Thrown :=
| ThrownError (message : string)
| ThrownOther.

(** A [fetch]: a response with its status and its text ([None] when
    [response.text()] fails), or a rejection. *)
Inductive FetchResult :=
| Responded (status : Z) (text : option string)
| Rejected (err : Thrown).

(** [response.ok] *)
Definition response_ok (status : Z) : bool := (200 <=? status) && (status <=? 299).

(** The request headers of the running request ([headers()] of Next.js). *)
Definition Headers := gmap string string.

(** [a || b] on strings that may be [null]: the empty string is falsy. *)
Definition orElse (a b : option string) : option string :=
  match a with
  | Some s => if String.eqb s "" then b else Some s
  | None => b
  end.

Definition dquote : string := String (ascii_of_nat 34) EmptyString.

Module Outcome.
Record t := mk {
  webhookId : string;
  success : bool;
  error : option string
}.
End Outcome.

Module RateLimit.
Record t := mk {
  allowed : bool;
  remaining : Z;
  resetAt : Z
}.
End RateLimit.

(** The object [validateApiKey] returns; [organization] is the row the
    key's [organizationId] refers to, named by its id. *)
Module Validated.
Record t := mk {
  apiKey : string * ApiKey.t;
  organization : string
}.
End Validated.

(** What [testWebhook] returns. *)
Module TestResult.
Record t := mk {
  success : bool;
  statusCode : option Z;
  duration : Z;
  response : option string;
  error : option string
}.
End TestResult.

(** The two shapes [authenticateApiRequest] returns. *)
Inductive AuthResult :=
| AuthError (error : string) (status : Z) (headers : list (string * string))
| AuthOk (apiKey : string * ApiKey.t) (organization : string)
         (headers : list (string * string)).

Ltac split_all := repeat match goal with |- _ /\ _ => split end.

(** ** The programs *)

(** Library functions the source calls, and the environment it runs in:
    [crypto.createHash('sha256')] and [crypto.createHmac('sha256', key)]
    as functions to the digest read as a number, [JSON.stringify],
    [Date.prototype.toISOString], the network ([fetch] answers a request
    with its result and the milliseconds it took), and the column default
    of [ApiKey.rateLimit] in the database schema. *)
Class Env := {
  sha256 : string -> N;
  hmacSha256 : string -> string -> N;
  JSON_stringify : WebhookPayload.t -> string;
  toISOString : Z -> string;
  fetch : Request.t -> FetchResult * Z;
  defaultRateLimit : Z
}.

(** *** Webhooks *)

Definition generateSignature {env : Env} (payload secret : string) : string :=
  digestHex (hmacSha256 secret payload).

Definition verifyWebhookSignature {env : Env} (payload signature secret : string) : Result bool :=
  let expectedSignature := generateSignature payload secret in
  timingSafeEqual signature expectedSignature.

(** The local variables of one delivery after its [try]/[catch]. *)
Record Attempt := mkAttempt {
  success : bool;
  statusCode : option Z;
  responseBody : option string;
  error : option string
}.

Definition attemptOf (r : FetchResult) : Attempt :=
  match r with
  | Responded status text =>
      let success := response_ok status in
      {| success := success;
         statusCode := Some status;
         responseBody := text;
         error :=
           if negb success then
             Some ("HTTP " +:+ Js.numberToString status +:+ ": " +:+
                   match text with
                   | Some b => Js.Text.substring0 500 b
                   | None => "undefined"
                   end)
           else None |}
  | Rejected err =>
      {| success := false;
         statusCode := None;
         responseBody := None;
         error := Some match err with
                       | ThrownError message => message
                       | ThrownOther => "Unknown error"
                       end |}
  end.

Definition deliveryRequest {env : Env} (event : WebhookEvent) (payload : WebhookPayload.t)
    (payloadString : string) (w : Webhook.t) : Request.t :=
  let signature := generateSignature payloadString (Webhook.secret w) in
  {| Request.url := Webhook.url w;
     Request.method := "POST";
     Request.headers :=
       [ ("Content-Type", "application/json");
         ("X-Webhook-Signature", signature);
         ("X-Webhook-Event", WebhookEvent_toString event);
         ("X-Webhook-Timestamp", WebhookPayload.timestamp payload) ];
     Request.body := payloadString;
     Request.timeout := 30000 |}.

(** The update that follows every delivery ("Update webhook stats"). *)
Definition statsUpdate (at_ : Z) (success : bool) : WebhookUpdate.t :=
  {| WebhookUpdate.lastDeliveryAt := Some (Some at_);
     WebhookUpdate.failureCount :=
       Some (if success then IntSet 0 else IntIncrement 1);
     WebhookUpdate.isActive := None |}.

(** The update of the disabling step ("Disable webhook after too many
    failures"). *)
Definition disableUpdate : WebhookUpdate.t :=
  {| WebhookUpdate.lastDeliveryAt := None;
     WebhookUpdate.failureCount := None;
     WebhookUpdate.isActive := Some false |}.

(** The body of [webhooks.map(async (webhook) => ...)]: one delivery, as
    the store calls it awaits after the request was answered: the delivery
    row, the stats update and, after a failure, the re-read of the
    subscription and the update that disables it. The task starts at
    [now]; the store calls take no time. *)
Definition deliverTask {env : Env} (event : WebhookEvent) (payload : WebhookPayload.t)
    (payloadString : string) (now : Z) (webhook : string * Webhook.t) : Task Outcome.t :=
  let startTime := now in
  let '(result, elapsed) := fetch (deliveryRequest event payload payloadString webhook.2) in
  let a := attemptOf result in
  let duration := (startTime + elapsed) - startTime in
  await_ webhookDelivery_create
       {| WebhookDelivery.webhookId := webhook.1;
          WebhookDelivery.event := event;
          WebhookDelivery.payload := payload;
          WebhookDelivery.statusCode := statusCode a;
          WebhookDelivery.response := Js.Text.substring0 10000 <$> responseBody a;
          WebhookDelivery.duration := duration;
          WebhookDelivery.success := success a;
          WebhookDelivery.error := error a |} in
  await_ webhook_update webhook.1 (statsUpdate (startTime + elapsed) (success a)) in
  andThen
    (if negb (success a) then
       await webhook_updated := webhook_findUnique webhook.1 in
       match webhook_updated with
       | Some wu =>
           if 10 <=? Webhook.failureCount wu then
             await_ webhook_update webhook.1 disableUpdate in Done tt
           else Done tt
       | None => Done tt
       end
     else Done tt)
    (fun _ =>
       Done {| Outcome.webhookId := webhook.1;
               Outcome.success := success a;
               Outcome.error := error a |}).

Definition deliver {env : Env} (event : WebhookEvent) (payload : WebhookPayload.t)
    (payloadString : string) (now : Z) (webhook : string * Webhook.t) : M Outcome.t :=
  run (deliverTask event payload payloadString now webhook).

(** The [where] clause of the dispatcher's [findMany]. *)
Definition subscribed (organizationId : string) (event : WebhookEvent)
    (w : Webhook.t) : bool :=
  String.eqb (Webhook.organizationId w) organizationId
  && Webhook.isActive w
  && bool_decide (event ∈ Webhook.events w).

Definition triggerWebhooks {env : Env} (organizationId : string) (event : WebhookEvent)
    (data : Json) (now : Z) : M (option (list Outcome.t)) :=
  let* webhooks := webhook_findMany (subscribed organizationId event) in
  if (length webhooks =? 0)%nat then ret None
  else
    let payload :=
      {| WebhookPayload.event := event;
         WebhookPayload.timestamp := toISOString now;
         WebhookPayload.data := data;
         WebhookPayload.organizationId := organizationId |} in
    let payloadString := JSON_stringify payload in
    let* outcomes := mapM (deliver event payload payloadString now) webhooks in
    ret (Some outcomes).

(** The rows [triggerWebhooks] delivers to, and what one delivery leaves
    behind: its outcome, its [WebhookDelivery] row, and the stored
    subscription after the stats update and the disabling step. *)
Definition matching (organizationId : string) (event : WebhookEvent) (db : Db)
  : list (string * Webhook.t) :=
  List.filter (fun r => subscribed organizationId event r.2) (map_to_list (webhook db)).

Definition dispatchPayload {env : Env} (organizationId : string) (event : WebhookEvent)
    (data : Json) (now : Z) : WebhookPayload.t :=
  {| WebhookPayload.event := event;
     WebhookPayload.timestamp := toISOString now;
     WebhookPayload.data := data;
     WebhookPayload.organizationId := organizationId |}.

Definition deliveryResult {env : Env} (event : WebhookEvent) (payload : WebhookPayload.t)
    (w : Webhook.t) : FetchResult :=
  (fetch (deliveryRequest event payload (JSON_stringify payload) w)).1.

Definition deliveryElapsed {env : Env} (event : WebhookEvent) (payload : WebhookPayload.t)
    (w : Webhook.t) : Z :=
  (fetch (deliveryRequest event payload (JSON_stringify payload) w)).2.

Definition deliverySucceeded {env : Env} (event : WebhookEvent) (payload : WebhookPayload.t)
    (w : Webhook.t) : bool :=
  success (attemptOf (deliveryResult event payload w)).

Definition deliveryOutcome {env : Env} (event : WebhookEvent) (payload : WebhookPayload.t)
    (webhook : string * Webhook.t) : Outcome.t :=
  let a := attemptOf (deliveryResult event payload webhook.2) in
  {| Outcome.webhookId := webhook.1;
     Outcome.success := success a;
     Outcome.error := error a |}.

Definition deliveryRecord {env : Env} (event : WebhookEvent) (payload : WebhookPayload.t)
    (now : Z) (webhook : string * Webhook.t) : WebhookDelivery.t :=
  let a := attemptOf (deliveryResult event payload webhook.2) in
  {| WebhookDelivery.webhookId := webhook.1;
     WebhookDelivery.event := event;
     WebhookDelivery.payload := payload;
     WebhookDelivery.statusCode := statusCode a;
     WebhookDelivery.response := Js.Text.substring0 10000 <$> responseBody a;
     WebhookDelivery.duration := (now + deliveryElapsed event payload webhook.2) - now;
     WebhookDelivery.success := success a;
     WebhookDelivery.error := error a |}.

Definition afterDelivery (at_ : Z) (success : bool) (stored : Webhook.t) : Webhook.t :=
  let updated := WebhookUpdate.apply (statsUpdate at_ success) stored in
  if negb success && (10 <=? Webhook.failureCount updated)
  then WebhookUpdate.apply disableUpdate updated
  else updated.

Definition deliveredRow {env : Env} (event : WebhookEvent) (payload : WebhookPayload.t)
    (now : Z) (w : Webhook.t) : Webhook.t :=
  afterDelivery (now + deliveryElapsed event payload w)
    (success (attemptOf (deliveryResult event payload w))) w.

(** The subscription table after a dispatch: every delivered row replaced
    by its [deliveredRow]. *)
Definition dispatchedWebhooks {env : Env} (event : WebhookEvent) (payload : WebhookPayload.t)
    (now : Z) (ws : list (string * Webhook.t)) (t : gmap string Webhook.t)
  : gmap string Webhook.t :=
  (deliveredRow event payload now <$> (list_to_map ws : gmap string Webhook.t)) ∪ t.

(** Modelled from the spec: the column defaults of the Subscription table
    (the database schema is not part of the sources). A new subscription is
    active, with a failure counter of 0 and no delivery yet. *)
Definition newWebhookRow (organizationId url : string) (events : list WebhookEvent)
    (secret : string) : Webhook.t :=
  {| Webhook.organizationId := organizationId;
     Webhook.url := url;
     Webhook.events := events;
     Webhook.secret := secret;
     Webhook.isActive := true;
     Webhook.failureCount := 0;
     Webhook.lastDeliveryAt := None |}.

(** [rnd] is [crypto.randomBytes(32).toString('hex')], [newId] the id the
    store generates. *)
Definition createWebhook (organizationId url : string) (events : list WebhookEvent)
    (rnd newId : string) : M (string * Webhook.t) :=
  let secret := rnd in
  webhook_create newId (newWebhookRow organizationId url events secret).

Definition testWebhook {env : Env} (webhookId : string) (now : Z) : M TestResult.t :=
  let* webhook := webhook_findUnique webhookId in
  match webhook with
  | None => fun _ => Throw (JsError "Webhook not found")
  | Some w =>
      let testPayload :=
        {| WebhookPayload.event := case_created;
           WebhookPayload.timestamp := toISOString now;
           WebhookPayload.data :=
             JObject [ ("test", JBool true);
                       ("message", JString "This is a test webhook delivery") ];
           WebhookPayload.organizationId := Webhook.organizationId w |} in
      let payloadString := JSON_stringify testPayload in
      let signature := generateSignature payloadString (Webhook.secret w) in
      let '(result, elapsed) :=
        fetch {| Request.url := Webhook.url w;
                 Request.method := "POST";
                 Request.headers :=
                   [ ("Content-Type", "application/json");
                     ("X-Webhook-Signature", signature);
                     ("X-Webhook-Event", "test");
                     ("X-Webhook-Timestamp", WebhookPayload.timestamp testPayload) ];
                 Request.body := payloadString;
                 Request.timeout := 10000 |} in
      match result with
      | Responded status text =>
          ret {| TestResult.success := response_ok status;
                 TestResult.statusCode := Some status;
                 TestResult.duration := elapsed;
                 TestResult.response :=
                   Some (Js.Text.substring0 1000 (default "" text));
                 TestResult.error := None |}
      | Rejected err =>
          ret {| TestResult.success := false;
                 TestResult.statusCode := None;
                 TestResult.duration := elapsed;
                 TestResult.response := None;
                 TestResult.error :=
                   Some match err with
                        | ThrownError message => message
                        | ThrownOther => "Unknown error"
                        end |}
      end
  end.

(** One operation of the dispatcher on the store. *)
Inductive dispatcherStep {env : Env} : Db -> Db -> Prop :=
| step_triggerWebhooks organizationId event data now db r db' :
    triggerWebhooks organizationId event data now db = Ok (r, db') ->
    dispatcherStep db db'
| step_createWebhook organizationId url events rnd newId db r db' :
    createWebhook organizationId url events rnd newId db = Ok (r, db') ->
    dispatcherStep db db'
| step_testWebhook webhookId now db r db' :
    testWebhook webhookId now db = Ok (r, db') ->
    dispatcherStep db db'.

(** *** Audit log (src/lib/audit.ts) *)

Definition createAuditLog (params : AuditLogParams.t) (hdrs : Headers) (now : Z)
  : M AuditLog.t :=
  let headersList := hdrs in
  let ipAddress :=
    default "unknown"
      (orElse (orElse (headersList !! "x-forwarded-for") (headersList !! "x-real-ip"))
         (Some "unknown")) in
  let userAgent := orElse (headersList !! "user-agent") None in
  auditLog_create
    {| AuditLog.organizationId := AuditLogParams.organizationId params;
       AuditLog.userId := AuditLogParams.userId params;
       AuditLog.userEmail := AuditLogParams.userEmail params;
       AuditLog.ipAddress := ipAddress;
       AuditLog.userAgent := userAgent;
       AuditLog.action := AuditLogParams.action params;
       AuditLog.entityType := AuditLogParams.entityType params;
       AuditLog.entityId := AuditLogParams.entityId params;
       AuditLog.description := AuditLogParams.description params;
       AuditLog.oldValue := AuditLogParams.oldValue params;
       AuditLog.newValue := AuditLogParams.newValue params;
       AuditLog.metadata := default (JObject []) (AuditLogParams.metadata params);
       AuditLog.createdAt := now |}.

(** *** API keys *)

(** [rnd] is [crypto.randomBytes(KEY_LENGTH).toString('base64url')]. *)
Definition generateApiKey {env : Env} (rnd : string) : string * string * string :=
  let key := API_KEY_PREFIX +:+ rnd in
  let hash := digestHex (sha256 key) in
  let prefix := Js.substring0 12 key in
  (key, hash, prefix).

(** Modelled from the spec: the column defaults of the Credential table
    (the database schema is not part of the sources). A new credential is
    active, never used, with a usage counter of 0; its rate-limit ceiling
    is the default of the column. *)
Definition newApiKeyRow {env : Env} (organizationId name key keyPrefix : string)
    (scopes : list string) (expiresAt : option Z) (createdBy : string) : ApiKey.t :=
  {| ApiKey.organizationId := organizationId;
     ApiKey.name := name;
     ApiKey.key := key;
     ApiKey.keyPrefix := keyPrefix;
     ApiKey.scopes := scopes;
     ApiKey.expiresAt := expiresAt;
     ApiKey.createdBy := createdBy;
     ApiKey.isActive := true;
     ApiKey.lastUsedAt := None;
     ApiKey.usageCount := 0;
     ApiKey.rateLimit := defaultRateLimit |}.

(** [newId] is the id the store generates; the result is [{ ...apiKey, key }],
    the stored row with the raw key in place of its hash. *)
Definition createApiKey {env : Env} (organizationId name : string) (scopes : list string)
    (createdBy : string) (expiresAt : option Z) (rnd newId : string)
    (hdrs : Headers) (now : Z) : M (string * ApiKey.t) :=
  let '(key, hash, prefix) := generateApiKey rnd in
  let* apiKey :=
    apiKey_create newId
      (newApiKeyRow organizationId name hash prefix scopes expiresAt createdBy) in
  do createAuditLog
       {| AuditLogParams.organizationId := organizationId;
          AuditLogParams.userId := createdBy;
          AuditLogParams.userEmail := None;
          AuditLogParams.action := "api_key.created";
          AuditLogParams.entityType := "api_key";
          AuditLogParams.entityId := Some apiKey.1;
          AuditLogParams.description :=
            Some ("API key " +:+ dquote +:+ name +:+ dquote +:+ " created");
          AuditLogParams.oldValue := None;
          AuditLogParams.newValue :=
            Some (JObject
                    ([ ("name", JString name);
                       ("scopes", JArray (map JString scopes)) ]
                     ++ match expiresAt with
                        | Some e => [ ("expiresAt", JString (toISOString e)) ]
                        | None => []
                        end)%list);
          AuditLogParams.metadata := None |} hdrs now in
  ret (apiKey.1,
       {| ApiKey.organizationId := ApiKey.organizationId apiKey.2;
          ApiKey.name := ApiKey.name apiKey.2;
          ApiKey.key := key;
          ApiKey.keyPrefix := ApiKey.keyPrefix apiKey.2;
          ApiKey.scopes := ApiKey.scopes apiKey.2;
          ApiKey.expiresAt := ApiKey.expiresAt apiKey.2;
          ApiKey.createdBy := ApiKey.createdBy apiKey.2;
          ApiKey.isActive := ApiKey.isActive apiKey.2;
          ApiKey.lastUsedAt := ApiKey.lastUsedAt apiKey.2;
          ApiKey.usageCount := ApiKey.usageCount apiKey.2;
          ApiKey.rateLimit := ApiKey.rateLimit apiKey.2 |}).

(** [apiKey.expiresAt && apiKey.expiresAt < new Date()] *)
Definition expired (k : ApiKey.t) (now : Z) : bool :=
  match ApiKey.expiresAt k with
  | Some e => e <? now
  | None => false
  end.

Definition validateApiKey {env : Env} (key : string) (now : Z) : M (option Validated.t) :=
  if negb (Js.startsWith key API_KEY_PREFIX) then ret None
  else
    let hash := digestHex (sha256 key) in
    let* apiKey := apiKey_findUnique_key hash in
    match apiKey with
    | None => ret None
    | Some apiKey =>
        if negb (ApiKey.isActive apiKey.2) then ret None
        else if expired apiKey.2 now then ret None
        else
          do apiKey_update apiKey.1
               {| ApiKeyUpdate.lastUsedAt := Some (Some now);
                  ApiKeyUpdate.usageCount := Some (IntIncrement 1);
                  ApiKeyUpdate.isActive := None |} in
          ret (Some {| Validated.apiKey := apiKey;
                       Validated.organization := ApiKey.organizationId apiKey.2 |})
    end.

(** The [where] clause of the rate limiter's count. *)
Definition countedUsage (apiKeyId : string) (windowStart : Z) (l : AuditLog.t) : bool :=
  String.eqb (AuditLog.action l) "api_key.used"
  && bool_decide (AuditLog.entityId l = Some apiKeyId)
  && (windowStart <=? AuditLog.createdAt l).

(** The number of audit rows the rate limiter counts for a key at [now]. *)
Definition recentUsage (apiKeyId : string) (now : Z) (db : Db) : Z :=
  Z.of_nat (length (List.filter (countedUsage apiKeyId (now - 60 * 60 * 1000))
                      (auditLog db))).

Definition checkRateLimit (apiKeyId : string) (rateLimit : Z) (now : Z)
  : M RateLimit.t :=
  let windowStart := now - 60 * 60 * 1000 in
  let* recentUsage := auditLog_count (countedUsage apiKeyId windowStart) in
  let remaining := Z.max 0 (rateLimit - recentUsage) in
  let resetAt := windowStart + 60 * 60 * 1000 in
  ret {| RateLimit.allowed := 0 <? remaining;
         RateLimit.remaining := remaining;
         RateLimit.resetAt := resetAt |}.

(** The count of the specification, written from its words: the events
    attributable to a credential within the trailing 60-minute window. An
    event is attributable to a credential when it records a use of that
    credential; the window at [now] holds the instants from 60 minutes
    before [now] up to [now]. *)
Definition windowCount_spec (credentialId : string) (now : Z) (log : list AuditLog.t) : Z :=
  Z.of_nat
    (length
       (filter (fun e => AuditLog.action e = "api_key.used"
                         /\ AuditLog.entityId e = Some credentialId
                         /\ now - 60 * 60 * 1000 <= AuditLog.createdAt e <= now)
          log)).

Definition revokeApiKey (apiKeyId organizationId revokedBy : string)
    (hdrs : Headers) (now : Z) : M ApiKey.t :=
  let* apiKey :=
    apiKey_update_in_org apiKeyId organizationId
      {| ApiKeyUpdate.lastUsedAt := None;
         ApiKeyUpdate.usageCount := None;
         ApiKeyUpdate.isActive := Some false |} in
  do createAuditLog
       {| AuditLogParams.organizationId := organizationId;
          AuditLogParams.userId := revokedBy;
          AuditLogParams.userEmail := None;
          AuditLogParams.action := "api_key.deleted";
          AuditLogParams.entityType := "api_key";
          AuditLogParams.entityId := Some apiKeyId;
          AuditLogParams.description :=
            Some ("API key " +:+ dquote +:+ ApiKey.name apiKey +:+ dquote +:+ " revoked");
          AuditLogParams.oldValue := None;
          AuditLogParams.newValue := None;
          AuditLogParams.metadata := None |} hdrs now in
  ret apiKey.

Definition authenticateApiRequest {env : Env} (hdrs : Headers) (now : Z) : M AuthResult :=
  let headersList := hdrs in
  let authHeader := headersList !! "authorization" in
  match authHeader with
  | None => ret (AuthError "Missing or invalid authorization header" 401 [])
  | Some authHeader =>
      if negb (Js.startsWith authHeader "Bearer ") then
        ret (AuthError "Missing or invalid authorization header" 401 [])
      else
        let key := Js.substringFrom 7 authHeader in
        let* result := validateApiKey key now in
        match result with
        | None => ret (AuthError "Invalid API key" 401 [])
        | Some result =>
            let apiKey := Validated.apiKey result in
            let organization := Validated.organization result in
            let* rateLimit :=
              checkRateLimit apiKey.1 (ApiKey.rateLimit apiKey.2) now in
            if negb (RateLimit.allowed rateLimit) then
              ret (AuthError "Rate limit exceeded" 429
                     [ ("X-RateLimit-Limit", Js.numberToString (ApiKey.rateLimit apiKey.2));
                       ("X-RateLimit-Remaining",
                        Js.numberToString (RateLimit.remaining rateLimit));
                       ("X-RateLimit-Reset", toISOString (RateLimit.resetAt rateLimit)) ])
            else
              ret (AuthOk apiKey organization
                     [ ("X-RateLimit-Limit", Js.numberToString (ApiKey.rateLimit apiKey.2));
                       ("X-RateLimit-Remaining",
                        Js.numberToString (RateLimit.remaining rateLimit)) ])
        end
  end.

(** The stored credential [validateApiKey] finds for a raw key. *)
Definition credentialOf {env : Env} (key : string) (db : Db) : option (string * ApiKey.t) :=
  List.find (fun r => String.eqb (ApiKey.key r.2) (digestHex (sha256 key)))
    (map_to_list (apiKey db)).

(** The usage update of a successful validation. *)
Definition usageUpdate (now : Z) : ApiKeyUpdate.t :=
  {| ApiKeyUpdate.lastUsedAt := Some (Some now);
     ApiKeyUpdate.usageCount := Some (IntIncrement 1);
     ApiKeyUpdate.isActive := None |}.

(** One operation of the credential gateway on the store. *)
Inductive gatewayStep {env : Env} : Db -> Db -> Prop :=
| step_validateApiKey key now db r db' :
    validateApiKey key now db = Ok (r, db') ->
    gatewayStep db db'
| step_authenticateApiRequest hdrs now db r db' :
    authenticateApiRequest hdrs now db = Ok (r, db') ->
    gatewayStep db db'
| step_createApiKey organizationId name scopes createdBy expiresAt rnd newId
    hdrs now db r db' :
    createApiKey organizationId name scopes createdBy expiresAt rnd newId hdrs now db
    = Ok (r, db') ->
    gatewayStep db db'
| step_revokeApiKey apiKeyId organizationId revokedBy hdrs now db r db' :
    revokeApiKey apiKeyId organizationId revokedBy hdrs now db = Ok (r, db') ->
    gatewayStep db db'.

(** No audit row of the store records a key usage. *)
Definition noUsageLogged (db : Db) : Prop :=
  Forall (fun l => AuditLog.action l <> "api_key.used") (auditLog db).

(** ** Sample environment and stores

    A stand-in for the library functions, a network in which the endpoint
    of [a.example] answers 200, that of [b.example] answers 500 and any
    other request times out, and a few stores. *)

Definition sampleSha256 (s : string) : N := N.of_nat (String.length s).

Definition sampleHmac (key message : string) : N :=
  N.of_nat (String.length key + 31 * String.length message).

Definition sampleISO (t : Z) : string := Js.numberToString t.

Definition sampleStringify (p : WebhookPayload.t) : string :=
  WebhookEvent_toString (WebhookPayload.event p) +:+ "@" +:+ WebhookPayload.timestamp p.

Definition sampleFetch (r : Request.t) : FetchResult * Z :=
  if String.eqb (Request.url r) "https://a.example/hook" then
    (Responded 200 (Some "ok"), 120)
  else if String.eqb (Request.url r) "https://b.example/hook" then
    (Responded 500 (Some "boom"), 80)
  else (Rejected (ThrownError "The operation was aborted due to timeout"), 30000).

Definition sampleEnv : Env :=
  {| sha256 := sampleSha256;
     hmacSha256 := sampleHmac;
     JSON_stringify := sampleStringify;
     toISOString := sampleISO;
     fetch := sampleFetch;
     defaultRateLimit := 1000 |}.

Definition sampleWebhook (url : string) (failures : Z) (active : bool) : Webhook.t :=
  {| Webhook.organizationId := "org_1";
     Webhook.url := url;
     Webhook.events := [case_created; form_submitted];
     Webhook.secret := "5ec2e7";
     Webhook.isActive := active;
     Webhook.failureCount := failures;
     Webhook.lastDeliveryAt := None |}.

(** Three subscribers of [case.created]: A (3 failures so far) answers 200,
    B (9 failures so far) answers 500, C times out. *)
Definition dbThree : Db :=
  {| apiKey := ∅;
     webhook :=
       <["wh_a" := sampleWebhook "https://a.example/hook" 3 true]>
         (<["wh_b" := sampleWebhook "https://b.example/hook" 9 true]>
            (<["wh_c" := sampleWebhook "https://c.example/hook" 0 true]> ∅));
     webhookDelivery := [];
     auditLog := [] |}.

(** A store whose only subscription is inactive. *)
Definition dbIdle : Db :=
  {| apiKey := ∅;
     webhook := {["wh_x" := sampleWebhook "https://a.example/hook" 12 false]};
     webhookDelivery := [];
     auditLog := [] |}.

Definition sampleUsage (apiKeyId : string) (createdAt : Z) : AuditLog.t :=
  {| AuditLog.organizationId := "org_1";
     AuditLog.userId := "user_1";
     AuditLog.userEmail := None;
     AuditLog.ipAddress := "unknown";
     AuditLog.userAgent := None;
     AuditLog.action := "api_key.used";
     AuditLog.entityType := "api_key";
     AuditLog.entityId := Some apiKeyId;
     AuditLog.description := None;
     AuditLog.oldValue := None;
     AuditLog.newValue := None;
     AuditLog.metadata := JObject [];
     AuditLog.createdAt := createdAt |}.

(** Five logged usages of [key_1], at minutes 0, 10, 20, 30 and 40,
    among rows the limiter must not count for [key_1]: two usages of
    [key_2], and the issuance of [key_1] itself, all within the same
    hour. *)
Definition dbSharedLog : Db :=
  {| apiKey := ∅;
     webhook := ∅;
     webhookDelivery := [];
     auditLog :=
       [ sampleUsage "key_1" 0; sampleUsage "key_2" 300000;
         sampleUsage "key_1" 600000; sampleUsage "key_1" 1200000;
         {| AuditLog.organizationId := "org_1";
            AuditLog.userId := "user_1";
            AuditLog.userEmail := None;
            AuditLog.ipAddress := "unknown";
            AuditLog.userAgent := None;
            AuditLog.action := "api_key.created";
            AuditLog.entityType := "api_key";
            AuditLog.entityId := Some "key_1";
            AuditLog.description := None;
            AuditLog.oldValue := None;
            AuditLog.newValue := None;
            AuditLog.metadata := JObject [];
            AuditLog.createdAt := 1500000 |};
         sampleUsage "key_1" 1800000; sampleUsage "key_2" 2000000;
         sampleUsage "key_1" 2400000 ] |}.

(** The store after issuing one key for [org_1] in the empty store. *)
Definition sampleKeyRow : ApiKey.t :=
  {| ApiKey.organizationId := "org_1";
     ApiKey.name := "ci";
     ApiKey.key := digestHex (sampleSha256 "ip_c2FtcGxlLWtleQ");
     ApiKey.keyPrefix := "ip_c2FtcGxlL";
     ApiKey.scopes := ["cases.read"; "forms.*"];
     ApiKey.expiresAt := None;
     ApiKey.createdBy := "user_1";
     ApiKey.isActive := true;
     ApiKey.lastUsedAt := None;
     ApiKey.usageCount := 0;
     ApiKey.rateLimit := 1000 |}.

Definition sampleIssued : string * ApiKey.t :=
  ("key_1",
   {| ApiKey.organizationId := "org_1";
      ApiKey.name := "ci";
      ApiKey.key := "ip_c2FtcGxlLWtleQ";
      ApiKey.keyPrefix := "ip_c2FtcGxlL";
      ApiKey.scopes := ["cases.read"; "forms.*"];
      ApiKey.expiresAt := None;
      ApiKey.createdBy := "user_1";
      ApiKey.isActive := true;
      ApiKey.lastUsedAt := None;
      ApiKey.usageCount := 0;
      ApiKey.rateLimit := 1000 |}).

Definition dbIssued : Db :=
  {| apiKey := {["key_1" := sampleKeyRow]};
     webhook := ∅;
     webhookDelivery := [];
     auditLog :=
       [ {| AuditLog.organizationId := "org_1";
            AuditLog.userId := "user_1";
            AuditLog.userEmail := None;
            AuditLog.ipAddress := "unknown";
            AuditLog.userAgent := None;
            AuditLog.action := "api_key.created";
            AuditLog.entityType := "api_key";
            AuditLog.entityId := Some "key_1";
            AuditLog.description :=
              Some ("API key " +:+ dquote +:+ "ci" +:+ dquote +:+ " created");
            AuditLog.oldValue := None;
            AuditLog.newValue :=
              Some (JObject [ ("name", JString "ci");
                              ("scopes", JArray [JString "cases.read"; JString "forms.*"]) ]);
            AuditLog.metadata := JObject [];
            AuditLog.createdAt := 500 |} ] |}.

(** ** Further definitions: credentials as a keyed set *)

(** No two stored credentials share a hash (the [key] column is unique). *)
Definition uniqueHashes (db : Db) : Prop :=
  forall i j ki kj,
    apiKey db !! i = Some ki -> apiKey db !! j = Some kj ->
    ApiKey.key ki = ApiKey.key kj -> i = j.

(** A stored credential and a later state of it: the tenant, name, hash,
    display prefix, scopes, expiry, creator and rate limit are the same, the
    usage counter has not decreased, and an inactive one is still
    inactive. *)
Definition credentialEvolves (k k' : ApiKey.t) : Prop :=
  ApiKey.organizationId k' = ApiKey.organizationId k
  /\ ApiKey.name k' = ApiKey.name k
  /\ ApiKey.key k' = ApiKey.key k
  /\ ApiKey.keyPrefix k' = ApiKey.keyPrefix k
  /\ ApiKey.scopes k' = ApiKey.scopes k
  /\ ApiKey.expiresAt k' = ApiKey.expiresAt k
  /\ ApiKey.createdBy k' = ApiKey.createdBy k
  /\ ApiKey.rateLimit k' = ApiKey.rateLimit k
  /\ ApiKey.usageCount k <= ApiKey.usageCount k'
  /\ (ApiKey.isActive k = false -> ApiKey.isActive k' = false).

(** The update of a revocation. *)
Definition revokeUpdate : ApiKeyUpdate.t :=
  {| ApiKeyUpdate.lastUsedAt := None;
     ApiKeyUpdate.usageCount := None;
     ApiKeyUpdate.isActive := Some false |}.

(** ** Plans and plan limits (the billing part of the source) *)

Inductive Plan :=
| FREE
| STARTER
| PROFESSIONAL
| ENTERPRISE.

Global Instance Plan_eq_dec : EqDecision Plan.
Proof. solve_decision. Defined.

Module PlanFeatures.
Record t := mk {
  maxMembers : Z;
  maxCases : Z;
  maxRecordingsPerMonth : Z;
  maxStorageGB : Z;
  aiAnalysis : bool;
  apiAccess : bool;
  customBranding : bool;
  auditLogs : bool;
  sso : bool;
  prioritySupport : bool
}.
End PlanFeatures.

(** An entry of [PLANS]; [priceId] (read from the process environment) is
    left out. *)
Module PlanConfig.
Record t := mk {
  name : string;
  price : Z;
  features : PlanFeatures.t
}.
End PlanConfig.

Definition PLANS (plan : Plan) : PlanConfig.t :=
  match plan with
  | FREE =>
      {| PlanConfig.name := "Free";
         PlanConfig.price := 0;
         PlanConfig.features :=
           {| PlanFeatures.maxMembers := 2;
              PlanFeatures.maxCases := 10;
              PlanFeatures.maxRecordingsPerMonth := 5;
              PlanFeatures.maxStorageGB := 1;
              PlanFeatures.aiAnalysis := false;
              PlanFeatures.apiAccess := false;
              PlanFeatures.customBranding := false;
              PlanFeatures.auditLogs := false;
              PlanFeatures.sso := false;
              PlanFeatures.prioritySupport := false |} |}
  | STARTER =>
      {| PlanConfig.name := "Starter";
         PlanConfig.price := 29;
         PlanConfig.features :=
           {| PlanFeatures.maxMembers := 5;
              PlanFeatures.maxCases := 50;
              PlanFeatures.maxRecordingsPerMonth := 50;
              PlanFeatures.maxStorageGB := 10;
              PlanFeatures.aiAnalysis := true;
              PlanFeatures.apiAccess := false;
              PlanFeatures.customBranding := false;
              PlanFeatures.auditLogs := false;
              PlanFeatures.sso := false;
              PlanFeatures.prioritySupport := false |} |}
  | PROFESSIONAL =>
      {| PlanConfig.name := "Professional";
         PlanConfig.price := 79;
         PlanConfig.features :=
           {| PlanFeatures.maxMembers := 20;
              PlanFeatures.maxCases := 500;
              PlanFeatures.maxRecordingsPerMonth := 500;
              PlanFeatures.maxStorageGB := 100;
              PlanFeatures.aiAnalysis := true;
              PlanFeatures.apiAccess := true;
              PlanFeatures.customBranding := true;
              PlanFeatures.auditLogs := true;
              PlanFeatures.sso := false;
              PlanFeatures.prioritySupport := true |} |}
  | ENTERPRISE =>
      {| PlanConfig.name := "Enterprise";
         PlanConfig.price := 299;
         PlanConfig.features :=
           {| PlanFeatures.maxMembers := -1;
              PlanFeatures.maxCases := -1;
              PlanFeatures.maxRecordingsPerMonth := -1;
              PlanFeatures.maxStorageGB := -1;
              PlanFeatures.aiAnalysis := true;
              PlanFeatures.apiAccess := true;
              PlanFeatures.customBranding := true;
              PlanFeatures.auditLogs := true;
              PlanFeatures.sso := true;
              PlanFeatures.prioritySupport := true |} |}
  end.

Definition getPlanFeatures (plan : Plan) : PlanFeatures.t :=
  PlanConfig.features (PLANS plan).

(** The order of the tiers, from the cheapest. *)
Definition planRank (plan : Plan) : Z :=
  match plan with
  | FREE => 0
  | STARTER => 1
  | PROFESSIONAL => 2
  | ENTERPRISE => 3
  end.

(** The rows the billing functions read and write. A member and a case
    are named by their organization; of a recording, the organization, the
    creation time and the file size (a nullable column) are kept. *)
Module Organization.
Record t := mk {
  plan : Plan;
  stripeCustomerId : option string;
  stripeSubscriptionId : option string;
  planExpiresAt : option Z
}.
End Organization.

Module Recording.
Record t := mk {
  organizationId : string;
  createdAt : Z;
  fileSize : option Z
}.
End Recording.

Record BillingDb := mkBillingDb {
  organization : gmap string Organization.t;
  member : list string;
  case_ : list string;
  recording : list Recording.t
}.

Module LimitType.
Inductive t :=
| members
| cases
| recordings
| storage.
End LimitType.

Module PlanLimit.
Record t := mk {
  allowed : bool;
  limit : Z;
  current : Z
}.
End PlanLimit.

(** [_count.members] and [_count.cases] of an organization. *)
Definition countOf (organizationId : string) (rows : list string) : Z :=
  Z.of_nat (length (List.filter (String.eqb organizationId) rows)).

(** [db.recording.count({ where: { organizationId, createdAt: { gte } } })] *)
Definition recordingsSince (organizationId : string) (since : Z)
    (rows : list Recording.t) : Z :=
  Z.of_nat (length (List.filter
                      (fun r => String.eqb (Recording.organizationId r) organizationId
                                && (since <=? Recording.createdAt r))
                      rows)).

(** [db.recording.aggregate({ where: { organizationId }, _sum: { fileSize } })]:
    the sum of the file sizes that are not null, [null] when there is none. *)
Definition sumFileSize (organizationId : string) (rows : list Recording.t) : option Z :=
  let sizes :=
    omap Recording.fileSize
      (List.filter (fun r => String.eqb (Recording.organizationId r) organizationId) rows) in
  match sizes with
  | [] => None
  | _ => Some (fold_right Z.add 0 sizes)
  end.

(** [Math.ceil(bytes / (1024 * 1024 * 1024))] on an integer number of
    bytes (the division by a power of two is exact on JavaScript numbers). *)
Definition ceilGB (bytes : Z) : Z := - ((- bytes) / (1024 * 1024 * 1024)).

(** [checkPlanLimit(organizationId, limitType)]; it only reads the store.
    [startOfMonth] is the local start of the current month, the [Date] the
    source builds with [setDate(1)] and [setHours(0, 0, 0, 0)]. *)
Definition checkPlanLimit (organizationId : string) (limitType : LimitType.t)
    (startOfMonth : Z) (db : BillingDb) : PlanLimit.t :=
  match organization db !! organizationId with
  | None =>
      {| PlanLimit.allowed := false; PlanLimit.limit := 0; PlanLimit.current := 0 |}
  | Some org =>
      let features := getPlanFeatures (Organization.plan org) in
      let '(limit, current) :=
        match limitType with
        | LimitType.members =>
            (PlanFeatures.maxMembers features, countOf organizationId (member db))
        | LimitType.cases =>
            (PlanFeatures.maxCases features, countOf organizationId (case_ db))
        | LimitType.recordings =>
            (PlanFeatures.maxRecordingsPerMonth features,
             recordingsSince organizationId startOfMonth (recording db))
        | LimitType.storage =>
            (PlanFeatures.maxStorageGB features,
             ceilGB (match sumFileSize organizationId (recording db) with
                     | Some total => if total =? 0 then 0 else total
                     | None => 0
                     end))
        end in
      let allowed := (limit =? -1) || (current <? limit) in
      {| PlanLimit.allowed := allowed;
         PlanLimit.limit := limit;
         PlanLimit.current := current |}
  end.

(** The bytes an organization stores: the sum of its file sizes. *)
Definition storedBytes (organizationId : string) (db : BillingDb) : Z :=
  default 0 (sumFileSize organizationId (recording db)).

(** *** Stripe subscription events *)

(** The part of a [Stripe.Event] the handler reads: its type with, for a
    checkout session, the metadata, customer and subscription; for a
    subscription, the metadata and [cancel_at] (seconds). A metadata object
    may be [null]. *)
Inductive StripeEvent :=
| checkout_session_completed (metadata : option (gmap string string))
    (customer subscription : option string)
| customer_subscription_updated (metadata : option (gmap string string))
    (cancel_at : option Z)
| customer_subscription_deleted (metadata : option (gmap string string))
| invoice_payment_failed (invoiceId : string)
| other_event (type : string).

(** [(metadata || {}).name] when it is truthy (present and not empty). *)
Definition truthyField (metadata : option (gmap string string)) (name : string)
  : option string :=
  match metadata with
  | Some m =>
      match m !! name with
      | Some v => if String.eqb v "" then None else Some v
      | None => None
      end
  | None => None
  end.

(** The values of the [Plan] enumeration of the database. *)
Definition Plan_ofString (s : string) : option Plan :=
  if String.eqb s "FREE" then Some FREE
  else if String.eqb s "STARTER" then Some STARTER
  else if String.eqb s "PROFESSIONAL" then Some PROFESSIONAL
  else if String.eqb s "ENTERPRISE" then Some ENTERPRISE
  else None.

(** [db.organization.update({ where: { id }, data })], the data as the
    function from the old row to the new one; Prisma throws when no row has
    the id. *)
Definition organization_update (id : string) (f : Organization.t -> Organization.t)
    (db : BillingDb) : Result BillingDb :=
  match organization db !! id with
  | Some org =>
      Ok {| organization := <[id := f org]> (organization db);
            member := member db;
            case_ := case_ db;
            recording := recording db |}
  | None => Throw (PrismaRecordNotFound "Organization")
  end.

(** [handleSubscriptionEvent(event)]. A plan name that is not a value of
    the enumeration ([plan as Plan] is an unchecked cast) is refused by the
    Prisma client when the row is written. *)
Definition handleSubscriptionEvent (event : StripeEvent) (db : BillingDb)
  : Result BillingDb :=
  match event with
  | checkout_session_completed metadata customer subscription =>
      match truthyField metadata "organizationId", truthyField metadata "plan" with
      | Some organizationId, Some plan =>
          match Plan_ofString plan with
          | Some plan =>
              organization_update organizationId
                (fun org =>
                   {| Organization.plan := plan;
                      Organization.stripeCustomerId := customer;
                      Organization.stripeSubscriptionId := subscription;
                      Organization.planExpiresAt := Organization.planExpiresAt org |})
                db
          | None => Throw (JsError "Invalid value for argument plan")
          end
      | _, _ => Ok db
      end
  | customer_subscription_updated metadata cancel_at =>
      match truthyField metadata "organizationId" with
      | Some organizationId =>
          let planExpiresAt :=
            match cancel_at with
            | Some c => if c =? 0 then None else Some (c * 1000)
            | None => None
            end in
          match truthyField metadata "plan" with
          | Some plan =>
              match Plan_ofString plan with
              | Some plan =>
                  organization_update organizationId
                    (fun org =>
                       {| Organization.plan := plan;
                          Organization.stripeCustomerId := Organization.stripeCustomerId org;
                          Organization.stripeSubscriptionId :=
                            Organization.stripeSubscriptionId org;
                          Organization.planExpiresAt := planExpiresAt |})
                    db
              | None => Throw (JsError "Invalid value for argument plan")
              end
          | None =>
              organization_update organizationId
                (fun org =>
                   {| Organization.plan := Organization.plan org;
                      Organization.stripeCustomerId := Organization.stripeCustomerId org;
                      Organization.stripeSubscriptionId :=
                        Organization.stripeSubscriptionId org;
                      Organization.planExpiresAt := planExpiresAt |})
                db
          end
      | None => Ok db
      end
  | customer_subscription_deleted metadata =>
      match truthyField metadata "organizationId" with
      | Some organizationId =>
          organization_update organizationId
            (fun org =>
               {| Organization.plan := FREE;
                  Organization.stripeCustomerId := Organization.stripeCustomerId org;
                  Organization.stripeSubscriptionId := None;
                  Organization.planExpiresAt := None |})
            db
      | None => Ok db
      end
  | invoice_payment_failed _ => Ok db
  | other_event _ => Ok db
  end.

(** The organization an event names in its metadata, if it names one. *)
Definition eventOrganization (event : StripeEvent) : option string :=
  match event with
  | checkout_session_completed metadata _ _ => truthyField metadata "organizationId"
  | customer_subscription_updated metadata _ => truthyField metadata "organizationId"
  | customer_subscription_deleted metadata => truthyField metadata "organizationId"
  | invoice_payment_failed _ => None
  | other_event _ => None
  end.

(** *** Sample billing store and events *)

(** Organization [org_1] on the STARTER plan, with two members, one case
    and two recordings (5 bytes and 3 GB), beside a member and a recording
    of [org_2], which is on the ENTERPRISE plan. *)
Definition sampleOrganization (plan : Plan) : Organization.t :=
  {| Organization.plan := plan;
     Organization.stripeCustomerId := Some "cus_1";
     Organization.stripeSubscriptionId := Some "sub_1";
     Organization.planExpiresAt := None |}.

Definition sampleBillingDb : BillingDb :=
  {| organization :=
       <["org_1" := sampleOrganization STARTER]>
         (<["org_2" := sampleOrganization ENTERPRISE]> ∅);
     member := ["org_1"; "org_2"; "org_1"];
     case_ := ["org_1"];
     recording :=
       [ {| Recording.organizationId := "org_1";
            Recording.createdAt := 100;
            Recording.fileSize := Some 5 |};
         {| Recording.organizationId := "org_2";
            Recording.createdAt := 200;
            Recording.fileSize := Some 7 |};
         {| Recording.organizationId := "org_1";
            Recording.createdAt := 300;
            Recording.fileSize := Some (3 * 1024 * 1024 * 1024) |} ] |}.

(** The same store with [org_1] on the PROFESSIONAL plan. *)
Definition sampleBillingDbUpgraded : BillingDb :=
  {| organization :=
       <["org_1" := sampleOrganization PROFESSIONAL]>
         (<["org_2" := sampleOrganization ENTERPRISE]> ∅);
     member := member sampleBillingDb;
     case_ := case_ sampleBillingDb;
     recording := recording sampleBillingDb |}.

Definition sampleMetadata : option (gmap string string) :=
  Some (<["organizationId" := "org_1"]> (<["plan" := "ENTERPRISE"]> ∅)).

(** The bearer header of the sample key. *)
Definition sampleBearer : Headers :=
  {["authorization" := "Bearer ip_c2FtcGxlLWtleQ"]}.

(** * Properties *)

(** ** Strings *)

Lemma length_append (a b : string) :
  String.length (a +:+ b) = (String.length a + String.length b)%nat.
Proof. induction a as [|c a IH]; simpl; [reflexivity | now rewrite IH]. Qed.

Lemma substring_0_length (s : string) : substring 0 (String.length s) s = s.
Proof. induction s as [|c s IH]; simpl; [reflexivity | now rewrite IH]. Qed.

Lemma substring_0_app (a b : string) : substring 0 (String.length a) (a +:+ b) = a.
Proof.
  induction a as [|c a IH]; simpl.
  - now destruct b.
  - now rewrite IH.
Qed.

Lemma substring_skip_app (a b : string) (m : nat) :
  substring (String.length a) m (a +:+ b) = substring 0 m b.
Proof. induction a as [|c a IH]; simpl; [reflexivity | exact IH]. Qed.

Lemma substring_split (s : string) (k : nat) :
  (k <= String.length s)%nat ->
  substring 0 k s +:+ substring k (String.length s - k) s = s.
Proof.
  revert k. induction s as [|c s IH]; intros k Hk; simpl in *.
  - destruct k; [reflexivity | lia].
  - destruct k as [|k]; simpl.
    + now rewrite substring_0_length.
    + change (String c (substring 0 k s +:+ substring k (String.length s - k) s)
              = String c s).
      rewrite IH by lia. reflexivity.
Qed.

Lemma append_inj_l (a b c : string) : a +:+ c = b +:+ c -> a = b.
Proof.
  revert b. induction a as [|x a IH]; intros b H.
  - destruct b as [|y b]; [reflexivity|].
    apply (f_equal String.length) in H.
    rewrite !length_append in H. simpl in H. lia.
  - destruct b as [|y b].
    + apply (f_equal String.length) in H.
      rewrite !length_append in H. simpl in H. lia.
    + change (String x (a +:+ c) = String y (b +:+ c)) in H.
      injection H as -> H. f_equal. now apply IH.
Qed.

Lemma prefix_app (p t : string) : String.prefix p (p +:+ t) = true.
Proof. apply prefix_correct. apply substring_0_app. Qed.

Lemma prefix_inv (p s : string) :
  String.prefix p s = true -> exists t, s = p +:+ t.
Proof.
  revert s. induction p as [|c p IH]; intros s H.
  - exists s. reflexivity.
  - destruct s as [|d s]; simpl in H; [discriminate|].
    destruct (ascii_dec c d) as [->|]; [|discriminate].
    destruct (IH _ H) as [t ->]. exists t. reflexivity.
Qed.

Lemma prefix_app_weaken (a b s : string) :
  String.prefix (a +:+ b) s = true -> String.prefix a s = true.
Proof.
  intros H. destruct (prefix_inv _ _ H) as [t ->].
  assert (Hassoc : (a +:+ b) +:+ t = a +:+ (b +:+ t)).
  { clear. induction a as [|c a IH]; [reflexivity|].
    change (String c ((a +:+ b) +:+ t) = String c (a +:+ (b +:+ t))).
    now rewrite IH. }
  rewrite Hassoc. apply prefix_app.
Qed.

Lemma endsWith_iff (s suffix : string) :
  Js.endsWith s suffix = true <-> exists X, s = X +:+ suffix.
Proof.
  unfold Js.endsWith. rewrite andb_true_iff, Nat.leb_le, String.eqb_eq. split.
  - intros [Hle Hsub].
    exists (substring 0 (String.length s - String.length suffix) s).
    pose proof (substring_split s (String.length s - String.length suffix)
                  ltac:(lia)) as Hs.
    replace (String.length s - (String.length s - String.length suffix))%nat
      with (String.length suffix) in Hs by lia.
    rewrite Hsub in Hs. now symmetry.
  - intros [X ->]. rewrite length_append. split; [lia|].
    replace (String.length X + String.length suffix - String.length suffix)%nat
      with (String.length X) by lia.
    rewrite substring_skip_app. apply substring_0_length.
Qed.

Lemma slice0neg_app (X suffix : string) :
  Js.slice0neg (String.length suffix) (X +:+ suffix) = X.
Proof.
  unfold Js.slice0neg. rewrite length_append.
  replace (String.length X + String.length suffix - String.length suffix)%nat
    with (String.length X) by lia.
  apply substring_0_app.
Qed.

Lemma includes_In (l : list string) (x : string) : Js.includes l x = true <-> In x l.
Proof.
  unfold Js.includes. rewrite existsb_exists. split.
  - intros (y & Hy & Heq). apply String.eqb_eq in Heq. now subst.
  - intros H. exists x. split; [assumption | apply String.eqb_refl].
Qed.

(** ** hasScope *)

(** What the code decides: the wildcard entry [X.*] is cut to [X], without
    the dot. *)
Lemma hasScope_iff (scopes : list string) (requiredScope : string) :
  hasScope scopes requiredScope = true <->
  In "*" scopes \/ In requiredScope scopes
  \/ exists X, In (X +:+ ".*") scopes /\ Js.startsWith requiredScope X = true.
Proof.
  unfold hasScope, Js.some.
  rewrite !orb_true_iff, !includes_In, existsb_exists. split.
  - intros [[H|H]|(scope & Hin & H)]; [tauto | tauto |].
    right; right.
    destruct (Js.endsWith scope ".*") eqn:E; [|discriminate].
    apply endsWith_iff in E as [X ->]. exists X. split; [assumption|].
    pose proof (slice0neg_app X ".*") as Hs. simpl in Hs.
    now rewrite Hs in H.
  - intros [H|[H|(X & Hin & H)]]; [tauto | tauto |].
    right. exists (X +:+ ".*"). split; [assumption|].
    replace (Js.endsWith (X +:+ ".*") ".*") with true
      by (symmetry; apply endsWith_iff; now exists X).
    pose proof (slice0neg_app X ".*") as Hs. simpl in Hs.
    now rewrite Hs.
Qed.

(** Everything the rule of the specification authorizes, the code
    authorizes too. *)
Lemma authorize_spec_hasScope (scopes : list string) (requiredScope : string) :
  authorize_spec scopes requiredScope -> hasScope scopes requiredScope = true.
Proof.
  intros [H|[H|(X & Hin & H)]]; apply hasScope_iff; [tauto | tauto |].
  right; right. exists X. split; [assumption|].
  unfold Js.startsWith in *. eapply prefix_app_weaken. exact H.
Qed.

(** C1: [hasScope] goes past the wildcard boundary. A key whose only scope
    is [forms.*] is granted [formsx.read], which the rule of the
    specification (exact match, [*], or [X.*] with the required scope
    starting with [X.]) does not authorize. *)
Theorem hasScope_ignores_wildcard_boundary :
  hasScope ["forms.*"] "formsx.read" = true
  /\ ~ authorize_spec ["forms.*"] "formsx.read".
Proof.
  split; [reflexivity|].
  intros [H|[H|(X & Hin & H)]].
  - destruct H as [H|[]]. discriminate.
  - destruct H as [H|[]]. discriminate.
  - destruct Hin as [Hin|[]].
    assert (X = "forms") as -> by (apply (append_inj_l _ _ ".*"); now symmetry).
    discriminate.
Qed.

(** ** verifyWebhookSignature *)

Lemma hexDigits_length (k : nat) (d : N) (acc : string) :
  String.length (hexDigits k d acc) = (k + String.length acc)%nat.
Proof.
  revert d acc. induction k as [|k IH]; intros d acc; simpl.
  - reflexivity.
  - rewrite IH. simpl. lia.
Qed.

Lemma digestHex_length (d : N) : String.length (digestHex d) = 64%nat.
Proof. unfold digestHex. rewrite hexDigits_length. reflexivity. Qed.

Lemma generateSignature_length {env : Env} (payload secret : string) :
  String.length (generateSignature payload secret) = 64%nat.
Proof. apply digestHex_length. Qed.

(** A signature of the right length is compared with the recomputed one. *)
Lemma verifyWebhookSignature_same_length {env : Env} (payload signature secret : string) :
  String.length signature = 64%nat ->
  verifyWebhookSignature payload signature secret
  = Ok (String.eqb signature (generateSignature payload secret)).
Proof.
  intros H. unfold verifyWebhookSignature, timingSafeEqual.
  rewrite generateSignature_length, H. reflexivity.
Qed.

(** A signature of any other length makes the function throw. *)
Lemma verifyWebhookSignature_wrong_length {env : Env} (payload signature secret : string) :
  String.length signature <> 64%nat ->
  verifyWebhookSignature payload signature secret
  = Throw (RangeError "Input buffers must have the same byte length").
Proof.
  intros H. unfold verifyWebhookSignature, timingSafeEqual.
  rewrite generateSignature_length.
  destruct (Nat.eqb_spec (String.length signature) 64); [contradiction | reflexivity].
Qed.

(** C6: [verifyWebhookSignature] raises on a malformed signature instead
    of answering [false]: for the three-character signature [abc] (any
    payload, any secret, any HMAC) the comparison throws a [RangeError]. *)
Theorem verifyWebhookSignature_throws_on_short_signature {env : Env} (payload secret : string) :
  verifyWebhookSignature payload "abc" secret
  = Throw (RangeError "Input buffers must have the same byte length").
Proof. apply verifyWebhookSignature_wrong_length. simpl. lia. Qed.

(** ** checkRateLimit *)

Lemma checkRateLimit_eq (apiKeyId : string) (rateLimit now : Z) (db : Db) :
  checkRateLimit apiKeyId rateLimit now db
  = Ok ({| RateLimit.allowed := 0 <? Z.max 0 (rateLimit - recentUsage apiKeyId now db);
           RateLimit.remaining := Z.max 0 (rateLimit - recentUsage apiKeyId now db);
           RateLimit.resetAt := now - 60 * 60 * 1000 + 60 * 60 * 1000 |}, db).
Proof. reflexivity. Qed.

Lemma recentUsage_nonneg (apiKeyId : string) (now : Z) (db : Db) :
  0 <= recentUsage apiKeyId now db.
Proof. unfold recentUsage. lia. Qed.

(** A later window counts no more rows of the same log, and fewer when a
    counted row has left it. *)
Lemma countedUsage_window_mono (apiKeyId : string) (w1 w2 : Z) (x : AuditLog.t) :
  w1 <= w2 -> countedUsage apiKeyId w2 x = true -> countedUsage apiKeyId w1 x = true.
Proof.
  unfold countedUsage. rewrite !andb_true_iff, !Z.leb_le. intuition lia.
Qed.

Lemma filter_window_le (apiKeyId : string) (w1 w2 : Z) (l : list AuditLog.t) :
  w1 <= w2 ->
  (length (List.filter (countedUsage apiKeyId w2) l)
   <= length (List.filter (countedUsage apiKeyId w1) l))%nat.
Proof.
  intros Hw. induction l as [|x l IH]; simpl; [lia|].
  pose proof (countedUsage_window_mono apiKeyId w1 w2 x Hw) as Hx.
  destruct (countedUsage apiKeyId w2 x), (countedUsage apiKeyId w1 x);
    simpl; try lia; specialize (Hx eq_refl); discriminate.
Qed.

Lemma filter_window_lt (apiKeyId : string) (w1 w2 : Z) (l : list AuditLog.t)
    (e : AuditLog.t) :
  w1 <= w2 -> In e l ->
  countedUsage apiKeyId w1 e = true -> AuditLog.createdAt e < w2 ->
  (length (List.filter (countedUsage apiKeyId w2) l)
   < length (List.filter (countedUsage apiKeyId w1) l))%nat.
Proof.
  intros Hw Hin Hc Hold. induction l as [|x l IH]; [destruct Hin|].
  destruct Hin as [->|Hin].
  - simpl. rewrite Hc.
    assert (countedUsage apiKeyId w2 e = false) as ->.
    { unfold countedUsage. rewrite andb_false_iff. right. apply Z.leb_gt. exact Hold. }
    pose proof (filter_window_le apiKeyId w1 w2 l Hw). simpl. lia.
  - specialize (IH Hin). simpl.
    pose proof (countedUsage_window_mono apiKeyId w1 w2 x Hw) as Hx.
    destruct (countedUsage apiKeyId w2 x), (countedUsage apiKeyId w1 x);
      simpl; try lia; specialize (Hx eq_refl); discriminate.
Qed.

(** What the limiter counts, row by row: the rows that record a use
    ([api_key.used]) of this credential and are dated from the start of the
    window on. *)
Lemma countedUsage_iff (apiKeyId : string) (windowStart : Z) (e : AuditLog.t) :
  countedUsage apiKeyId windowStart e = true
  <-> AuditLog.action e = "api_key.used"
      /\ AuditLog.entityId e = Some apiKeyId
      /\ windowStart <= AuditLog.createdAt e.
Proof.
  unfold countedUsage.
  rewrite !andb_true_iff, String.eqb_eq, bool_decide_eq_true, Z.leb_le. tauto.
Qed.

Lemma filter_length_ext {A} (p : A -> bool) (P : A -> Prop) `{!forall x, Decision (P x)}
    (l : list A) :
  (forall x, In x l -> p x = true <-> P x) ->
  length (List.filter p l) = length (filter P l).
Proof.
  induction l as [|x l IH]; intros Hp; [reflexivity|].
  rewrite filter_cons. cbn [List.filter].
  pose proof (Hp x (or_introl eq_refl)) as Hx.
  specialize (IH (fun y Hy => Hp y (or_intror Hy))).
  destruct (p x), (decide (P x)) as [HP|HP]; cbn [length]; try congruence.
  - exfalso. apply HP, Hx. reflexivity.
  - apply Hx in HP. discriminate.
Qed.

Lemma filter_iff_in {A} (P Q : A -> Prop) `{!forall x, Decision (P x)}
    `{!forall x, Decision (Q x)} (l : list A) :
  (forall x, x ∈ l -> P x <-> Q x) -> filter P l = filter Q l.
Proof.
  induction l as [|x l IH]; intros Hpq; [reflexivity|].
  rewrite !filter_cons.
  pose proof (Hpq x (list_elem_of_here x l)) as Hx.
  rewrite IH by (intros y Hy; apply Hpq; now apply list_elem_of_further).
  destruct (decide (P x)), (decide (Q x)); tauto.
Qed.

Lemma recentUsage_counts (apiKeyId : string) (now : Z) (db : Db) :
  recentUsage apiKeyId now db
  = Z.of_nat
      (length
         (filter (fun e => AuditLog.action e = "api_key.used"
                           /\ AuditLog.entityId e = Some apiKeyId
                           /\ now - 60 * 60 * 1000 <= AuditLog.createdAt e)
            (auditLog db))).
Proof.
  unfold recentUsage. f_equal. apply filter_length_ext.
  intros e _. apply countedUsage_iff.
Qed.

(** C10: [checkRateLimit] leaves the store as it is and counts the rows
    of the audit log that record a use ([api_key.used]) of this credential
    and are dated from 60 minutes before [now] on: no row of another
    credential, of another action or dated earlier is counted, and every
    such row is. When no row is dated after [now], this is the count of the
    specification: the events attributable to the credential within the
    trailing 60-minute window. The check is allowed iff the count is below
    the limit, the remaining allowance is the limit minus the count floored
    at 0, and the reset instant is the window start plus 60 minutes. With
    limit 5 and 5 counted rows the check is refused with remaining 0; at a
    later instant whose window no longer contains one of these rows (the
    log being the same) the check is allowed. *)
Theorem checkRateLimit_sliding_window (apiKeyId : string) (rateLimit now : Z) (db : Db) :
  let windowStart := now - 60 * 60 * 1000 in
  let count :=
    Z.of_nat
      (length
         (filter (fun e => AuditLog.action e = "api_key.used"
                           /\ AuditLog.entityId e = Some apiKeyId
                           /\ windowStart <= AuditLog.createdAt e)
            (auditLog db))) in
  exists r,
    checkRateLimit apiKeyId rateLimit now db = Ok (r, db)
    /\ (Forall (fun e => AuditLog.createdAt e <= now) (auditLog db) ->
        count = windowCount_spec apiKeyId now (auditLog db))
    /\ (RateLimit.allowed r = true <-> count < rateLimit)
    /\ RateLimit.remaining r = Z.max 0 (rateLimit - count)
    /\ RateLimit.resetAt r = windowStart + 60 * 60 * 1000
    /\ (rateLimit = 5 -> count = 5 ->
        RateLimit.allowed r = false /\ RateLimit.remaining r = 0
        /\ forall later oldest,
             now <= later -> In oldest (auditLog db) ->
             AuditLog.action oldest = "api_key.used" ->
             AuditLog.entityId oldest = Some apiKeyId ->
             windowStart <= AuditLog.createdAt oldest ->
             AuditLog.createdAt oldest < later - 60 * 60 * 1000 ->
             exists r',
               checkRateLimit apiKeyId rateLimit later db = Ok (r', db)
               /\ RateLimit.allowed r' = true).
Proof.
  intros windowStart count.
  assert (Hcount : recentUsage apiKeyId now db = count) by apply recentUsage_counts.
  eexists. split; [apply checkRateLimit_eq|].
  cbn [RateLimit.allowed RateLimit.remaining RateLimit.resetAt].
  rewrite Hcount.
  assert (Hn : 0 <= count) by (unfold count; lia).
  split.
  { intros Hpast. unfold count, windowCount_spec. do 2 f_equal.
    apply filter_iff_in. intros e He.
    rewrite Forall_forall in Hpast. specialize (Hpast e He).
    unfold windowStart. intuition lia. }
  split; [rewrite Z.ltb_lt; lia|].
  split; [reflexivity|]. split; [reflexivity|].
  intros -> Hu. rewrite Hu. split; [reflexivity|]. split; [reflexivity|].
  intros later oldest Hl Hin Hact Hent Hwin Hold.
  eexists. split; [apply checkRateLimit_eq|].
  cbn [RateLimit.allowed]. apply Z.ltb_lt.
  assert (recentUsage apiKeyId later db < recentUsage apiKeyId now db).
  { unfold recentUsage.
    pose proof (filter_window_lt apiKeyId (now - 60 * 60 * 1000)
                  (later - 60 * 60 * 1000) (auditLog db) oldest
                  ltac:(lia) Hin
                  (proj2 (countedUsage_iff _ _ _) (conj Hact (conj Hent Hwin))) Hold).
    lia. }
  lia.
Qed.

(** ** The dispatcher *)

Lemma deliver_eq {env : Env} (event : WebhookEvent) (payload : WebhookPayload.t) (now : Z)
    (id : string) (w stored : Webhook.t) (db : Db) :
  webhook db !! id = Some stored ->
  deliver event payload (JSON_stringify payload) now (id, w) db
  = Ok (deliveryOutcome event payload (id, w),
        {| apiKey := apiKey db;
           webhook :=
             <[id := afterDelivery (now + deliveryElapsed event payload w)
                       (success (attemptOf (deliveryResult event payload w))) stored]>
               (webhook db);
           webhookDelivery :=
             (webhookDelivery db ++ [deliveryRecord event payload now (id, w)])%list;
           auditLog := auditLog db |}).
Proof.
  intros Hst.
  unfold deliver, deliverTask, deliveryOutcome, deliveryRecord, deliveryResult,
    deliveryElapsed, afterDelivery.
  cbn [fst snd].
  destruct (fetch (deliveryRequest event payload (JSON_stringify payload) w))
    as [result elapsed].
  cbn [fst snd].
  set (a := attemptOf result).
  destruct (success a); cbn [negb andb run andThen];
    unfold bind, webhookDelivery_create, webhook_update, webhook_findUnique, ret, setWebhook;
    cbn [webhook apiKey webhookDelivery auditLog]; rewrite Hst;
    cbn [webhook apiKey webhookDelivery auditLog].
  - reflexivity.
  - rewrite lookup_insert_eq.
    destruct (10 <=? _); cbn [run andThen]; unfold bind, ret;
      cbn [webhook apiKey webhookDelivery auditLog].
    + rewrite lookup_insert_eq. cbn [webhook apiKey webhookDelivery auditLog].
      rewrite insert_insert_eq. reflexivity.
    + reflexivity.
Qed.

Lemma filter_elem_of {A} (p : A -> bool) (l : list A) (x : A) :
  x ∈ List.filter p l <-> x ∈ l /\ p x = true.
Proof. rewrite !list_elem_of_In. apply filter_In. Qed.

Lemma filter_fst_NoDup {A B} (p : A * B -> bool) (l : list (A * B)) :
  NoDup l.*1 -> NoDup (List.filter p l).*1.
Proof.
  induction l as [|x l IH]; simpl; [trivial|].
  rewrite NoDup_cons. intros [Hx Hl].
  destruct (p x); [|auto].
  simpl. apply NoDup_cons. split; [|auto].
  intros Hin. apply Hx.
  apply list_elem_of_fmap in Hin as (y & -> & Hy).
  apply filter_elem_of in Hy as [Hy _].
  apply list_elem_of_fmap. eauto.
Qed.

Lemma matching_NoDup (organizationId : string) (event : WebhookEvent) (db : Db) :
  NoDup (matching organizationId event db).*1.
Proof. apply filter_fst_NoDup, NoDup_fst_map_to_list. Qed.

Lemma elem_of_matching (organizationId : string) (event : WebhookEvent) (db : Db)
    (id : string) (w : Webhook.t) :
  (id, w) ∈ matching organizationId event db
  <-> webhook db !! id = Some w /\ subscribed organizationId event w = true.
Proof.
  unfold matching. rewrite filter_elem_of, elem_of_map_to_list. reflexivity.
Qed.

Lemma mapM_deliver {env : Env} (event : WebhookEvent) (payload : WebhookPayload.t) (now : Z)
    (ws : list (string * Webhook.t)) :
  forall db : Db,
    NoDup ws.*1 ->
    (forall id w, (id, w) ∈ ws -> webhook db !! id = Some w) ->
    mapM (deliver event payload (JSON_stringify payload) now) ws db
    = Ok (deliveryOutcome event payload <$> ws,
          {| apiKey := apiKey db;
             webhook := dispatchedWebhooks event payload now ws (webhook db);
             webhookDelivery :=
               (webhookDelivery db ++ (deliveryRecord event payload now <$> ws))%list;
             auditLog := auditLog db |}).
Proof.
  unfold dispatchedWebhooks.
  induction ws as [|[id w] ws IH]; intros db Hnd Hin.
  - simpl. unfold ret. rewrite fmap_empty, (left_id_L ∅ (∪)), app_nil_r.
    now destruct db.
  - simpl in Hnd. apply NoDup_cons in Hnd as [Hid Hnd].
    cbn [mapM]. unfold bind at 1.
    rewrite (deliver_eq event payload now id w w db)
      by (apply Hin; apply list_elem_of_here).
    unfold bind at 1. rewrite IH; [| exact Hnd |].
    + unfold ret. cbn [webhook apiKey webhookDelivery auditLog fmap list_fmap].
      do 3 f_equal.
      * fold (deliveredRow event payload now w).
        change (list_to_map ((id, w) :: ws))
          with (<[id := w]> (list_to_map ws : gmap string Webhook.t)).
        rewrite fmap_insert, <- insert_union_l, <- insert_union_r; [reflexivity|].
        rewrite lookup_fmap, not_elem_of_list_to_map_1; [reflexivity | exact Hid].
      * rewrite <- app_assoc. reflexivity.
    + intros id' w' Hin'. cbn [webhook].
      rewrite lookup_insert_ne.
      * apply Hin. now apply list_elem_of_further.
      * intros ->. apply Hid. apply list_elem_of_fmap. now exists (id', w').
Qed.

(** What a dispatch does, in one equation. *)
Lemma triggerWebhooks_eq {env : Env} (organizationId : string) (event : WebhookEvent)
    (data : Json) (now : Z) (db : Db) :
  triggerWebhooks organizationId event data now db
  = match matching organizationId event db with
    | [] => Ok (None, db)
    | ws =>
        let payload := dispatchPayload organizationId event data now in
        Ok (Some (deliveryOutcome event payload <$> ws),
            {| apiKey := apiKey db;
               webhook := dispatchedWebhooks event payload now ws (webhook db);
               webhookDelivery :=
                 (webhookDelivery db ++ (deliveryRecord event payload now <$> ws))%list;
               auditLog := auditLog db |})
    end.
Proof.
  unfold triggerWebhooks, bind at 1. unfold webhook_findMany.
  fold (matching organizationId event db).
  pose proof (matching_NoDup organizationId event db) as Hnd.
  pose proof (fun id w => proj1 (elem_of_matching organizationId event db id w)) as Hin.
  destruct (matching organizationId event db) as [|x ws] eqn:E; [reflexivity|].
  cbn [length Nat.eqb]. unfold bind.
  fold (dispatchPayload organizationId event data now).
  rewrite mapM_deliver; [reflexivity | exact Hnd |].
  intros id w H. now apply Hin.
Qed.

(** The stored row of every subscription after a dispatch. *)
Lemma dispatchedWebhooks_lookup {env : Env} (organizationId : string) (event : WebhookEvent)
    (payload : WebhookPayload.t) (now : Z) (db : Db) (id : string) :
  dispatchedWebhooks event payload now (matching organizationId event db) (webhook db)
    !! id
  = (fun w => if subscribed organizationId event w
              then deliveredRow event payload now w else w) <$> webhook db !! id.
Proof.
  unfold dispatchedWebhooks. rewrite lookup_union, lookup_fmap.
  pose proof (matching_NoDup organizationId event db) as Hnd.
  destruct (list_to_map (matching organizationId event db) !! id) as [w'|] eqn:E.
  - apply elem_of_list_to_map_2 in E. apply elem_of_matching in E as [-> Hs].
    simpl. now rewrite Hs.
  - destruct (webhook db !! id) as [w|] eqn:Hw; [|reflexivity].
    simpl. destruct (subscribed organizationId event w) eqn:Hs; [|reflexivity].
    assert ((id, w) ∈ matching organizationId event db) as Hin
        by now apply elem_of_matching.
    apply (elem_of_list_to_map_1 _ _ _ Hnd) in Hin. congruence.
Qed.

Lemma deliverySucceeded_iff {env : Env} (event : WebhookEvent) (payload : WebhookPayload.t)
    (w : Webhook.t) :
  deliverySucceeded event payload w = true
  <-> exists status text,
        deliveryResult event payload w = Responded status text
        /\ 200 <= status <= 299.
Proof.
  unfold deliverySucceeded.
  destruct (deliveryResult event payload w) as [status text|err]; simpl.
  - unfold response_ok. rewrite andb_true_iff, !Z.leb_le. split.
    + intros H. exists status, text. split; [reflexivity | lia].
    + intros (st & tx & Heq & H). injection Heq as <- <-. lia.
  - split; [discriminate|]. intros (st & tx & Heq & _). discriminate.
Qed.

Lemma deliveredRow_success {env : Env} (event : WebhookEvent) (payload : WebhookPayload.t)
    (now : Z) (w : Webhook.t) :
  deliverySucceeded event payload w = true ->
  deliveredRow event payload now w
  = WebhookUpdate.apply (statsUpdate (now + deliveryElapsed event payload w) true) w.
Proof.
  unfold deliverySucceeded, deliveredRow, afterDelivery. intros ->. reflexivity.
Qed.

Lemma deliveredRow_failure {env : Env} (event : WebhookEvent) (payload : WebhookPayload.t)
    (now : Z) (w : Webhook.t) :
  deliverySucceeded event payload w = false ->
  deliveredRow event payload now w
  = let updated :=
      WebhookUpdate.apply (statsUpdate (now + deliveryElapsed event payload w) false) w in
    if 10 <=? Webhook.failureCount w + 1
    then WebhookUpdate.apply disableUpdate updated
    else updated.
Proof.
  unfold deliverySucceeded, deliveredRow, afterDelivery. intros ->. reflexivity.
Qed.

(** A delivered subscription yields a dispatch that returns outcomes. *)
Lemma triggerWebhooks_delivered {env : Env} (organizationId : string) (event : WebhookEvent)
    (data : Json) (now : Z) (db : Db) (id : string) (w : Webhook.t) :
  webhook db !! id = Some w ->
  subscribed organizationId event w = true ->
  exists outcomes db',
    triggerWebhooks organizationId event data now db = Ok (Some outcomes, db')
    /\ webhook db' !! id
       = Some (deliveredRow event (dispatchPayload organizationId event data now) now w).
Proof.
  intros Hw Hs. rewrite triggerWebhooks_eq.
  pose proof (dispatchedWebhooks_lookup organizationId event
                (dispatchPayload organizationId event data now) now db id) as Hl.
  rewrite Hw in Hl. simpl in Hl. rewrite Hs in Hl.
  assert ((id, w) ∈ matching organizationId event db) as Hin
      by now apply elem_of_matching.
  destruct (matching organizationId event db) as [|x ws]; [inversion Hin|].
  do 2 eexists. split; [reflexivity | exact Hl].
Qed.

(** C4: every subscription a dispatch delivers to ends with a failure
    counter of 0 when its delivery succeeded and of one more than before
    when it failed, and with its last-delivery time set in both cases; after
    a success the active flag is what it was (so a subscription at failure
    count 3 that receives a success ends at 0, still active). *)
Theorem triggerWebhooks_failure_counter {env : Env} (organizationId : string)
    (event : WebhookEvent) (data : Json) (now : Z) (db : Db)
    (id : string) (w : Webhook.t) :
  webhook db !! id = Some w ->
  subscribed organizationId event w = true ->
  let payload := dispatchPayload organizationId event data now in
  exists outcomes db' w',
    triggerWebhooks organizationId event data now db = Ok (Some outcomes, db')
    /\ webhook db' !! id = Some w'
    /\ Webhook.lastDeliveryAt w' = Some (now + deliveryElapsed event payload w)
    /\ (deliverySucceeded event payload w = true ->
        Webhook.failureCount w' = 0 /\ Webhook.isActive w' = Webhook.isActive w)
    /\ (deliverySucceeded event payload w = false ->
        Webhook.failureCount w' = Webhook.failureCount w + 1).
Proof.
  intros Hw Hs payload.
  destruct (triggerWebhooks_delivered organizationId event data now db id w Hw Hs)
    as (outcomes & db' & Hrun & Hrow).
  exists outcomes, db', (deliveredRow event payload now w).
  split; [exact Hrun|]. split; [exact Hrow|].
  destruct (deliverySucceeded event payload w) eqn:E.
  - rewrite deliveredRow_success by exact E. simpl.
    repeat split; try reflexivity. discriminate.
  - rewrite deliveredRow_failure by exact E. cbv zeta.
    destruct (10 <=? Webhook.failureCount w + 1); simpl;
      (split; [reflexivity|]); (split; [discriminate|]); reflexivity.
Qed.

Lemma subscribed_active (organizationId : string) (event : WebhookEvent)
    (w : Webhook.t) :
  subscribed organizationId event w = true -> Webhook.isActive w = true.
Proof. unfold subscribed. rewrite !andb_true_iff. tauto. Qed.

(** A dispatcher operation keeps every row, and changes a row only by
    delivering to it while it is active. *)
Lemma dispatcherStep_row {env : Env} (db db' : Db) (id : string) (w : Webhook.t) :
  dispatcherStep db db' ->
  webhook db !! id = Some w ->
  exists w',
    webhook db' !! id = Some w'
    /\ (w' = w
        \/ (Webhook.isActive w = true
            /\ exists event payload now, w' = deliveredRow event payload now w)).
Proof.
  intros Hstep Hw. destruct Hstep as
    [organizationId event data now db r db' H
    |organizationId url events rnd newId db r db' H
    |webhookId now db r db' H].
  - rewrite triggerWebhooks_eq in H.
    pose proof (dispatchedWebhooks_lookup organizationId event
                  (dispatchPayload organizationId event data now) now db id) as Hl.
    rewrite Hw in Hl. simpl in Hl.
    destruct (matching organizationId event db) as [|x ws] eqn:E.
    + injection H as _ <-. eauto.
    + cbv zeta in H. injection H as _ <-. cbn [webhook].
      eexists. split; [exact Hl|].
      destruct (subscribed organizationId event w) eqn:Hs; [|now left].
      right. split; [eapply subscribed_active; eassumption | eauto].
  - unfold createWebhook, webhook_create, newWebhookRow in H.
    destruct (webhook db !! newId) eqn:En; [discriminate|].
    injection H as _ <-. cbn [webhook setWebhook].
    exists w. split; [|now left].
    rewrite lookup_insert_ne; [exact Hw | congruence].
  - exists w. split; [|now left].
    unfold testWebhook, bind, webhook_findUnique in H.
    destruct (webhook db !! webhookId); [|discriminate].
    destruct (fetch _) as [[status text|err] elapsed];
      unfold ret in H; injection H as _ <-; exact Hw.
Qed.

(** The stores a failed delivery goes through, call by call: the
    delivery row is appended; the stats update increments the counter and
    sets the delivery time; the subscription is read again; and, when the
    counter it reads is at least 10, a further update clears the active
    flag. *)
Lemma deliverTask_stores_failure {env : Env} (event : WebhookEvent)
    (payload : WebhookPayload.t) (now : Z) (id : string) (w : Webhook.t) (db : Db) :
  webhook db !! id = Some w ->
  deliverySucceeded event payload w = false ->
  let recorded :=
    {| apiKey := apiKey db;
       webhook := webhook db;
       webhookDelivery :=
         (webhookDelivery db ++ [deliveryRecord event payload now (id, w)])%list;
       auditLog := auditLog db |} in
  let w1 := WebhookUpdate.apply
              (statsUpdate (now + deliveryElapsed event payload w) false) w in
  let counted := setWebhook (<[id := w1]> (webhook db)) recorded in
  let disabled :=
    setWebhook (<[id := WebhookUpdate.apply disableUpdate w1]> (webhook db)) recorded in
  stores (deliverTask event payload (JSON_stringify payload) now (id, w)) db
  = (if 10 <=? Webhook.failureCount w1
     then [recorded; counted; counted; disabled]
     else [recorded; counted; counted])
  /\ deliver event payload (JSON_stringify payload) now (id, w) db
     = Ok (deliveryOutcome event payload (id, w),
           if 10 <=? Webhook.failureCount w1 then disabled else counted).
Proof.
  intros Hst Hfail. cbv zeta. split.
  - unfold deliverySucceeded, deliveryResult in Hfail.
    unfold deliverTask, deliveryRecord, deliveryResult, deliveryElapsed.
    cbn [fst snd] in *.
    destruct (fetch (deliveryRequest event payload (JSON_stringify payload) w))
      as [result elapsed].
    cbn [fst snd] in *. rewrite Hfail.
    unfold webhookDelivery_create, webhook_update, webhook_findUnique, setWebhook.
    cbn [negb stores andThen webhook apiKey webhookDelivery auditLog].
    rewrite Hst. cbn [stores andThen webhook apiKey webhookDelivery auditLog].
    rewrite lookup_insert_eq.
    cbn [WebhookUpdate.apply statsUpdate Webhook.failureCount applyIntUpdate
           WebhookUpdate.failureCount].
    destruct (10 <=? _);
      cbn [stores andThen webhook apiKey webhookDelivery auditLog]; [|reflexivity].
    rewrite lookup_insert_eq. cbn [stores webhook apiKey webhookDelivery auditLog].
    rewrite insert_insert_eq. reflexivity.
  - rewrite (deliver_eq event payload now id w w db Hst).
    unfold deliverySucceeded in Hfail. rewrite Hfail.
    unfold afterDelivery, setWebhook. cbn [negb andb apiKey webhookDelivery auditLog].
    destruct (10 <=? _); reflexivity.
Qed.

(** C3 (as the code has it): a failed delivery whose incremented counter
    is at least 10 leaves the subscription inactive at the end of the
    attempt, with the counter one higher (from 9: inactive, 10); across
    any dispatcher operation ([triggerWebhooks], [createWebhook],
    [testWebhook]) an inactive subscription stays inactive, and an active
    one becomes inactive only with a failure counter of at least 10; and
    the attempt does this in two updates: the store calls of a failed
    delivery leave, in order, a store with the delivery row added and the
    subscription as it was, a store in which the counter is one higher, the
    delivery time is set and the active flag is as it was, the same store
    again (the subscription is read), and, only when the counter read is at
    least 10, a last store in which the flag is cleared. *)
Theorem dispatcher_deactivation {env : Env} :
  (forall organizationId event data now db id w,
      webhook db !! id = Some w ->
      subscribed organizationId event w = true ->
      deliverySucceeded event (dispatchPayload organizationId event data now) w = false ->
      10 <= Webhook.failureCount w + 1 ->
      exists outcomes db' w',
        triggerWebhooks organizationId event data now db = Ok (Some outcomes, db')
        /\ webhook db' !! id = Some w'
        /\ Webhook.isActive w' = false
        /\ Webhook.failureCount w' = Webhook.failureCount w + 1)
  /\ (forall db db' id w,
        dispatcherStep db db' ->
        webhook db !! id = Some w ->
        exists w',
          webhook db' !! id = Some w'
          /\ (Webhook.isActive w = false -> Webhook.isActive w' = false)
          /\ (Webhook.isActive w = true -> Webhook.isActive w' = false ->
              10 <= Webhook.failureCount w'))
  /\ (forall event payload now db id w,
        webhook db !! id = Some w ->
        deliverySucceeded event payload w = false ->
        exists recorded counted w1 o,
          webhook recorded !! id = Some w
          /\ webhook counted !! id = Some w1
          /\ Webhook.failureCount w1 = Webhook.failureCount w + 1
          /\ Webhook.lastDeliveryAt w1 = Some (now + deliveryElapsed event payload w)
          /\ Webhook.isActive w1 = Webhook.isActive w
          /\ ((Webhook.failureCount w + 1 < 10
               /\ stores (deliverTask event payload (JSON_stringify payload) now (id, w)) db
                  = [recorded; counted; counted]
               /\ deliver event payload (JSON_stringify payload) now (id, w) db
                  = Ok (o, counted))
              \/ (10 <= Webhook.failureCount w + 1
                  /\ exists disabled w2,
                       stores (deliverTask event payload (JSON_stringify payload) now
                                 (id, w)) db
                       = [recorded; counted; counted; disabled]
                       /\ deliver event payload (JSON_stringify payload) now (id, w) db
                          = Ok (o, disabled)
                       /\ webhook disabled !! id = Some w2
                       /\ Webhook.isActive w2 = false
                       /\ Webhook.failureCount w2 = Webhook.failureCount w + 1))).
Proof.
  split; [|split].
  - intros organizationId event data now db id w Hw Hs Hfail Hten.
    destruct (triggerWebhooks_delivered organizationId event data now db id w Hw Hs)
      as (outcomes & db' & Hrun & Hrow).
    do 3 eexists. split; [exact Hrun|]. split; [exact Hrow|].
    rewrite deliveredRow_failure by exact Hfail. cbv zeta.
    apply Z.leb_le in Hten. rewrite Hten. simpl. split; reflexivity.
  - intros db db' id w Hstep Hw.
    destruct (dispatcherStep_row db db' id w Hstep Hw)
      as (w' & Hw' & [->|(Hact & event & payload & now & ->)]).
    + exists w. split; [exact Hw'|]. split; [tauto | congruence].
    + eexists. split; [exact Hw'|]. split; [congruence|].
      intros _. destruct (deliverySucceeded event payload w) eqn:E.
      * rewrite deliveredRow_success by exact E. simpl. congruence.
      * rewrite deliveredRow_failure by exact E. cbv zeta.
        destruct (Z.leb_spec 10 (Webhook.failureCount w + 1)); simpl.
        -- intros _. lia.
        -- congruence.
  - intros event payload now db id w Hw Hfail.
    destruct (deliverTask_stores_failure event payload now id w db Hw Hfail)
      as [Hstores Hrun].
    cbv zeta in Hstores, Hrun.
    set (recorded :=
           {| apiKey := apiKey db;
              webhook := webhook db;
              webhookDelivery :=
                (webhookDelivery db ++ [deliveryRecord event payload now (id, w)])%list;
              auditLog := auditLog db |}) in *.
    set (w1 := WebhookUpdate.apply
                 (statsUpdate (now + deliveryElapsed event payload w) false) w) in *.
    exists recorded, (setWebhook (<[id := w1]> (webhook db)) recorded), w1,
      (deliveryOutcome event payload (id, w)).
    split; [exact Hw|].
    split; [cbn [webhook setWebhook]; apply lookup_insert_eq|].
    split; [reflexivity|]. split; [reflexivity|]. split; [reflexivity|].
    change (Webhook.failureCount w1) with (Webhook.failureCount w + 1) in Hstores, Hrun.
    destruct (Z.leb_spec 10 (Webhook.failureCount w + 1)) as [Hten|Hlt].
    + right. split; [exact Hten|].
      exists (setWebhook (<[id := WebhookUpdate.apply disableUpdate w1]> (webhook db))
                recorded), (WebhookUpdate.apply disableUpdate w1).
      split; [exact Hstores|]. split; [exact Hrun|].
      split; [cbn [webhook setWebhook]; apply lookup_insert_eq|].
      split; reflexivity.
    + left. split; [exact Hlt|]. split; [exact Hstores | exact Hrun].
Qed.

(** C5 (as the code has it): with no active subscription of the tenant
    subscribed to the event, [triggerWebhooks] returns [undefined] (no
    outcome list at all), and leaves the store, so also its delivery rows,
    as they are. *)
Theorem triggerWebhooks_no_subscribers {env : Env} (organizationId : string)
    (event : WebhookEvent) (data : Json) (now : Z) (db : Db) :
  (forall id w, webhook db !! id = Some w ->
                subscribed organizationId event w = false) ->
  triggerWebhooks organizationId event data now db = Ok (None, db).
Proof.
  intros Hnone. rewrite triggerWebhooks_eq.
  destruct (matching organizationId event db) as [|[id w] ws] eqn:E; [reflexivity|].
  assert ((id, w) ∈ matching organizationId event db) as Hin
      by (rewrite E; apply list_elem_of_here).
  apply elem_of_matching in Hin as [Hw Hs].
  rewrite (Hnone id w Hw) in Hs. discriminate.
Qed.

(** C7: a dispatch with at least one matching subscription returns
    normally, with one outcome per matching subscription (in the order of
    the query, carrying the subscription id); it appends exactly one
    delivery row per subscription, with the same success flag; an outcome
    is a success iff the delivery got a response with a 2xx status, and a
    failed outcome (any other status, or a rejected request) carries an
    error text. *)
Theorem triggerWebhooks_outcomes {env : Env} (organizationId : string)
    (event : WebhookEvent) (data : Json) (now : Z) (db : Db) :
  let ws := matching organizationId event db in
  let payload := dispatchPayload organizationId event data now in
  (1 <= length ws)%nat ->
  exists outcomes db' created,
    triggerWebhooks organizationId event data now db = Ok (Some outcomes, db')
    /\ length outcomes = length ws
    /\ webhookDelivery db' = (webhookDelivery db ++ created)%list
    /\ length created = length ws
    /\ Outcome.webhookId <$> outcomes = ws.*1
    /\ WebhookDelivery.webhookId <$> created = ws.*1
    /\ WebhookDelivery.success <$> created = Outcome.success <$> outcomes
    /\ Forall2 (fun o w =>
         (Outcome.success o = true
          <-> exists status text,
                deliveryResult event payload w.2 = Responded status text
                /\ 200 <= status <= 299)
         /\ (Outcome.success o = true -> Outcome.error o = None)
         /\ (Outcome.success o = false -> exists e, Outcome.error o = Some e))
        outcomes ws.
Proof.
  intros ws payload Hlen. rewrite triggerWebhooks_eq. fold ws. fold payload.
  destruct ws as [|x ws']; [simpl in Hlen; lia|]. cbv zeta.
  do 3 eexists. split; [reflexivity|]. cbn [webhookDelivery].
  split; [now rewrite length_fmap|].
  split; [reflexivity|].
  split; [now rewrite length_fmap|].
  split; [now rewrite <- list_fmap_compose|].
  split; [now rewrite <- list_fmap_compose|].
  split; [now rewrite <- !list_fmap_compose|].
  apply Forall2_fmap_l, Forall_Forall2_diag, Forall_forall.
  intros [id w] _. unfold compose, deliveryOutcome. cbn [fst snd Outcome.success Outcome.error].
  split; [apply deliverySucceeded_iff|].
  destruct (deliveryResult event payload w) as [status text|err]; simpl.
  - destruct (response_ok status); simpl; split; eauto; discriminate.
  - split; [discriminate | eauto].
Qed.

(** ** The credential gateway *)

Lemma find_unique {A} (p : A -> bool) (l : list A) (x : A) :
  x ∈ l -> p x = true -> (forall y, y ∈ l -> p y = true -> y = x) ->
  List.find p l = Some x.
Proof.
  induction l as [|a l IH]; intros Hin Hp Huniq; [inversion Hin|].
  simpl. destruct (p a) eqn:Ea.
  - f_equal. apply Huniq; [apply list_elem_of_here | exact Ea].
  - apply IH; [| exact Hp |].
    + apply elem_of_cons in Hin as [->|Hin]; [congruence | exact Hin].
    + intros y Hy. apply Huniq. now apply list_elem_of_further.
Qed.

Lemma credentialOf_stored {env : Env} (key : string) (db : Db) (id : string) (k : ApiKey.t) :
  credentialOf key db = Some (id, k) ->
  apiKey db !! id = Some k /\ ApiKey.key k = digestHex (sha256 key).
Proof.
  unfold credentialOf. intros H. apply find_some in H as [Hin Heq].
  apply list_elem_of_In, elem_of_map_to_list in Hin.
  apply String.eqb_eq in Heq. auto.
Qed.

(** What a validation does, in one equation. *)
Lemma validateApiKey_eq {env : Env} (key : string) (now : Z) (db : Db) :
  validateApiKey key now db
  = if negb (Js.startsWith key API_KEY_PREFIX) then Ok (None, db)
    else match credentialOf key db with
         | None => Ok (None, db)
         | Some (id, k) =>
             if negb (ApiKey.isActive k) then Ok (None, db)
             else if expired k now then Ok (None, db)
             else Ok (Some {| Validated.apiKey := (id, k);
                              Validated.organization := ApiKey.organizationId k |},
                      setApiKey (<[id := ApiKeyUpdate.apply (usageUpdate now) k]>
                                   (apiKey db)) db)
         end.
Proof.
  unfold validateApiKey.
  destruct (negb (Js.startsWith key API_KEY_PREFIX)); [reflexivity|].
  unfold bind at 1. unfold apiKey_findUnique_key. fold (credentialOf key db).
  destruct (credentialOf key db) as [[id k]|] eqn:E; [|reflexivity].
  cbn [fst snd].
  destruct (negb (ApiKey.isActive k)); [reflexivity|].
  destruct (expired k now); [reflexivity|].
  apply credentialOf_stored in E as [Hst _].
  unfold bind, apiKey_update. rewrite Hst. reflexivity.
Qed.

(** C8: [validateApiKey] never throws. It answers [null] (the invalid
    credential result) and leaves the store as it is when no stored
    credential has the hash of the raw key, when that credential is
    inactive, or when its expiry is before now; it succeeds for an active,
    unexpired credential with the key prefix, and a success returns that
    credential (its tenant id and scopes) and stores it with the usage
    counter one higher and the last-used time set to now, nothing else
    changed. *)
Theorem validateApiKey_invalid_or_used {env : Env} (key : string) (now : Z) (db : Db) :
  exists r db',
    validateApiKey key now db = Ok (r, db')
    /\ (r = None -> db' = db)
    /\ (credentialOf key db = None -> r = None)
    /\ (forall id k, credentialOf key db = Some (id, k) ->
                     ApiKey.isActive k = false -> r = None)
    /\ (forall id k e, credentialOf key db = Some (id, k) ->
                       ApiKey.expiresAt k = Some e -> e < now -> r = None)
    /\ (forall id k, Js.startsWith key API_KEY_PREFIX = true ->
                     credentialOf key db = Some (id, k) ->
                     ApiKey.isActive k = true ->
                     (forall e, ApiKey.expiresAt k = Some e -> now <= e) ->
                     exists v, r = Some v)
    /\ (forall v, r = Some v ->
         exists id k k',
           credentialOf key db = Some (id, k)
           /\ apiKey db !! id = Some k
           /\ Validated.apiKey v = (id, k)
           /\ Validated.organization v = ApiKey.organizationId k
           /\ apiKey db' = <[id := k']> (apiKey db)
           /\ ApiKey.usageCount k' = ApiKey.usageCount k + 1
           /\ ApiKey.lastUsedAt k' = Some now
           /\ ApiKey.organizationId k' = ApiKey.organizationId k
           /\ ApiKey.scopes k' = ApiKey.scopes k
           /\ ApiKey.key k' = ApiKey.key k
           /\ ApiKey.isActive k' = ApiKey.isActive k
           /\ ApiKey.expiresAt k' = ApiKey.expiresAt k
           /\ ApiKey.rateLimit k' = ApiKey.rateLimit k
           /\ webhook db' = webhook db
           /\ webhookDelivery db' = webhookDelivery db
           /\ auditLog db' = auditLog db).
Proof.
  rewrite validateApiKey_eq.
  destruct (Js.startsWith key API_KEY_PREFIX); cbn [negb];
    [| exists None, db; split_all; intros; solve [reflexivity | discriminate] ].
  destruct (credentialOf key db) as [[id k]|] eqn:E;
    [| exists None, db; split_all; intros; solve [reflexivity | discriminate] ].
  destruct (ApiKey.isActive k) eqn:Ha; cbn [negb];
    [| exists None, db; split_all; intros;
       solve [reflexivity | discriminate | congruence] ].
  destruct (expired k now) eqn:Hx.
  - exists None, db. split_all; intros; try solve [reflexivity | discriminate].
    match goal with
    | Hc : Some _ = Some _, Hexp : forall e, _ -> _ |- _ =>
        injection Hc as <- <-; unfold expired in Hx;
        destruct (ApiKey.expiresAt k) as [e|]; [|discriminate];
        apply Z.ltb_lt in Hx; specialize (Hexp e eq_refl); lia
    end.
  - eexists (Some _), _. split_all; intros; try solve [reflexivity | discriminate].
    + match goal with Hc : Some _ = Some _ |- _ => injection Hc as <- <- end.
      congruence.
    + match goal with Hc : Some _ = Some _ |- _ => injection Hc as <- <- end.
      unfold expired in Hx.
      match goal with He : ApiKey.expiresAt k = Some _ |- _ => rewrite He in Hx end.
      apply Z.ltb_ge in Hx. lia.
    + eauto.
    + match goal with Hv : Some _ = Some _ |- _ => injection Hv as <- end.
      destruct (credentialOf_stored key db id k E) as [Hst _].
      exists id, k, (ApiKeyUpdate.apply (usageUpdate now) k).
      split_all; first [reflexivity | exact Hst].
Qed.

(** A successful issuance stored a row with the hash of the returned key,
    active, with the given tenant, scopes and expiry, under a hash no other
    row has. *)
Lemma createApiKey_stored {env : Env} (organizationId name : string) (scopes : list string)
    (createdBy : string) (expiresAt : option Z) (rnd newId : string)
    (hdrs : Headers) (now : Z) (db db1 : Db) (created : string * ApiKey.t) :
  createApiKey organizationId name scopes createdBy expiresAt rnd newId hdrs now db
  = Ok (created, db1) ->
  exists row,
    created.1 = newId
    /\ ApiKey.key created.2 = API_KEY_PREFIX +:+ rnd
    /\ apiKey db1 = <[newId := row]> (apiKey db)
    /\ ApiKey.key row = digestHex (sha256 (API_KEY_PREFIX +:+ rnd))
    /\ ApiKey.organizationId row = organizationId
    /\ ApiKey.scopes row = scopes
    /\ ApiKey.expiresAt row = expiresAt
    /\ ApiKey.isActive row = true
    /\ (forall i r, apiKey db !! i = Some r -> ApiKey.key r <> ApiKey.key row)
    /\ exists l, auditLog db1 = (auditLog db ++ [l])%list
                 /\ AuditLog.action l = "api_key.created".
Proof.
  unfold createApiKey, generateApiKey, newApiKeyRow. cbv zeta.
  unfold bind at 1. unfold apiKey_create.
  destruct (apiKey db !! newId) eqn:En; [discriminate|].
  cbn [ApiKey.key].
  destruct (existsb _ _) eqn:Ex; [discriminate|].
  unfold bind, createAuditLog, auditLog_create, ret, setApiKey.
  cbn [fst snd apiKey webhook webhookDelivery auditLog].
  intros H. injection H as <- <-.
  cbn [fst snd apiKey webhook webhookDelivery auditLog ApiKey.key ApiKey.organizationId
         ApiKey.scopes ApiKey.expiresAt ApiKey.isActive].
  eexists. split_all; try reflexivity.
  - intros i r Hi Heq. cbn [ApiKey.key] in Heq.
    assert (existsb (fun r0 : string * ApiKey.t =>
                       String.eqb (ApiKey.key r0.2)
                         (digestHex (sha256 (API_KEY_PREFIX +:+ rnd))))
              (map_to_list (apiKey db)) = true) as Hex; [|congruence].
    apply existsb_exists. exists (i, r). split.
    + apply list_elem_of_In, elem_of_map_to_list. exact Hi.
    + apply String.eqb_eq. exact Heq.
  - eexists. split; reflexivity.
Qed.

(** C9: a credential issued without an expiry (or with one that has not
    passed when it is used) authenticates with the raw key returned at
    issuance: [validateApiKey] succeeds and returns the tenant id and the
    scope list given at issuance. *)
Theorem createApiKey_then_validateApiKey {env : Env} (organizationId name : string)
    (scopes : list string) (createdBy : string) (expiresAt : option Z)
    (rnd newId : string) (hdrs : Headers) (now later : Z) (db db1 : Db)
    (created : string * ApiKey.t) :
  name <> "" -> scopes <> [] ->
  (forall e, expiresAt = Some e -> later <= e) ->
  createApiKey organizationId name scopes createdBy expiresAt rnd newId hdrs now db
  = Ok (created, db1) ->
  exists v db2,
    validateApiKey (ApiKey.key created.2) later db1 = Ok (Some v, db2)
    /\ Validated.organization v = organizationId
    /\ ApiKey.organizationId (Validated.apiKey v).2 = organizationId
    /\ ApiKey.scopes (Validated.apiKey v).2 = scopes.
Proof.
  intros _ _ Hexp Hcreate.
  destruct (createApiKey_stored _ _ _ _ _ _ _ _ _ _ _ _ Hcreate)
    as (row & _ & Hkey & Hdb & Hhash & Horg & Hscopes & Hexpiry & Hact & Hfresh & _).
  rewrite Hkey, validateApiKey_eq.
  unfold Js.startsWith. rewrite prefix_app. cbn [negb].
  assert (credentialOf (API_KEY_PREFIX +:+ rnd) db1 = Some (newId, row)) as ->.
  { unfold credentialOf. apply find_unique.
    - apply elem_of_map_to_list. rewrite Hdb. apply lookup_insert_eq.
    - apply String.eqb_eq. exact Hhash.
    - intros [i r] Hin Heq. apply elem_of_map_to_list in Hin.
      apply String.eqb_eq in Heq. cbn in Heq. rewrite Hdb in Hin.
      destruct (decide (i = newId)) as [->|Hne].
      + rewrite lookup_insert_eq in Hin. congruence.
      + rewrite lookup_insert_ne in Hin by congruence.
        exfalso. apply (Hfresh i r Hin). congruence. }
  rewrite Hact. cbn [negb].
  assert (expired row later = false) as ->.
  { unfold expired. rewrite Hexpiry. destruct expiresAt as [e|]; [|reflexivity].
    apply Z.ltb_ge. now apply Hexp. }
  do 2 eexists. split; [reflexivity|]. cbn. auto.
Qed.

(** *** No usage is ever logged *)

Lemma validateApiKey_auditLog {env : Env} (key : string) (now : Z) (db db' : Db)
    (r : option Validated.t) :
  validateApiKey key now db = Ok (r, db') -> auditLog db' = auditLog db.
Proof.
  rewrite validateApiKey_eq. intros H.
  repeat match type of H with
         | (if ?c then _ else _) = _ => destruct c
         | match ?c with _ => _ end = _ => destruct c as [[? ?]|]
         end;
    injection H as _ <-; reflexivity.
Qed.

Lemma gatewayStep_noUsageLogged {env : Env} (db db' : Db) :
  gatewayStep db db' -> noUsageLogged db -> noUsageLogged db'.
Proof.
  unfold noUsageLogged.
  intros [key now d r d' H
         |hdrs now d r d' H
         |organizationId name scopes createdBy expiresAt rnd newId hdrs now d r d' H
         |apiKeyId organizationId revokedBy hdrs now d r d' H] Hinv.
  - now rewrite (validateApiKey_auditLog _ _ _ _ _ H).
  - unfold authenticateApiRequest in H.
    destruct (hdrs !! "authorization") as [authHeader|];
      [| injection H as _ <-; exact Hinv].
    destruct (negb (Js.startsWith authHeader "Bearer "));
      [injection H as _ <-; exact Hinv|].
    unfold bind at 1 in H.
    destruct (validateApiKey (Js.substringFrom 7 authHeader) now d)
      as [[[v|] d1]|e] eqn:Ev; [| |discriminate].
    + apply validateApiKey_auditLog in Ev.
      unfold bind in H. rewrite checkRateLimit_eq in H.
      destruct (negb _); injection H as _ <-; now rewrite Ev.
    + apply validateApiKey_auditLog in Ev.
      injection H as _ <-. now rewrite Ev.
  - destruct (createApiKey_stored _ _ _ _ _ _ _ _ _ _ _ _ H)
      as (_ & _ & _ & _ & _ & _ & _ & _ & _ & _ & l & -> & Hl).
    apply Forall_app. split; [exact Hinv|].
    apply Forall_singleton. rewrite Hl. discriminate.
  - unfold revokeApiKey in H. unfold bind at 1 in H.
    unfold apiKey_update_in_org in H.
    destruct (apiKey d !! apiKeyId) as [k|]; [|discriminate].
    destruct (String.eqb (ApiKey.organizationId k) organizationId); [|discriminate].
    unfold bind, createAuditLog, auditLog_create, ret in H. cbn in H.
    injection H as _ <-. cbn.
    apply Forall_app. split; [exact Hinv|].
    apply Forall_singleton. cbn. discriminate.
Qed.

Lemma reachable_noUsageLogged {env : Env} (db0 db : Db) :
  noUsageLogged db0 -> rtc gatewayStep db0 db -> noUsageLogged db.
Proof.
  intros H0 Hreach. induction Hreach as [|x y z Hstep _ IH]; [exact H0|].
  apply IH. eapply gatewayStep_noUsageLogged; eassumption.
Qed.

Lemma noUsageLogged_recentUsage (db : Db) (apiKeyId : string) (now : Z) :
  noUsageLogged db -> recentUsage apiKeyId now db = 0.
Proof.
  unfold noUsageLogged, recentUsage. intros H.
  induction H as [|l ls Hl _ IH]; [reflexivity|].
  simpl. unfold countedUsage at 1.
  apply String.eqb_neq in Hl. rewrite Hl. simpl. exact IH.
Qed.

Lemma noUsageLogged_checkRateLimit (db : Db) (apiKeyId : string) (rateLimit now : Z) :
  noUsageLogged db ->
  checkRateLimit apiKeyId rateLimit now db
  = Ok ({| RateLimit.allowed := 0 <? rateLimit;
           RateLimit.remaining := Z.max 0 rateLimit;
           RateLimit.resetAt := now - 60 * 60 * 1000 + 60 * 60 * 1000 |}, db).
Proof.
  intros H. rewrite checkRateLimit_eq, (noUsageLogged_recentUsage db apiKeyId now H).
  rewrite Z.sub_0_r. do 3 f_equal.
  destruct (Z.ltb_spec 0 rateLimit), (Z.ltb_spec 0 (Z.max 0 rateLimit)); lia || reflexivity.
Qed.

(** C2 (as the code has it): the gateway operations ([validateApiKey],
    [authenticateApiRequest], [createApiKey], [revokeApiKey]) never add an
    audit row with action [api_key.used]. So in every state they reach from
    a store without such rows, the counted usage is 0, [checkRateLimit]
    answers remaining = max(0, limit) (the limit itself when it is not
    negative) and allowed = (limit > 0), and [authenticateApiRequest]
    answers 429 only for a credential whose rate limit is not positive. *)
Theorem gateway_never_logs_usage {env : Env} (db0 db : Db) :
  noUsageLogged db0 ->
  rtc gatewayStep db0 db ->
  noUsageLogged db
  /\ (forall apiKeyId rateLimit now,
        recentUsage apiKeyId now db = 0
        /\ exists r,
             checkRateLimit apiKeyId rateLimit now db = Ok (r, db)
             /\ RateLimit.remaining r = Z.max 0 rateLimit
             /\ (0 <= rateLimit -> RateLimit.remaining r = rateLimit)
             /\ RateLimit.allowed r = (0 <? rateLimit))
  /\ (forall hdrs now e h db',
        authenticateApiRequest hdrs now db = Ok (AuthError e 429 h, db') ->
        exists authHeader id k,
          hdrs !! "authorization" = Some authHeader
          /\ credentialOf (Js.substringFrom 7 authHeader) db = Some (id, k)
          /\ ApiKey.rateLimit k <= 0).
Proof.
  intros H0 Hreach.
  pose proof (reachable_noUsageLogged db0 db H0 Hreach) as Hinv.
  split; [exact Hinv|]. split.
  - intros apiKeyId rateLimit now.
    split; [now apply noUsageLogged_recentUsage|].
    eexists. split; [now apply noUsageLogged_checkRateLimit|].
    cbn [RateLimit.remaining RateLimit.allowed]. split_all; [reflexivity | lia | reflexivity].
  - intros hdrs now e h db' H. unfold authenticateApiRequest in H.
    destruct (hdrs !! "authorization") as [authHeader|] eqn:Eh; [|discriminate].
    destruct (negb (Js.startsWith authHeader "Bearer ")); [discriminate|].
    unfold bind at 1 in H.
    destruct (validateApiKey (Js.substringFrom 7 authHeader) now db)
      as [[[v|] d1]|err] eqn:Ev; [| discriminate | discriminate].
    pose proof (validateApiKey_auditLog _ _ _ _ _ Ev) as Hlog.
    rewrite validateApiKey_eq in Ev.
    destruct (negb (Js.startsWith _ API_KEY_PREFIX)); [discriminate|].
    destruct (credentialOf (Js.substringFrom 7 authHeader) db) as [[id k]|] eqn:Ec;
      [|discriminate].
    destruct (negb (ApiKey.isActive k)); [discriminate|].
    destruct (expired k now); [discriminate|].
    injection Ev as <- <-. cbn [Validated.apiKey Validated.organization fst snd] in H.
    unfold bind in H. rewrite noUsageLogged_checkRateLimit in H.
    2:{ unfold noUsageLogged. cbn [auditLog setApiKey]. exact Hinv. }
    cbn [RateLimit.allowed] in H.
    destruct (Z.ltb_spec 0 (ApiKey.rateLimit k)); cbn [negb] in H; [discriminate|].
    exists authHeader, id, k. auto.
Qed.


(** * The properties on the sample stores *)

(** C2, on a store: after issuing a key in the empty store no usage is
    counted, and a check against the limit 1000 leaves all of it. *)
Lemma gateway_never_logs_usage_witness :
  noUsageLogged emptyDb
  /\ rtc (gatewayStep (env := sampleEnv)) emptyDb dbIssued
  /\ noUsageLogged dbIssued
  /\ recentUsage "key_1" 4000000 dbIssued = 0
  /\ exists r,
       checkRateLimit "key_1" 1000 4000000 dbIssued = Ok (r, dbIssued)
       /\ RateLimit.remaining r = 1000
       /\ RateLimit.allowed r = true.
Proof.
  assert (H0 : noUsageLogged emptyDb) by constructor.
  assert (Hr : rtc (gatewayStep (env := sampleEnv)) emptyDb dbIssued).
  { apply rtc_once.
    apply (step_createApiKey (env := sampleEnv) "org_1" "ci"
             ["cases.read"; "forms.*"] "user_1" None "c2FtcGxlLWtleQ" "key_1" ∅ 500
             emptyDb sampleIssued dbIssued).
    vm_compute. reflexivity. }
  destruct (gateway_never_logs_usage (env := sampleEnv) emptyDb dbIssued H0 Hr)
    as (Hinv & Hrl & _).
  destruct (Hrl "key_1" 1000 4000000) as (Hu & r & Hrun & _ & Hrem & Hall).
  split_all; try assumption.
  exists r. split_all; [exact Hrun | apply Hrem; lia | exact Hall].
Defined.

(** C2 as stated fails for a negative limit: in the empty store the check
    against the limit -1 leaves 0, not -1. *)
Lemma checkRateLimit_negative_limit_remaining :
  rtc (gatewayStep (env := sampleEnv)) emptyDb emptyDb
  /\ exists r,
       checkRateLimit "key_1" (-1) 4000000 emptyDb = Ok (r, emptyDb)
       /\ RateLimit.remaining r = 0
       /\ RateLimit.remaining r <> -1.
Proof.
  split; [apply rtc_refl|].
  eexists. split; [vm_compute; reflexivity|]. split; [reflexivity | discriminate].
Qed.

(** C3, on a store: subscriber B, at 9 failures, answers 500 and ends
    inactive with 10 failures. *)
Lemma dispatcher_deactivation_witness :
  webhook dbThree !! "wh_b" = Some (sampleWebhook "https://b.example/hook" 9 true)
  /\ exists outcomes db' w',
       triggerWebhooks (env := sampleEnv)
         "org_1" case_created JNull 1000 dbThree = Ok (Some outcomes, db')
       /\ webhook db' !! "wh_b" = Some w'
       /\ Webhook.isActive w' = false
       /\ Webhook.failureCount w' = 10.
Proof.
  assert (Hw : webhook dbThree !! "wh_b"
               = Some (sampleWebhook "https://b.example/hook" 9 true))
    by (vm_compute; reflexivity).
  split; [exact Hw|].
  destruct (proj1 (dispatcher_deactivation (env := sampleEnv))
              "org_1" case_created JNull 1000 dbThree "wh_b" _ Hw
              eq_refl eq_refl ltac:(simpl; lia))
    as (outcomes & db' & w' & Hrun & Hrow & Hact & Hcount).
  exists outcomes, db', w'. split_all; assumption.
Defined.

(** C3 as stated fails: in the delivery to subscriber B (9 failures so
    far, answering 500), the update that increments the counter to 10
    leaves a store in which B is still active; the flag is cleared by a
    later update of the same attempt, after the subscription was read
    again. *)
Lemma counter_update_keeps_subscription_active :
  exists recorded counted disabled o,
    stores (deliverTask (env := sampleEnv) case_created
              (dispatchPayload (env := sampleEnv) "org_1" case_created JNull 1000)
              (JSON_stringify (Env := sampleEnv)
                 (dispatchPayload (env := sampleEnv) "org_1" case_created JNull 1000))
              1000 ("wh_b", sampleWebhook "https://b.example/hook" 9 true))
      dbThree
    = [recorded; counted; counted; disabled]
    /\ deliver (env := sampleEnv) case_created
         (dispatchPayload (env := sampleEnv) "org_1" case_created JNull 1000)
         (JSON_stringify (Env := sampleEnv)
            (dispatchPayload (env := sampleEnv) "org_1" case_created JNull 1000))
         1000 ("wh_b", sampleWebhook "https://b.example/hook" 9 true) dbThree
       = Ok (o, disabled)
    /\ (Webhook.failureCount <$> webhook recorded !! "wh_b") = Some 9
    /\ (Webhook.failureCount <$> webhook counted !! "wh_b") = Some 10
    /\ (Webhook.isActive <$> webhook counted !! "wh_b") = Some true
    /\ (Webhook.failureCount <$> webhook disabled !! "wh_b") = Some 10
    /\ (Webhook.isActive <$> webhook disabled !! "wh_b") = Some false.
Proof.
  do 4 eexists. split; [vm_compute; reflexivity|].
  split; [vm_compute; reflexivity|].
  split_all; vm_compute; reflexivity.
Qed.

(** C4, on a store: subscriber A, at 3 failures, answers 200 and ends at 0
    failures, still active, delivered at 1120. *)
Lemma triggerWebhooks_failure_counter_witness :
  webhook dbThree !! "wh_a" = Some (sampleWebhook "https://a.example/hook" 3 true)
  /\ exists outcomes db' w',
       triggerWebhooks (env := sampleEnv)
         "org_1" case_created JNull 1000 dbThree = Ok (Some outcomes, db')
       /\ webhook db' !! "wh_a" = Some w'
       /\ Webhook.lastDeliveryAt w' = Some 1120
       /\ Webhook.failureCount w' = 0
       /\ Webhook.isActive w' = true.
Proof.
  assert (Hw : webhook dbThree !! "wh_a"
               = Some (sampleWebhook "https://a.example/hook" 3 true))
    by (vm_compute; reflexivity).
  split; [exact Hw|].
  destruct (triggerWebhooks_failure_counter (env := sampleEnv) "org_1" case_created JNull 1000 dbThree "wh_a" _ Hw eq_refl)
    as (outcomes & db' & w' & Hrun & Hrow & Hat & Hok & _).
  destruct (Hok eq_refl) as [Hcount Hact].
  exists outcomes, db', w'. split_all; assumption.
Defined.

(** C5, on a store: with only an inactive subscription the dispatch
    returns [undefined] and leaves the store as it is. *)
Lemma triggerWebhooks_no_subscribers_witness :
  (forall id w, webhook dbIdle !! id = Some w ->
                subscribed "org_1" case_created w = false)
  /\ triggerWebhooks (env := sampleEnv)
       "org_1" case_created JNull 1000 dbIdle = Ok (None, dbIdle).
Proof.
  assert (H : forall id w, webhook dbIdle !! id = Some w ->
                           subscribed "org_1" case_created w = false).
  { intros id w Hw. unfold dbIdle in Hw. cbn [webhook] in Hw.
    apply lookup_singleton_Some in Hw as [_ <-]. reflexivity. }
  split; [exact H|].
  apply (triggerWebhooks_no_subscribers (env := sampleEnv) "org_1" case_created JNull 1000 dbIdle H).
Defined.

(** C5 as stated fails: in the empty store, where nothing matches, the
    dispatch does not return an empty outcome list. *)
Lemma triggerWebhooks_empty_store_returns_undefined :
  matching "org_1" case_created emptyDb = []
  /\ triggerWebhooks (env := sampleEnv)
       "org_1" case_created JNull 1000 emptyDb = Ok (None, emptyDb)
  /\ triggerWebhooks (env := sampleEnv)
       "org_1" case_created JNull 1000 emptyDb <> Ok (Some [], emptyDb).
Proof.
  split; [vm_compute; reflexivity|].
  split; [vm_compute; reflexivity|].
  vm_compute. discriminate.
Qed.

(** C7, on a store: A answers 200, B answers 500, C times out; the
    dispatch returns three outcomes and appends three delivery rows. *)
Lemma triggerWebhooks_outcomes_witness :
  (1 <= length (matching "org_1" case_created dbThree))%nat
  /\ exists outcomes db' created,
       triggerWebhooks (env := sampleEnv)
         "org_1" case_created JNull 1000 dbThree = Ok (Some outcomes, db')
       /\ length outcomes = 3%nat
       /\ webhookDelivery db' = created
       /\ length created = 3%nat
       /\ Outcome.webhookId <$> outcomes = ["wh_c"; "wh_a"; "wh_b"]
       /\ Outcome.success <$> outcomes = [false; true; false]
       /\ WebhookDelivery.success <$> created = [false; true; false].
Proof.
  assert (Hlen : (1 <= length (matching "org_1" case_created dbThree))%nat)
    by (vm_compute; lia).
  split; [exact Hlen|].
  destruct (triggerWebhooks_outcomes (env := sampleEnv)
              "org_1" case_created JNull 1000 dbThree Hlen)
    as (outcomes & db' & created & Hrun & Ho & Hd & Hc & Hids & _ & Hs & _).
  assert (Hflags : match triggerWebhooks (env := sampleEnv)
                           "org_1" case_created JNull 1000 dbThree with
                   | Ok (Some os, _) => Outcome.success <$> os = [false; true; false]
                   | _ => False
                   end) by (vm_compute; reflexivity).
  rewrite Hrun in Hflags.
  exists outcomes, db', created. split_all; try assumption.
  rewrite Hs. exact Hflags.
Defined.

(** C8, on a store: the issued key validates, and the stored credential
    then has a usage counter of 1 and was last used at 900; a key nobody
    issued is answered [null]. *)
Lemma validateApiKey_invalid_or_used_witness :
  credentialOf (env := sampleEnv) "ip_c2FtcGxlLWtleQ" dbIssued = Some ("key_1", sampleKeyRow)
  /\ (exists v db' k',
        validateApiKey (env := sampleEnv) "ip_c2FtcGxlLWtleQ" 900 dbIssued
        = Ok (Some v, db')
        /\ Validated.organization v = "org_1"
        /\ apiKey db' = <["key_1" := k']> (apiKey dbIssued)
        /\ ApiKey.usageCount k' = 1
        /\ ApiKey.lastUsedAt k' = Some 900)
  /\ validateApiKey (env := sampleEnv) "ip_bm9ib2R5" 900 dbIssued = Ok (None, dbIssued).
Proof.
  assert (Hc : credentialOf (env := sampleEnv) "ip_c2FtcGxlLWtleQ" dbIssued
               = Some ("key_1", sampleKeyRow)) by (vm_compute; reflexivity).
  split; [exact Hc|]. split.
  - destruct (validateApiKey_invalid_or_used (env := sampleEnv)
                "ip_c2FtcGxlLWtleQ" 900 dbIssued)
      as (r & db' & Hrun & _ & _ & _ & _ & Hsome & Hused).
    destruct (Hsome "key_1" sampleKeyRow eq_refl Hc eq_refl ltac:(discriminate))
      as [v ->].
    destruct (Hused v eq_refl)
      as (id & k & k' & Hc' & _ & _ & Horg & Hdb & Hcount & Hlast & _).
    rewrite Hc in Hc'. injection Hc' as <- <-.
    exists v, db', k'. split_all; assumption.
  - destruct (validateApiKey_invalid_or_used (env := sampleEnv)
                "ip_bm9ib2R5" 900 dbIssued)
      as (r & db' & Hrun & Hsame & Hnone & _).
    assert (r = None) as -> by (apply Hnone; vm_compute; reflexivity).
    rewrite (Hsame eq_refl) in Hrun. exact Hrun.
Defined.

(** C9, on a store: the key issued in the empty store authenticates. *)
Lemma createApiKey_then_validateApiKey_witness :
  createApiKey (env := sampleEnv) "org_1" "ci" ["cases.read"; "forms.*"]
    "user_1" None "c2FtcGxlLWtleQ" "key_1" ∅ 500 emptyDb = Ok (sampleIssued, dbIssued)
  /\ exists v db2,
       validateApiKey (env := sampleEnv) "ip_c2FtcGxlLWtleQ" 900 dbIssued = Ok (Some v, db2)
       /\ Validated.organization v = "org_1"
       /\ ApiKey.scopes (Validated.apiKey v).2 = ["cases.read"; "forms.*"].
Proof.
  assert (Hc : createApiKey (env := sampleEnv) "org_1" "ci"
                 ["cases.read"; "forms.*"] "user_1" None "c2FtcGxlLWtleQ" "key_1" ∅ 500
                 emptyDb = Ok (sampleIssued, dbIssued))
    by (vm_compute; reflexivity).
  split; [exact Hc|].
  destruct (createApiKey_then_validateApiKey (env := sampleEnv)
              "org_1" "ci" ["cases.read"; "forms.*"] "user_1" None "c2FtcGxlLWtleQ"
              "key_1" ∅ 500 900 emptyDb dbIssued sampleIssued
              ltac:(discriminate) ltac:(discriminate) ltac:(discriminate) Hc)
    as (v & db2 & Hrun & Horg & _ & Hscopes).
  exists v, db2. split_all; assumption.
Defined.

(** C10, on a store: five usages of [key_1] in the trailing hour, among
    two usages of [key_2] and the issuance of [key_1], and limit 5: eight
    rows lie in the window, five are counted; the check at minute 50 is
    refused with nothing remaining; at minute 61 and 40 seconds the usage
    of minute 0 has left the window and the check is allowed. *)
Lemma checkRateLimit_sliding_window_witness :
  windowCount_spec "key_1" 3000000 (auditLog dbSharedLog) = 5
  /\ length (auditLog dbSharedLog) = 8%nat
  /\ (exists r,
        checkRateLimit "key_1" 5 3000000 dbSharedLog = Ok (r, dbSharedLog)
        /\ RateLimit.allowed r = false
        /\ RateLimit.remaining r = 0
        /\ RateLimit.resetAt r = 3000000)
  /\ (exists r',
        checkRateLimit "key_1" 5 3700000 dbSharedLog = Ok (r', dbSharedLog)
        /\ RateLimit.allowed r' = true).
Proof.
  split; [vm_compute; reflexivity|]. split; [reflexivity|].
  pose proof (checkRateLimit_sliding_window "key_1" 5 3000000 dbSharedLog) as H.
  cbv zeta in H. destruct H as (r & Hrun & _ & _ & _ & Hreset & Hfull).
  destruct (Hfull eq_refl ltac:(vm_compute; reflexivity)) as (Hall & Hrem & Hlater).
  split.
  - exists r. split_all; try assumption.
  - apply (Hlater 3700000 (sampleUsage "key_1" 0)).
    + lia.
    + left. reflexivity.
    + reflexivity.
    + reflexivity.
    + simpl. lia.
    + simpl. lia.
Defined.

(** * Further properties *)

(** ** Signatures and requests *)

Lemma verifyWebhookSignature_generated {env : Env} (payload secret : string) :
  verifyWebhookSignature payload (generateSignature payload secret) secret = Ok true.
Proof.
  rewrite verifyWebhookSignature_same_length by apply generateSignature_length.
  now rewrite String.eqb_refl.
Qed.

(** X1: a signature made by [generateSignature] verifies under the same
    payload and secret; any other signature of the digest's length is
    answered [false]. *)
Theorem verifyWebhookSignature_accepts_only_generated {env : Env}
    (payload secret : string) :
  verifyWebhookSignature payload (generateSignature payload secret) secret = Ok true
  /\ forall signature,
       String.length signature = 64%nat ->
       signature <> generateSignature payload secret ->
       verifyWebhookSignature payload signature secret = Ok false.
Proof.
  split.
  - apply verifyWebhookSignature_generated.
  - intros signature Hlen Hne.
    rewrite verifyWebhookSignature_same_length by exact Hlen.
    apply String.eqb_neq in Hne. now rewrite Hne.
Qed.

(** ** What a dispatch touches *)

Lemma subscribed_false_iff (organizationId : string) (event : WebhookEvent)
    (w : Webhook.t) :
  subscribed organizationId event w = false
  <-> Webhook.organizationId w <> organizationId
      \/ Webhook.isActive w = false
      \/ event ∉ Webhook.events w.
Proof.
  unfold subscribed. rewrite !andb_false_iff, String.eqb_neq, bool_decide_eq_false.
  tauto.
Qed.

Lemma deliveredRow_fixed_fields {env : Env} (event : WebhookEvent)
    (payload : WebhookPayload.t) (now : Z) (w : Webhook.t) :
  Webhook.organizationId (deliveredRow event payload now w) = Webhook.organizationId w
  /\ Webhook.url (deliveredRow event payload now w) = Webhook.url w
  /\ Webhook.events (deliveredRow event payload now w) = Webhook.events w
  /\ Webhook.secret (deliveredRow event payload now w) = Webhook.secret w.
Proof.
  unfold deliveredRow, afterDelivery.
  destruct (negb _ && _); split_all; reflexivity.
Qed.

(** The whole effect of a dispatch: what it returns and the store it
    leaves, in terms of the rows it delivers to. *)
Lemma triggerWebhooks_effect {env : Env} (organizationId : string)
    (event : WebhookEvent) (data : Json) (now : Z) (db : Db) :
  let ws := matching organizationId event db in
  let payload := dispatchPayload organizationId event data now in
  exists r db',
    triggerWebhooks organizationId event data now db = Ok (r, db')
    /\ (r = if decide (ws = []) then None
            else Some (deliveryOutcome event payload <$> ws))
    /\ apiKey db' = apiKey db
    /\ auditLog db' = auditLog db
    /\ webhookDelivery db'
       = (webhookDelivery db ++ (deliveryRecord event payload now <$> ws))%list
    /\ forall id,
         webhook db' !! id
         = (fun w => if subscribed organizationId event w
                     then deliveredRow event payload now w else w)
             <$> webhook db !! id.
Proof.
  intros ws payload. rewrite triggerWebhooks_eq. fold ws. fold payload.
  pose proof (dispatchedWebhooks_lookup organizationId event payload now db) as Hl.
  fold ws in Hl.
  destruct ws as [|x ws'] eqn:E.
  - exists None, db. split_all; try reflexivity.
    + simpl. now rewrite app_nil_r.
    + intros id. destruct (webhook db !! id) as [w|] eqn:Hw; [|reflexivity].
      simpl. destruct (subscribed organizationId event w) eqn:Hs; [|reflexivity].
      assert ((id, w) ∈ matching organizationId event db) as Hin
          by now apply elem_of_matching.
      fold ws in Hin. subst ws. rewrite E in Hin. inversion Hin.
  - cbv zeta. do 2 eexists. split; [reflexivity|].
    split_all; try reflexivity. exact Hl.
Qed.

(** X2: what a dispatch sends. For every active subscription of the
    tenant that is subscribed to the event it appends a delivery row, and
    every row it appends is for a stored subscription; each such row holds
    the answer to a request sent for its subscription: a POST to the
    subscription's URL, bounded by 30 seconds, with the dispatched event
    and time in its headers, whose body is the serialized envelope, the
    same for every subscriber, and whose [X-Webhook-Signature] header
    verifies against that body under the subscriber's own secret. The row
    records the status, the success and the duration of the answer to this
    request. *)
Theorem triggerWebhooks_sends_signed_envelope {env : Env} (organizationId : string)
    (event : WebhookEvent) (data : Json) (now : Z) (db : Db) :
  let sent := fun (id : string) (w : Webhook.t) (d : WebhookDelivery.t) =>
    WebhookDelivery.webhookId d = id
    /\ exists req signature,
         Request.url req = Webhook.url w
         /\ Request.method req = "POST"
         /\ Request.timeout req = 30000
         /\ Request.body req
            = JSON_stringify (dispatchPayload organizationId event data now)
         /\ Request.headers req
            = [ ("Content-Type", "application/json");
                ("X-Webhook-Signature", signature);
                ("X-Webhook-Event", WebhookEvent_toString event);
                ("X-Webhook-Timestamp", toISOString now) ]
         /\ verifyWebhookSignature (Request.body req) signature (Webhook.secret w)
            = Ok true
         /\ WebhookDelivery.statusCode d
            = match (fetch req).1 with
              | Responded status _ => Some status
              | Rejected _ => None
              end
         /\ WebhookDelivery.success d
            = match (fetch req).1 with
              | Responded status _ => response_ok status
              | Rejected _ => false
              end
         /\ WebhookDelivery.duration d = (fetch req).2 in
  exists r db' created,
    triggerWebhooks organizationId event data now db = Ok (r, db')
    /\ webhookDelivery db' = (webhookDelivery db ++ created)%list
    /\ (forall id w,
          webhook db !! id = Some w ->
          Webhook.organizationId w = organizationId ->
          Webhook.isActive w = true ->
          event ∈ Webhook.events w ->
          exists d, d ∈ created /\ sent id w d)
    /\ (forall d, d ∈ created ->
          exists id w, webhook db !! id = Some w /\ sent id w d).
Proof.
  intros sent.
  assert (Hsent : forall id w,
             sent id w (deliveryRecord event
                          (dispatchPayload organizationId event data now) now (id, w))).
  { intros id w. unfold sent. split; [reflexivity|].
    exists (deliveryRequest event (dispatchPayload organizationId event data now)
              (JSON_stringify (dispatchPayload organizationId event data now)) w).
    eexists.
    split; [reflexivity|]. split; [reflexivity|]. split; [reflexivity|].
    split; [reflexivity|]. split; [reflexivity|].
    split; [apply verifyWebhookSignature_generated|].
    unfold deliveryRecord, deliveryResult, deliveryElapsed.
    cbn [fst snd WebhookDelivery.statusCode WebhookDelivery.success
           WebhookDelivery.duration].
    destruct (fetch _) as [[status text|err] elapsed];
      cbn [fst snd attemptOf statusCode success]; split_all; first [reflexivity | lia]. }
  clearbody sent.
  destruct (triggerWebhooks_effect organizationId event data now db)
    as (r & db' & Hrun & _ & _ & _ & Hd & _).
  do 3 eexists. split; [exact Hrun|]. split; [exact Hd|]. split.
  - intros id w Hw Horg Hact Hev. eexists. split; [|apply (Hsent id w)].
    apply list_elem_of_fmap. exists (id, w). split; [reflexivity|].
    apply elem_of_matching. split; [exact Hw|].
    unfold subscribed. rewrite Hact.
    apply String.eqb_eq in Horg. rewrite Horg.
    now rewrite bool_decide_eq_true_2.
  - intros d Hin. apply list_elem_of_fmap in Hin as ([id w] & -> & Hin).
    apply elem_of_matching in Hin as [Hw _].
    exists id, w. split; [exact Hw | apply Hsent].
Qed.

(** X3: a dispatch leaves the credentials and the audit log as they
    are, adds and removes no subscription, never changes the tenant, URL,
    events or secret of one, and leaves untouched every subscription of
    another tenant, every inactive one and every one not subscribed to the
    event. *)
Theorem triggerWebhooks_touches_only_subscribed {env : Env} (organizationId : string)
    (event : WebhookEvent) (data : Json) (now : Z) (db : Db) :
  exists r db',
    triggerWebhooks organizationId event data now db = Ok (r, db')
    /\ apiKey db' = apiKey db
    /\ auditLog db' = auditLog db
    /\ (forall id, webhook db !! id = None -> webhook db' !! id = None)
    /\ (forall id w,
          webhook db !! id = Some w ->
          exists w',
            webhook db' !! id = Some w'
            /\ Webhook.organizationId w' = Webhook.organizationId w
            /\ Webhook.url w' = Webhook.url w
            /\ Webhook.events w' = Webhook.events w
            /\ Webhook.secret w' = Webhook.secret w
            /\ (Webhook.organizationId w <> organizationId
                \/ Webhook.isActive w = false
                \/ event ∉ Webhook.events w ->
                w' = w)).
Proof.
  destruct (triggerWebhooks_effect organizationId event data now db)
    as (r & db' & Hrun & _ & Hk & Ha & _ & Hrows).
  exists r, db'. split_all; try assumption.
  - intros id Hnone. rewrite Hrows, Hnone. reflexivity.
  - intros id w Hw. rewrite Hrows, Hw. simpl.
    eexists. split; [reflexivity|].
    destruct (subscribed organizationId event w) eqn:Hs.
    + destruct (deliveredRow_fixed_fields event
                  (dispatchPayload organizationId event data now) now w)
        as (H1 & H2 & H3 & H4).
      split_all; try assumption.
      intros Hnot. apply subscribed_false_iff in Hnot. congruence.
    + split_all; reflexivity.
Qed.

Lemma matching_ids (organizationId : string) (event : WebhookEvent) (db : Db)
    (id : string) :
  id ∈ (matching organizationId event db).*1
  <-> exists w, webhook db !! id = Some w /\ subscribed organizationId event w = true.
Proof.
  rewrite list_elem_of_fmap. split.
  - intros ([i w] & -> & Hin). apply elem_of_matching in Hin. eauto.
  - intros (w & Hw & Hs). exists (id, w). split; [reflexivity|].
    now apply elem_of_matching.
Qed.

Lemma triggerWebhooks_attempts {env : Env} (organizationId : string)
    (event : WebhookEvent) (data : Json) (now : Z) (db : Db) :
  exists r db' created,
    triggerWebhooks organizationId event data now db = Ok (r, db')
    /\ webhookDelivery db' = (webhookDelivery db ++ created)%list
    /\ WebhookDelivery.webhookId <$> created = (matching organizationId event db).*1
    /\ (match r with
        | Some outcomes =>
            Outcome.webhookId <$> outcomes = (matching organizationId event db).*1
        | None => matching organizationId event db = []
        end)
    /\ forall id,
         webhook db' !! id
         = (fun w => if subscribed organizationId event w
                     then deliveredRow event
                            (dispatchPayload organizationId event data now) now w
                     else w)
             <$> webhook db !! id.
Proof.
  destruct (triggerWebhooks_effect organizationId event data now db)
    as (r & db' & Hrun & Hr & _ & _ & Hd & Hrows).
  exists r, db', (deliveryRecord event
                    (dispatchPayload organizationId event data now) now
                    <$> matching organizationId event db).
  split_all; try assumption.
  - now rewrite <- list_fmap_compose.
  - rewrite Hr. destruct (decide _) as [->|]; [reflexivity|].
    now rewrite <- list_fmap_compose.
Qed.

(** X4: a dispatch attempts exactly the active subscriptions of the
    tenant that are subscribed to the event, each once: the ids of the
    outcomes it returns and of the delivery rows it appends are these
    subscriptions' ids, without repetition, and it returns no outcome list
    only when there is none. *)
Theorem triggerWebhooks_attempts_each_subscriber_once {env : Env}
    (organizationId : string) (event : WebhookEvent) (data : Json) (now : Z) (db : Db) :
  exists r db' created,
    triggerWebhooks organizationId event data now db = Ok (r, db')
    /\ webhookDelivery db' = (webhookDelivery db ++ created)%list
    /\ NoDup (WebhookDelivery.webhookId <$> created)
    /\ (forall id,
          id ∈ WebhookDelivery.webhookId <$> created
          <-> exists w, webhook db !! id = Some w
                        /\ Webhook.organizationId w = organizationId
                        /\ Webhook.isActive w = true
                        /\ event ∈ Webhook.events w)
    /\ match r with
       | Some outcomes =>
           Outcome.webhookId <$> outcomes = WebhookDelivery.webhookId <$> created
       | None => created = []
       end.
Proof.
  destruct (triggerWebhooks_attempts organizationId event data now db)
    as (r & db' & created & Hrun & Hd & Hc & Hr & _).
  exists r, db', created. split_all; try assumption.
  - rewrite Hc. apply matching_NoDup.
  - intros id. rewrite Hc, matching_ids. unfold subscribed.
    setoid_rewrite andb_true_iff. setoid_rewrite andb_true_iff.
    setoid_rewrite String.eqb_eq. setoid_rewrite bool_decide_eq_true.
    split; intros (w & Hw & H); exists w; tauto.
  - destruct r as [outcomes|]; [congruence|].
    rewrite Hr in Hc. destruct created; [reflexivity | discriminate].
Qed.

(** X5: a subscription whose failed delivery brings its counter to 10
    or more is left out of every later dispatch, for any tenant and event:
    no delivery row is written for it and its stored row stays as the
    failing dispatch left it. *)
Theorem failing_subscription_dropped_from_later_dispatches {env : Env}
    (organizationId : string) (event : WebhookEvent) (data : Json) (now : Z)
    (db : Db) (id : string) (w : Webhook.t) :
  webhook db !! id = Some w ->
  subscribed organizationId event w = true ->
  deliverySucceeded event (dispatchPayload organizationId event data now) w = false ->
  9 <= Webhook.failureCount w ->
  exists outcomes db1,
    triggerWebhooks organizationId event data now db = Ok (Some outcomes, db1)
    /\ forall organizationId2 event2 data2 now2,
         exists r2 db2 created2,
           triggerWebhooks organizationId2 event2 data2 now2 db1 = Ok (r2, db2)
           /\ webhookDelivery db2 = (webhookDelivery db1 ++ created2)%list
           /\ (id ∉ (WebhookDelivery.webhookId <$> created2))
           /\ webhook db2 !! id = webhook db1 !! id.
Proof.
  intros Hw Hs Hfail Hnine.
  destruct (triggerWebhooks_delivered organizationId event data now db id w Hw Hs)
    as (outcomes & db1 & Hrun & Hrow).
  exists outcomes, db1. split; [exact Hrun|].
  rewrite deliveredRow_failure in Hrow by exact Hfail. cbv zeta in Hrow.
  assert ((10 <=? Webhook.failureCount w + 1) = true) as Hten by (apply Z.leb_le; lia).
  rewrite Hten in Hrow.
  intros organizationId2 event2 data2 now2.
  destruct (triggerWebhooks_attempts organizationId2 event2 data2 now2 db1)
    as (r2 & db2 & created2 & Hrun2 & Hd2 & Hc2 & _ & Hrows2).
  exists r2, db2, created2. split_all; try assumption.
  - rewrite Hc2, matching_ids. intros (w1 & Hw1 & Hs1).
    rewrite Hrow in Hw1. injection Hw1 as <-.
    apply subscribed_active in Hs1. discriminate.
  - rewrite Hrows2, Hrow. simpl.
    replace (subscribed organizationId2 event2 _) with false; [reflexivity|].
    symmetry. apply subscribed_false_iff. right. left. reflexivity.
Qed.

(** *** Text in code units *)

Lemma Text_units_continuation (n : N) :
  (128 <= n < 192)%N -> Js.Text.units (ascii_of_N n) = 0%nat.
Proof.
  intros Hn. unfold Js.Text.units. cbv zeta.
  rewrite N_ascii_embedding by lia.
  destruct (N.ltb_spec n 128); [lia|].
  destruct (N.ltb_spec n 192); [reflexivity | lia].
Qed.

Lemma continuation_range (x : N) : (128 <= 128 + x mod 64 < 192)%N.
Proof.
  assert (x mod 64 < 64)%N as H by (apply N.mod_upper_bound; discriminate).
  revert H. generalize (x mod 64)%N. intros m Hm. lia.
Qed.

Lemma Text_highSurrogate_length (b0 b1 b2 b3 : ascii) :
  Js.Text.length (Js.Text.highSurrogate b0 b1 b2 b3) = 1%nat.
Proof.
  unfold Js.Text.highSurrogate. cbv zeta. cbn [Js.Text.length].
  change (Js.Text.units (ascii_of_N 237)) with 1%nat.
  rewrite !Text_units_continuation by apply continuation_range.
  reflexivity.
Qed.

(** A cut to [k] code units has at most [k] code units. *)
Lemma Text_take_length (k : nat) (s : string) :
  (Js.Text.length (Js.Text.take k s) <= k)%nat.
Proof.
  revert k. induction s as [|c rest IH]; intros k; cbn [Js.Text.take Js.Text.length].
  - lia.
  - destruct (Nat.leb_spec (Js.Text.units c) k) as [Hle|Hgt].
    + cbn [Js.Text.length]. specialize (IH (k - Js.Text.units c)%nat). lia.
    + destruct (Nat.eqb_spec k 1) as [->|Hk]; [|cbn [Js.Text.length]; lia].
      destruct rest as [|b1 [|b2 [|b3 rest']]]; cbn [Js.Text.length]; try lia.
      rewrite Text_highSurrogate_length. lia.
Qed.

(** A text of at most [k] code units is not cut. *)
Lemma Text_take_all (k : nat) (s : string) :
  (Js.Text.length s <= k)%nat -> Js.Text.take k s = s.
Proof.
  revert k. induction s as [|c rest IH]; intros k; cbn [Js.Text.take Js.Text.length];
    [reflexivity|].
  intros Hk. destruct (Nat.leb_spec (Js.Text.units c) k) as [Hle|Hgt]; [|lia].
  f_equal. apply IH. lia.
Qed.

Lemma Text_substring0_length_le (k : Z) (s : string) :
  0 <= k -> Z.of_nat (Js.Text.length (Js.Text.substring0 k s)) <= k.
Proof.
  intros Hk. unfold Js.Text.substring0.
  pose proof (Text_take_length (Z.to_nat k) s). lia.
Qed.

Lemma Text_substring0_all (k : Z) (s : string) :
  Z.of_nat (Js.Text.length s) <= k -> Js.Text.substring0 k s = s.
Proof.
  intros Hk. unfold Js.Text.substring0. apply Text_take_all. lia.
Qed.

(** X6: [testWebhook] only reads the store. For an unknown id it throws
    "Webhook not found"; for a known one it returns normally with the store
    unchanged (no delivery row, no counter update), and what it reports is
    the answer to one request: a POST to the subscription's URL, bounded by
    10 seconds, marked as a [test] event, whose signature header verifies
    against its body under the subscription's secret. For an answer it
    reports the status, success iff the status is 2xx, no error, and the
    first 1000 code units of the response text (the empty text when the
    response cannot be read); for a rejection it reports a failure without
    status or response, with the message of the error. The duration is the
    time the request took. *)
Theorem testWebhook_only_reads {env : Env} (webhookId : string) (now : Z) (db : Db) :
  match webhook db !! webhookId with
  | None => testWebhook webhookId now db = Throw (JsError "Webhook not found")
  | Some w =>
      exists r req signature,
        testWebhook webhookId now db = Ok (r, db)
        /\ Request.url req = Webhook.url w
        /\ Request.method req = "POST"
        /\ Request.timeout req = 10000
        /\ In ("X-Webhook-Event", "test") (Request.headers req)
        /\ In ("X-Webhook-Signature", signature) (Request.headers req)
        /\ verifyWebhookSignature (Request.body req) signature (Webhook.secret w) = Ok true
        /\ TestResult.duration r = (fetch req).2
        /\ match (fetch req).1 with
           | Responded status text =>
               (TestResult.success r = true <-> 200 <= status <= 299)
               /\ TestResult.statusCode r = Some status
               /\ TestResult.error r = None
               /\ exists s,
                    TestResult.response r = Some s
                    /\ s = Js.Text.substring0 1000 (default "" text)
                    /\ Z.of_nat (Js.Text.length s) <= 1000
                    /\ (Z.of_nat (Js.Text.length (default "" text)) <= 1000 ->
                        s = default "" text)
           | Rejected err =>
               TestResult.success r = false
               /\ TestResult.statusCode r = None
               /\ TestResult.response r = None
               /\ TestResult.error r
                  = Some match err with
                         | ThrownError message => message
                         | ThrownOther => "Unknown error"
                         end
           end
  end.
Proof.
  unfold testWebhook, bind, webhook_findUnique.
  destruct (webhook db !! webhookId) as [w|]; [|reflexivity].
  match goal with |- context [fetch ?q] => set (req := q) end.
  exists (match fetch req with
          | (Responded status text, elapsed) =>
              {| TestResult.success := response_ok status;
                 TestResult.statusCode := Some status;
                 TestResult.duration := elapsed;
                 TestResult.response := Some (Js.Text.substring0 1000 (default "" text));
                 TestResult.error := None |}
          | (Rejected err, elapsed) =>
              {| TestResult.success := false;
                 TestResult.statusCode := None;
                 TestResult.duration := elapsed;
                 TestResult.response := None;
                 TestResult.error :=
                   Some match err with
                        | ThrownError message => message
                        | ThrownOther => "Unknown error"
                        end |}
          end), req.
  eexists.
  split; [destruct (fetch req) as [[status text|err] elapsed]; reflexivity|].
  split; [reflexivity|]. split; [reflexivity|]. split; [reflexivity|].
  split; [right; right; left; reflexivity|].
  split; [right; left; reflexivity|].
  split; [apply verifyWebhookSignature_generated|].
  destruct (fetch req) as [[status text|err] elapsed];
    cbn [fst snd TestResult.success TestResult.statusCode TestResult.error
           TestResult.response TestResult.duration].
  - split; [reflexivity|]. split_all; try reflexivity.
    + unfold response_ok. rewrite andb_true_iff, !Z.leb_le. tauto.
    + eexists. split; [reflexivity|]. split; [reflexivity|].
      split; [apply Text_substring0_length_le; lia|].
      intros Hlen. now apply Text_substring0_all.
  - split; [reflexivity|]. split_all; reflexivity.
Qed.

(** X7: a subscription registered under a new id is stored active with
    a failure counter of 0 and the given secret, beside the unchanged
    existing ones; a dispatch of one of its events to its tenant then
    attempts it. *)
Theorem createWebhook_then_triggerWebhooks {env : Env} (organizationId url : string)
    (events : list WebhookEvent) (rnd newId : string) (event : WebhookEvent)
    (data : Json) (now : Z) (db : Db) :
  webhook db !! newId = None ->
  event ∈ events ->
  exists created db1 outcomes db2,
    createWebhook organizationId url events rnd newId db = Ok (created, db1)
    /\ created.1 = newId
    /\ webhook db1 !! newId = Some created.2
    /\ Webhook.isActive created.2 = true
    /\ Webhook.failureCount created.2 = 0
    /\ Webhook.secret created.2 = rnd
    /\ (forall id w, webhook db !! id = Some w -> webhook db1 !! id = Some w)
    /\ triggerWebhooks organizationId event data now db1 = Ok (Some outcomes, db2)
    /\ newId ∈ Outcome.webhookId <$> outcomes.
Proof.
  intros Hnew Hev.
  unfold createWebhook, webhook_create. rewrite Hnew.
  set (row := newWebhookRow organizationId url events rnd).
  set (db1 := setWebhook (<[newId := row]> (webhook db)) db).
  assert (Hrow : webhook db1 !! newId = Some row) by apply lookup_insert_eq.
  assert (Hsub : subscribed organizationId event row = true).
  { unfold subscribed, row, newWebhookRow.
    cbn [Webhook.organizationId Webhook.isActive Webhook.events].
    rewrite String.eqb_refl, bool_decide_eq_true_2 by exact Hev. reflexivity. }
  destruct (triggerWebhooks_attempts organizationId event data now db1)
    as (r & db2 & created2 & Hrun & _ & _ & Hr & _).
  assert (Hin : newId ∈ (matching organizationId event db1).*1)
    by (apply matching_ids; eauto).
  destruct r as [outcomes|].
  - exists (newId, row), db1, outcomes, db2.
    split_all; try reflexivity; try assumption.
    + intros id w Hw. unfold db1. cbn [webhook setWebhook].
      rewrite lookup_insert_ne; [exact Hw | congruence].
    + now rewrite Hr.
  - rewrite Hr in Hin. inversion Hin.
Qed.

(** X8: every delivery row a dispatch appends records the dispatched
    event and envelope; it keeps at most 10000 code units of the response;
    it is a success iff it has a 2xx status and iff it has no error text;
    without a status it has no response; and the error text of an answered
    failure is "HTTP <status>: " followed by at most 500 code units. *)
Theorem triggerWebhooks_delivery_rows {env : Env} (organizationId : string)
    (event : WebhookEvent) (data : Json) (now : Z) (db : Db) :
  exists r db' created,
    triggerWebhooks organizationId event data now db = Ok (r, db')
    /\ webhookDelivery db' = (webhookDelivery db ++ created)%list
    /\ Forall (fun d =>
         WebhookDelivery.event d = event
         /\ WebhookDelivery.payload d = dispatchPayload organizationId event data now
         /\ (forall s, WebhookDelivery.response d = Some s ->
                       Z.of_nat (Js.Text.length s) <= 10000)
         /\ (WebhookDelivery.success d = true
             <-> exists status, WebhookDelivery.statusCode d = Some status
                                /\ 200 <= status <= 299)
         /\ (WebhookDelivery.success d = true <-> WebhookDelivery.error d = None)
         /\ (WebhookDelivery.statusCode d = None -> WebhookDelivery.response d = None)
         /\ (forall status e,
               WebhookDelivery.statusCode d = Some status ->
               WebhookDelivery.error d = Some e ->
               exists t, e = "HTTP " +:+ Js.numberToString status +:+ ": " +:+ t
                         /\ Z.of_nat (Js.Text.length t) <= 500))
        created.
Proof.
  destruct (triggerWebhooks_effect organizationId event data now db)
    as (r & db' & Hrun & _ & _ & _ & Hd & _).
  do 3 eexists. split; [exact Hrun|]. split; [exact Hd|].
  apply Forall_fmap, Forall_forall. intros [id w] _.
  unfold compose, deliveryRecord.
  cbn [fst snd WebhookDelivery.event WebhookDelivery.payload WebhookDelivery.response
         WebhookDelivery.success WebhookDelivery.statusCode WebhookDelivery.error].
  destruct (deliveryResult event _ w) as [status text|err];
    cbn [attemptOf success statusCode responseBody error].
  - split_all; try reflexivity.
    + intros s Hs. destruct text as [b|]; [|discriminate].
      injection Hs as <-. apply Text_substring0_length_le. lia.
    + unfold response_ok. rewrite andb_true_iff, !Z.leb_le. split.
      * intros H. exists status. split; [reflexivity | lia].
      * intros (st & Heq & H). injection Heq as <-. lia.
    + destruct (response_ok status); cbn [negb]; split; congruence.
    + discriminate.
    + intros st e Hst He. injection Hst as <-.
      destruct (response_ok status); cbn [negb] in He; [discriminate|].
      injection He as <-. eexists. split; [reflexivity|].
      destruct text as [b|]; [apply Text_substring0_length_le; lia | vm_compute; discriminate].
  - split_all; try reflexivity.
    + intros s Hs. discriminate.
    + split; [discriminate | intros (st & Heq & _); discriminate].
    + split; discriminate.
    + intros st e Hst. discriminate.
Qed.

(** ** The credential gateway, operation by operation *)

Lemma credentialEvolves_refl (k : ApiKey.t) : credentialEvolves k k.
Proof. unfold credentialEvolves. split_all; first [reflexivity | lia | tauto]. Qed.

Lemma credentialEvolves_trans (k1 k2 k3 : ApiKey.t) :
  credentialEvolves k1 k2 -> credentialEvolves k2 k3 -> credentialEvolves k1 k3.
Proof.
  unfold credentialEvolves.
  intros (A1 & A2 & A3 & A4 & A5 & A6 & A7 & A8 & A9 & A10)
         (B1 & B2 & B3 & B4 & B5 & B6 & B7 & B8 & B9 & B10).
  split_all; first [congruence | lia | tauto].
Qed.

Lemma usageUpdate_evolves (now : Z) (k : ApiKey.t) :
  credentialEvolves k (ApiKeyUpdate.apply (usageUpdate now) k).
Proof.
  unfold credentialEvolves, ApiKeyUpdate.apply, usageUpdate. cbn.
  split_all; first [reflexivity | lia | tauto].
Qed.

Lemma revokeUpdate_evolves (k : ApiKey.t) :
  credentialEvolves k (ApiKeyUpdate.apply revokeUpdate k).
Proof.
  unfold credentialEvolves, ApiKeyUpdate.apply, revokeUpdate. cbn.
  split_all; first [reflexivity | lia | tauto].
Qed.

(** What a validation returns and stores. *)
Lemma validateApiKey_effect {env : Env} (key : string) (now : Z) (db db' : Db)
    (r : option Validated.t) :
  validateApiKey key now db = Ok (r, db') ->
  (r = None /\ db' = db)
  \/ exists id k,
       r = Some {| Validated.apiKey := (id, k);
                   Validated.organization := ApiKey.organizationId k |}
       /\ credentialOf key db = Some (id, k)
       /\ apiKey db !! id = Some k
       /\ ApiKey.isActive k = true
       /\ expired k now = false
       /\ db' = setApiKey (<[id := ApiKeyUpdate.apply (usageUpdate now) k]> (apiKey db)) db.
Proof.
  rewrite validateApiKey_eq. intros H.
  destruct (negb (Js.startsWith key API_KEY_PREFIX));
    [injection H as <- <-; now left|].
  destruct (credentialOf key db) as [[id k]|] eqn:E;
    [|injection H as <- <-; now left].
  destruct (ApiKey.isActive k) eqn:Ha; cbn [negb] in H;
    [|injection H as <- <-; now left].
  destruct (expired k now) eqn:Hx; [injection H as <- <-; now left|].
  injection H as <- <-. right. exists id, k.
  destruct (credentialOf_stored key db id k E) as [Hst _].
  split_all; reflexivity || assumption.
Qed.

(** What an issuance stores and returns. *)
Lemma createApiKey_effect {env : Env} (organizationId name : string)
    (scopes : list string) (createdBy : string) (expiresAt : option Z)
    (rnd newId : string) (hdrs : Headers) (now : Z) (db db1 : Db)
    (created : string * ApiKey.t) :
  createApiKey organizationId name scopes createdBy expiresAt rnd newId hdrs now db
  = Ok (created, db1) ->
  let row :=
    newApiKeyRow organizationId name (digestHex (sha256 (API_KEY_PREFIX +:+ rnd)))
      (Js.substring0 12 (API_KEY_PREFIX +:+ rnd)) scopes expiresAt createdBy in
  apiKey db !! newId = None
  /\ (forall i r, apiKey db !! i = Some r -> ApiKey.key r <> ApiKey.key row)
  /\ created.1 = newId
  /\ ApiKey.key created.2 = API_KEY_PREFIX +:+ rnd
  /\ apiKey db1 = <[newId := row]> (apiKey db)
  /\ webhook db1 = webhook db
  /\ webhookDelivery db1 = webhookDelivery db
  /\ exists l,
       auditLog db1 = (auditLog db ++ [l])%list
       /\ AuditLog.action l = "api_key.created"
       /\ AuditLog.entityId l = Some newId
       /\ AuditLog.organizationId l = organizationId
       /\ AuditLog.userId l = createdBy.
Proof.
  unfold createApiKey, generateApiKey. cbv zeta.
  unfold bind at 1. unfold apiKey_create.
  destruct (apiKey db !! newId) eqn:En; [discriminate|].
  destruct (existsb _ _) eqn:Ex; [discriminate|].
  unfold bind, createAuditLog, auditLog_create, ret, setApiKey.
  cbn [fst snd apiKey webhook webhookDelivery auditLog].
  intros H. injection H as <- <-.
  cbn [fst snd apiKey webhook webhookDelivery auditLog ApiKey.key].
  split_all; try reflexivity.
  - intros i r Hi Heq.
    apply not_true_iff_false in Ex. apply Ex.
    apply existsb_exists. exists (i, r). split.
    + apply list_elem_of_In, elem_of_map_to_list. exact Hi.
    + apply String.eqb_eq. exact Heq.
  - eexists. split_all; reflexivity.
Qed.

(** What a revocation does, in one equation. *)
Lemma revokeApiKey_effect (apiKeyId organizationId revokedBy : string)
    (hdrs : Headers) (now : Z) (db : Db) :
  match apiKey db !! apiKeyId with
  | Some k =>
      if String.eqb (ApiKey.organizationId k) organizationId then
        exists l,
          revokeApiKey apiKeyId organizationId revokedBy hdrs now db
          = Ok (ApiKeyUpdate.apply revokeUpdate k,
                {| apiKey := <[apiKeyId := ApiKeyUpdate.apply revokeUpdate k]> (apiKey db);
                   webhook := webhook db;
                   webhookDelivery := webhookDelivery db;
                   auditLog := (auditLog db ++ [l])%list |})
          /\ AuditLog.action l = "api_key.deleted"
          /\ AuditLog.entityId l = Some apiKeyId
          /\ AuditLog.organizationId l = organizationId
          /\ AuditLog.userId l = revokedBy
      else revokeApiKey apiKeyId organizationId revokedBy hdrs now db
           = Throw (PrismaRecordNotFound "ApiKey")
  | None => revokeApiKey apiKeyId organizationId revokedBy hdrs now db
            = Throw (PrismaRecordNotFound "ApiKey")
  end.
Proof.
  destruct (apiKey db !! apiKeyId) as [k|] eqn:Hk.
  - destruct (String.eqb (ApiKey.organizationId k) organizationId) eqn:Ho.
    + unfold revokeApiKey, bind, apiKey_update_in_org. rewrite Hk, Ho.
      unfold createAuditLog, auditLog_create, ret, setApiKey.
      cbn [apiKey webhook webhookDelivery auditLog].
      eexists. split_all; reflexivity.
    + unfold revokeApiKey, bind, apiKey_update_in_org. now rewrite Hk, Ho.
  - unfold revokeApiKey, bind, apiKey_update_in_org. now rewrite Hk.
Qed.

(** The three answers of [authenticateApiRequest]. *)
Lemma authenticateApiRequest_cases {env : Env} (hdrs : Headers) (now : Z) (db : Db) :
  exists r db',
    authenticateApiRequest hdrs now db = Ok (r, db')
    /\ match r with
       | AuthError _ status _ =>
           (status = 401 /\ db' = db)
           \/ (status = 429
               /\ exists authHeader id k,
                    hdrs !! "authorization" = Some authHeader
                    /\ credentialOf (Js.substringFrom 7 authHeader) db = Some (id, k)
                    /\ apiKey db !! id = Some k
                    /\ ApiKey.isActive k = true
                    /\ ApiKey.rateLimit k <= recentUsage id now db
                    /\ db' = setApiKey
                               (<[id := ApiKeyUpdate.apply (usageUpdate now) k]> (apiKey db))
                               db)
       | AuthOk credential organization _ =>
           exists authHeader,
             hdrs !! "authorization" = Some authHeader
             /\ Js.startsWith authHeader "Bearer " = true
             /\ credentialOf (Js.substringFrom 7 authHeader) db = Some credential
             /\ apiKey db !! credential.1 = Some credential.2
             /\ organization = ApiKey.organizationId credential.2
             /\ ApiKey.isActive credential.2 = true
             /\ expired credential.2 now = false
             /\ recentUsage credential.1 now db < ApiKey.rateLimit credential.2
             /\ db' = setApiKey
                        (<[credential.1 := ApiKeyUpdate.apply (usageUpdate now) credential.2]>
                           (apiKey db))
                        db
       end.
Proof.
  unfold authenticateApiRequest.
  destruct (hdrs !! "authorization") as [authHeader|] eqn:Eh.
  2:{ do 2 eexists. split; [reflexivity|]. left. split; reflexivity. }
  destruct (Js.startsWith authHeader "Bearer ") eqn:Eb; cbn [negb].
  2:{ do 2 eexists. split; [reflexivity|]. left. split; reflexivity. }
  unfold bind at 1.
  destruct (validateApiKey (Js.substringFrom 7 authHeader) now db)
    as [[r d1]|e] eqn:Ev.
  2:{ rewrite validateApiKey_eq in Ev.
      repeat match type of Ev with
             | (if ?c then _ else _) = _ => destruct c
             | match ?c with _ => _ end = _ => destruct c as [[? ?]|]
             end; discriminate. }
  destruct (validateApiKey_effect _ _ _ _ _ Ev)
    as [[-> ->]|(id & k & -> & Hc & Hst & Hact & Hexp & ->)].
  { do 2 eexists. split; [reflexivity|]. left. split; reflexivity. }
  cbn [Validated.apiKey Validated.organization fst snd].
  unfold bind. rewrite checkRateLimit_eq. cbn [RateLimit.allowed].
  assert (Hu : recentUsage id now
                 (setApiKey (<[id := ApiKeyUpdate.apply (usageUpdate now) k]> (apiKey db)) db)
               = recentUsage id now db) by reflexivity.
  rewrite Hu.
  destruct (Z.ltb_spec 0 (Z.max 0 (ApiKey.rateLimit k - recentUsage id now db)));
    cbn [negb]; unfold ret; do 2 eexists; (split; [reflexivity|]).
  - exists authHeader. cbn [fst snd]. split_all; try reflexivity; try assumption. lia.
  - right. split; [reflexivity|]. exists authHeader, id, k.
    split_all; try reflexivity; try assumption. lia.
Qed.

(** One gateway operation: the subscriptions and delivery rows stay, the
    audit log grows by at most one row, an issuance or a revocation record,
    and the credentials stay, or one evolves, or a new one with a new hash
    is added. *)
Lemma gatewayStep_effect {env : Env} (db db' : Db) :
  gatewayStep db db' ->
  webhook db' = webhook db
  /\ webhookDelivery db' = webhookDelivery db
  /\ (exists suffix,
        auditLog db' = (auditLog db ++ suffix)%list
        /\ (length suffix <= 1)%nat
        /\ Forall (fun l => AuditLog.action l = "api_key.created"
                            \/ AuditLog.action l = "api_key.deleted") suffix)
  /\ (apiKey db' = apiKey db
      \/ (exists id k k',
            apiKey db !! id = Some k
            /\ apiKey db' = <[id := k']> (apiKey db)
            /\ credentialEvolves k k')
      \/ (exists id row,
            apiKey db !! id = None
            /\ apiKey db' = <[id := row]> (apiKey db)
            /\ forall i r, apiKey db !! i = Some r -> ApiKey.key r <> ApiKey.key row)).
Proof.
  assert (Hnil : forall d : Db,
             exists suffix,
               auditLog d = (auditLog d ++ suffix)%list
               /\ (length suffix <= 1)%nat
               /\ Forall (fun l => AuditLog.action l = "api_key.created"
                                   \/ AuditLog.action l = "api_key.deleted") suffix).
  { intros d. exists []. rewrite app_nil_r. split_all; [reflexivity | simpl; lia | constructor]. }
  intros [key now d r d' H
         |hdrs now d r d' H
         |organizationId name scopes createdBy expiresAt rnd newId hdrs now d r d' H
         |apiKeyId organizationId revokedBy hdrs now d r d' H].
  - destruct (validateApiKey_effect _ _ _ _ _ H)
      as [[_ ->]|(id & k & _ & _ & Hst & _ & _ & ->)].
    + split_all; try reflexivity; [exact (Hnil d) | now left].
    + split_all; try reflexivity; [exact (Hnil d)|].
      right; left. exists id, k, (ApiKeyUpdate.apply (usageUpdate now) k).
      split_all; [exact Hst | reflexivity | apply usageUpdate_evolves].
  - destruct (authenticateApiRequest_cases hdrs now d) as (r0 & d0 & Hrun & Hcase).
    rewrite Hrun in H. injection H as <- <-.
    destruct r0 as [e status hs|credential organization hs].
    + destruct Hcase as [[_ ->]|(_ & authHeader & id & k & _ & _ & Hst & _ & _ & ->)].
      * split_all; try reflexivity; [exact (Hnil d) | now left].
      * split_all; try reflexivity; [exact (Hnil d)|].
        right; left. exists id, k, (ApiKeyUpdate.apply (usageUpdate now) k).
        split_all; [exact Hst | reflexivity | apply usageUpdate_evolves].
    + destruct Hcase as (authHeader & _ & _ & _ & Hst & _ & _ & _ & _ & ->).
      split_all; try reflexivity; [exact (Hnil d)|].
      right; left.
      exists credential.1, credential.2,
             (ApiKeyUpdate.apply (usageUpdate now) credential.2).
      split_all; [exact Hst | reflexivity | apply usageUpdate_evolves].
  - destruct (createApiKey_effect _ _ _ _ _ _ _ _ _ _ _ _ H)
      as (Hnew & Hfresh & _ & _ & Hk & Hw & Hd & l & Hl & Hact & _).
    split_all; try assumption.
    + exists [l]. split_all; [exact Hl | simpl; lia |].
      apply Forall_singleton. now left.
    + right; right. eexists _, _. split_all; [exact Hnew | exact Hk | exact Hfresh].
  - pose proof (revokeApiKey_effect apiKeyId organizationId revokedBy hdrs now d) as He.
    destruct (apiKey d !! apiKeyId) as [k|] eqn:Hk; [|congruence].
    destruct (String.eqb (ApiKey.organizationId k) organizationId); [|congruence].
    destruct He as (l & Hrun & Hact & _). rewrite Hrun in H. injection H as _ <-.
    cbn [apiKey webhook webhookDelivery auditLog].
    split_all; try reflexivity.
    + exists [l]. split_all; [reflexivity | simpl; lia |].
      apply Forall_singleton. now right.
    + right; left. exists apiKeyId, k, (ApiKeyUpdate.apply revokeUpdate k).
      split_all; [exact Hk | reflexivity | apply revokeUpdate_evolves].
Qed.

Lemma gatewayStep_credential {env : Env} (db db' : Db) (id : string) (k : ApiKey.t) :
  gatewayStep db db' ->
  apiKey db !! id = Some k ->
  exists k', apiKey db' !! id = Some k' /\ credentialEvolves k k'.
Proof.
  intros Hstep Hk.
  destruct (gatewayStep_effect db db' Hstep)
    as (_ & _ & _ & [->|[(i & k0 & k1 & Hi & -> & Hev)|(i & row & Hi & -> & _)]]).
  - exists k. split; [exact Hk | apply credentialEvolves_refl].
  - destruct (decide (i = id)) as [->|Hne].
    + rewrite Hi in Hk. injection Hk as <-.
      exists k1. split; [apply lookup_insert_eq | exact Hev].
    + exists k. rewrite lookup_insert_ne by exact Hne.
      split; [exact Hk | apply credentialEvolves_refl].
  - exists k. rewrite lookup_insert_ne by congruence.
    split; [exact Hk | apply credentialEvolves_refl].
Qed.

(** X9: through any sequence of gateway operations a stored credential
    is never removed; its tenant, name, hash, scopes, expiry and rate limit
    never change, its usage counter never decreases, and once inactive it
    stays inactive. *)
Theorem gateway_preserves_credentials {env : Env} (db db' : Db) (id : string)
    (k : ApiKey.t) :
  rtc gatewayStep db db' ->
  apiKey db !! id = Some k ->
  exists k',
    apiKey db' !! id = Some k'
    /\ ApiKey.organizationId k' = ApiKey.organizationId k
    /\ ApiKey.name k' = ApiKey.name k
    /\ ApiKey.key k' = ApiKey.key k
    /\ ApiKey.scopes k' = ApiKey.scopes k
    /\ ApiKey.expiresAt k' = ApiKey.expiresAt k
    /\ ApiKey.rateLimit k' = ApiKey.rateLimit k
    /\ ApiKey.usageCount k <= ApiKey.usageCount k'
    /\ (ApiKey.isActive k = false -> ApiKey.isActive k' = false).
Proof.
  intros Hreach Hk.
  assert (exists k', apiKey db' !! id = Some k' /\ credentialEvolves k k')
    as (k' & Hk' & Hev).
  { revert k Hk. induction Hreach as [d|d1 d2 d3 Hstep _ IH]; intros k Hk.
    - exists k. split; [exact Hk | apply credentialEvolves_refl].
    - destruct (gatewayStep_credential d1 d2 id k Hstep Hk) as (k2 & Hk2 & Hev2).
      destruct (IH k2 Hk2) as (k3 & Hk3 & Hev3).
      exists k3. split; [exact Hk3 | eapply credentialEvolves_trans; eassumption]. }
  exists k'. split; [exact Hk'|].
  destruct Hev as (A1 & A2 & A3 & A4 & A5 & A6 & A7 & A8 & A9 & A10).
  split_all; assumption.
Qed.

Lemma gatewayStep_uniqueHashes {env : Env} (db db' : Db) :
  gatewayStep db db' -> uniqueHashes db -> uniqueHashes db'.
Proof.
  intros Hstep Hu.
  destruct (gatewayStep_effect db db' Hstep)
    as (_ & _ & _ & [Heq|[(id & k & k' & Hk & Heq & Hev)|(id & row & Hnew & Heq & Hfresh)]]);
    unfold uniqueHashes; rewrite Heq; [exact Hu | |].
  - assert (Hback : forall i r, <[id := k']> (apiKey db) !! i = Some r ->
                                exists r0, apiKey db !! i = Some r0
                                           /\ ApiKey.key r0 = ApiKey.key r).
    { intros i r Hi. apply lookup_insert_Some in Hi as [[<- <-]|[Hne Hi]].
      - exists k. split; [exact Hk|]. symmetry. apply Hev.
      - eauto. }
    intros i j ki kj Hi Hj Hkey.
    destruct (Hback i ki Hi) as (ri & Hri & Hkri).
    destruct (Hback j kj Hj) as (rj & Hrj & Hkrj).
    apply (Hu i j ri rj Hri Hrj). congruence.
  - intros i j ki kj Hi Hj Hkey.
    apply lookup_insert_Some in Hi as [[Hi1 Hi2]|[Hni Hi]];
      apply lookup_insert_Some in Hj as [[Hj1 Hj2]|[Hnj Hj]].
    + congruence.
    + exfalso. apply (Hfresh j kj Hj). congruence.
    + exfalso. apply (Hfresh i ki Hi). congruence.
    + eapply Hu; eassumption.
Qed.

(** X10: no two credentials ever share a hash: starting from a store
    with pairwise different hashes (the empty one, for instance), every
    store the gateway operations reach has pairwise different hashes. *)
Theorem gateway_keeps_hashes_unique {env : Env} (db db' : Db) :
  uniqueHashes db ->
  rtc gatewayStep db db' ->
  uniqueHashes db'.
Proof.
  intros Hu Hreach. induction Hreach as [d|d1 d2 d3 Hstep _ IH]; [exact Hu|].
  apply IH. eapply gatewayStep_uniqueHashes; eassumption.
Qed.

(** X11: the gateway operations never touch the subscriptions or the
    delivery rows, and only append to the audit log: the rows it had stay,
    in place, and every row added is an [api_key.created] or an
    [api_key.deleted] record (a successful or refused use of a key is not
    recorded). *)
Theorem gateway_appends_to_audit_log {env : Env} (db db' : Db) :
  rtc gatewayStep db db' ->
  webhook db' = webhook db
  /\ webhookDelivery db' = webhookDelivery db
  /\ exists suffix,
       auditLog db' = (auditLog db ++ suffix)%list
       /\ Forall (fun l => AuditLog.action l = "api_key.created"
                           \/ AuditLog.action l = "api_key.deleted") suffix.
Proof.
  intros Hreach. induction Hreach as [d|d1 d2 d3 Hstep _ IH].
  - split_all; try reflexivity. exists []. rewrite app_nil_r. split; [reflexivity | constructor].
  - destruct (gatewayStep_effect d1 d2 Hstep) as (Hw & Hd & (s1 & Hs1 & _ & Hf1) & _).
    destruct IH as (Hw2 & Hd2 & s2 & Hs2 & Hf2).
    split_all; [congruence | congruence |].
    exists (s1 ++ s2)%list. split.
    + rewrite Hs2, Hs1, app_assoc. reflexivity.
    + apply Forall_app. split; assumption.
Qed.


Lemma substringFrom_app (a b : string) :
  Js.substringFrom (String.length a) (a +:+ b) = b.
Proof.
  unfold Js.substringFrom. rewrite length_append.
  replace (String.length a + String.length b - String.length a)%nat
    with (String.length b) by lia.
  rewrite substring_skip_app. apply substring_0_length.
Qed.

Lemma credentialOf_unique {env : Env} (key : string) (db : Db) (id : string)
    (k : ApiKey.t) :
  uniqueHashes db ->
  apiKey db !! id = Some k ->
  ApiKey.key k = digestHex (sha256 key) ->
  credentialOf key db = Some (id, k).
Proof.
  intros Hu Hk Hhash. unfold credentialOf. apply find_unique.
  - apply elem_of_map_to_list. exact Hk.
  - apply String.eqb_eq. exact Hhash.
  - intros [j r] Hin Heq. apply elem_of_map_to_list in Hin.
    apply String.eqb_eq in Heq. cbn [snd] in Heq.
    assert (j = id) as -> by (apply (Hu j id r k Hin Hk); congruence).
    congruence.
Qed.

(** The credential found for the raw key of a successful issuance is the
    row the issuance stored. *)
Lemma createApiKey_credentialOf {env : Env} (organizationId name : string)
    (scopes : list string) (createdBy : string) (expiresAt : option Z)
    (rnd newId : string) (hdrs : Headers) (now : Z) (db db1 : Db)
    (created : string * ApiKey.t) :
  createApiKey organizationId name scopes createdBy expiresAt rnd newId hdrs now db
  = Ok (created, db1) ->
  credentialOf (ApiKey.key created.2) db1
  = Some (newId,
          newApiKeyRow organizationId name (digestHex (sha256 (API_KEY_PREFIX +:+ rnd)))
            (Js.substring0 12 (API_KEY_PREFIX +:+ rnd)) scopes expiresAt createdBy).
Proof.
  intros Hc.
  destruct (createApiKey_effect _ _ _ _ _ _ _ _ _ _ _ _ Hc)
    as (Hnew & Hfresh & _ & Hkey & Hdb & _).
  rewrite Hkey. unfold credentialOf. apply find_unique.
  - apply elem_of_map_to_list. rewrite Hdb. apply lookup_insert_eq.
  - apply String.eqb_eq. reflexivity.
  - intros [i r] Hin Heq. apply elem_of_map_to_list in Hin.
    apply String.eqb_eq in Heq. cbn [snd] in Heq. rewrite Hdb in Hin.
    apply lookup_insert_Some in Hin as [[<- <-]|[Hne Hin]]; [reflexivity|].
    exfalso. apply (Hfresh i r Hin). exact Heq.
Qed.

(** X13: a request that carries the raw key of a fresh issuance as
    bearer token is accepted, when no usage is logged, the default rate
    limit is positive and any expiry has not passed: the answer names the
    issued credential, its tenant and scopes, and reports the whole rate
    limit as remaining. *)
Theorem createApiKey_then_authenticateApiRequest {env : Env}
    (organizationId name : string) (scopes : list string) (createdBy : string)
    (expiresAt : option Z) (rnd newId : string) (hdrs hdrs2 : Headers)
    (now later : Z) (db db1 : Db) (created : string * ApiKey.t) :
  noUsageLogged db ->
  0 < defaultRateLimit ->
  (forall e, expiresAt = Some e -> later <= e) ->
  createApiKey organizationId name scopes createdBy expiresAt rnd newId hdrs now db
  = Ok (created, db1) ->
  hdrs2 !! "authorization" = Some ("Bearer " +:+ ApiKey.key created.2) ->
  exists credential hs db2,
    authenticateApiRequest hdrs2 later db1
    = Ok (AuthOk credential organizationId hs, db2)
    /\ credential.1 = created.1
    /\ ApiKey.organizationId credential.2 = organizationId
    /\ ApiKey.scopes credential.2 = scopes
    /\ In ("X-RateLimit-Remaining", Js.numberToString defaultRateLimit) hs.
Proof.
  intros Hinv Hpos Hexp Hc Hh.
  pose proof (createApiKey_credentialOf _ _ _ _ _ _ _ _ _ _ _ _ Hc) as Hcred.
  destruct (createApiKey_effect _ _ _ _ _ _ _ _ _ _ _ _ Hc)
    as (_ & _ & Hid & Hkey & _ & _ & _ & l & Hl & Hact & _).
  assert (Hinv1 : noUsageLogged db1).
  { unfold noUsageLogged. rewrite Hl. apply Forall_app. split; [exact Hinv|].
    apply Forall_singleton. rewrite Hact. discriminate. }
  unfold authenticateApiRequest. rewrite Hh.
  unfold Js.startsWith at 1. rewrite prefix_app. cbn [negb].
  change 7%nat with (String.length "Bearer "). rewrite substringFrom_app.
  unfold bind at 1. rewrite validateApiKey_eq, Hcred.
  rewrite Hkey. unfold Js.startsWith. rewrite prefix_app. cbn [negb].
  unfold newApiKeyRow at 1. cbn [ApiKey.isActive negb].
  replace (expired _ later) with false.
  2:{ unfold expired, newApiKeyRow. cbn [ApiKey.expiresAt].
      destruct expiresAt as [e|]; [|reflexivity].
      symmetry. apply Z.ltb_ge. now apply Hexp. }
  cbn [Validated.apiKey Validated.organization fst snd].
  unfold bind. rewrite noUsageLogged_checkRateLimit by exact Hinv1.
  cbn [RateLimit.allowed RateLimit.remaining].
  apply Z.ltb_lt in Hpos.
  unfold newApiKeyRow at 1 2.
  cbn [ApiKey.rateLimit ApiKey.organizationId].
  rewrite Hpos. cbn [negb]. unfold ret.
  do 3 eexists. split; [reflexivity|]. cbn [fst snd].
  split_all; try reflexivity.
  - now rewrite Hid.
  - right. left. f_equal. f_equal.
    unfold newApiKeyRow. cbn [ApiKey.rateLimit]. apply Z.ltb_lt in Hpos. lia.
Qed.

(** X14: a revocation succeeds exactly for a stored credential of the
    given tenant: it then stores the credential inactive, with every other
    field of it (tenant, name, hash, display prefix, scopes, expiry,
    creator, last use, usage counter, rate limit) as it was, leaves every
    other credential, the subscriptions and the delivery rows unchanged,
    and appends one [api_key.deleted] audit row naming the credential, the
    tenant and the revoking user. For an unknown id, or a credential of another tenant, it
    throws the record-not-found error of the store. *)
Theorem revokeApiKey_only_own_credential (apiKeyId organizationId revokedBy : string)
    (hdrs : Headers) (now : Z) (db : Db) :
  (forall k,
      apiKey db !! apiKeyId = Some k ->
      ApiKey.organizationId k = organizationId ->
      exists r db' l,
        revokeApiKey apiKeyId organizationId revokedBy hdrs now db = Ok (r, db')
        /\ apiKey db' !! apiKeyId = Some r
        /\ r = {| ApiKey.organizationId := ApiKey.organizationId k;
                  ApiKey.name := ApiKey.name k;
                  ApiKey.key := ApiKey.key k;
                  ApiKey.keyPrefix := ApiKey.keyPrefix k;
                  ApiKey.scopes := ApiKey.scopes k;
                  ApiKey.expiresAt := ApiKey.expiresAt k;
                  ApiKey.createdBy := ApiKey.createdBy k;
                  ApiKey.isActive := false;
                  ApiKey.lastUsedAt := ApiKey.lastUsedAt k;
                  ApiKey.usageCount := ApiKey.usageCount k;
                  ApiKey.rateLimit := ApiKey.rateLimit k |}
        /\ (forall j, j <> apiKeyId -> apiKey db' !! j = apiKey db !! j)
        /\ webhook db' = webhook db
        /\ webhookDelivery db' = webhookDelivery db
        /\ auditLog db' = (auditLog db ++ [l])%list
        /\ AuditLog.action l = "api_key.deleted"
        /\ AuditLog.entityId l = Some apiKeyId
        /\ AuditLog.organizationId l = organizationId
        /\ AuditLog.userId l = revokedBy)
  /\ (apiKey db !! apiKeyId = None
      \/ (exists k, apiKey db !! apiKeyId = Some k
                    /\ ApiKey.organizationId k <> organizationId) ->
      revokeApiKey apiKeyId organizationId revokedBy hdrs now db
      = Throw (PrismaRecordNotFound "ApiKey")).
Proof.
  pose proof (revokeApiKey_effect apiKeyId organizationId revokedBy hdrs now db) as He.
  split.
  - intros k Hk Horg. rewrite Hk in He.
    apply String.eqb_eq in Horg. rewrite Horg in He.
    destruct He as (l & Hrun & Hact & Hent & Hlorg & Huser).
    do 3 eexists. split; [exact Hrun|]. cbn [apiKey auditLog].
    split_all; try reflexivity; try assumption.
    + apply lookup_insert_eq.
    + intros j Hne. now rewrite lookup_insert_ne by congruence.
  - intros [Hnone|(k & Hk & Hne)].
    + now rewrite Hnone in He.
    + rewrite Hk in He. apply String.eqb_neq in Hne. now rewrite Hne in He.
Qed.

(** X15: a revoked credential no longer authenticates: after a
    revocation of the credential a raw key resolves to (hashes being
    pairwise different), [validateApiKey] answers [null] for that key at
    any later time and leaves the store as it is. *)
Theorem revokeApiKey_then_validateApiKey {env : Env} (key : string)
    (apiKeyId organizationId revokedBy : string) (hdrs : Headers) (now : Z)
    (db : Db) (k : ApiKey.t) :
  uniqueHashes db ->
  credentialOf key db = Some (apiKeyId, k) ->
  ApiKey.organizationId k = organizationId ->
  exists r db1,
    revokeApiKey apiKeyId organizationId revokedBy hdrs now db = Ok (r, db1)
    /\ forall later, validateApiKey key later db1 = Ok (None, db1).
Proof.
  intros Hu Hc Horg.
  destruct (credentialOf_stored key db apiKeyId k Hc) as [Hk Hhash].
  pose proof (revokeApiKey_effect apiKeyId organizationId revokedBy hdrs now db) as He.
  rewrite Hk in He. apply String.eqb_eq in Horg. rewrite Horg in He.
  destruct He as (l & Hrun & _).
  do 2 eexists. split; [exact Hrun|].
  intros later. rewrite validateApiKey_eq.
  destruct (negb (Js.startsWith key API_KEY_PREFIX)); [reflexivity|].
  rewrite (credentialOf_unique key _ apiKeyId (ApiKeyUpdate.apply revokeUpdate k)).
  - reflexivity.
  - eapply gatewayStep_uniqueHashes; [|exact Hu].
    eapply step_revokeApiKey. exact Hrun.
  - cbn [apiKey]. apply lookup_insert_eq.
  - exact Hhash.
Qed.

Lemma substring_0_prefix (k : nat) (s : string) :
  String.prefix (substring 0 k s) s = true.
Proof.
  revert s. induction k as [|k IH]; intros s.
  - destruct s; reflexivity.
  - destruct s as [|c s]; [reflexivity|].
    simpl. destruct (ascii_dec c c) as [_|Hne]; [apply IH | congruence].
Qed.

Lemma substring_0_length_min (k : nat) (s : string) :
  String.length (substring 0 k s) = Nat.min k (String.length s).
Proof.
  revert s. induction k as [|k IH]; intros s.
  - destruct s; reflexivity.
  - destruct s as [|c s]; [reflexivity|]. simpl. now rewrite IH.
Qed.

(** X16: a generated key is the prefix [ip_] followed by the random
    text, so it passes the prefix check of [validateApiKey]; its stored
    hash is the 64-digit digest the validation recomputes; and the display
    prefix is the first 12 characters of the key (the whole key when it is
    shorter), never more. *)
Theorem generateApiKey_shape {env : Env} (rnd : string) :
  exists key hash prefix,
    generateApiKey rnd = (key, hash, prefix)
    /\ key = API_KEY_PREFIX +:+ rnd
    /\ Js.startsWith key API_KEY_PREFIX = true
    /\ hash = digestHex (sha256 key)
    /\ String.length hash = 64%nat
    /\ Js.startsWith key prefix = true
    /\ String.length prefix = Nat.min 12 (String.length key).
Proof.
  unfold generateApiKey. do 3 eexists. split; [reflexivity|].
  split_all;
    first [ apply prefix_app | apply digestHex_length | apply substring_0_prefix
          | apply substring_0_length_min | reflexivity ].
Qed.

Lemma hasScope_app (scopes more : list string) (requiredScope : string) :
  hasScope (scopes ++ more)%list requiredScope
  = hasScope scopes requiredScope || hasScope more requiredScope.
Proof.
  unfold hasScope, Js.includes, Js.some. rewrite !existsb_app.
  repeat match goal with
         | |- context [existsb ?p ?l] =>
             let b := fresh "b" in
             generalize (existsb p l); intros b
         end.
  destruct b, b0, b1, b2, b3, b4; reflexivity.
Qed.

(** X17: what [hasScope] decides. It grants a required scope exactly
    when the key's scopes contain [*], contain the required scope itself,
    or contain an entry [X.*] such that the required scope starts with [X].
    So a key without scopes is granted nothing, and adding scopes to a key
    never takes a grant away. *)
Theorem hasScope_decides (scopes : list string) (requiredScope : string) :
  (hasScope scopes requiredScope = true
   <-> In "*" scopes \/ In requiredScope scopes
       \/ exists X, In (X +:+ ".*") scopes /\ Js.startsWith requiredScope X = true)
  /\ hasScope [] requiredScope = false
  /\ forall more,
       hasScope scopes requiredScope = true ->
       hasScope (scopes ++ more)%list requiredScope = true
       /\ hasScope (more ++ scopes)%list requiredScope = true.
Proof.
  split; [apply hasScope_iff|]. split; [reflexivity|].
  intros more H. rewrite !hasScope_app, H.
  split; [reflexivity | apply orb_true_r].
Qed.

(** ** Plan limits *)

Lemma ceilGB_bounds (bytes : Z) :
  (ceilGB bytes - 1) * (1024 * 1024 * 1024) < bytes <= ceilGB bytes * (1024 * 1024 * 1024).
Proof.
  unfold ceilGB.
  pose proof (Z.div_mod (- bytes) (1024 * 1024 * 1024) ltac:(lia)) as Hdm.
  pose proof (Z.mod_pos_bound (- bytes) (1024 * 1024 * 1024) ltac:(lia)) as Hb.
  lia.
Qed.

Lemma checkPlanLimit_storage_current (organizationId : string) (startOfMonth : Z)
    (db : BillingDb) (org : Organization.t) :
  organization db !! organizationId = Some org ->
  checkPlanLimit organizationId LimitType.storage startOfMonth db
  = let limit := PlanFeatures.maxStorageGB (getPlanFeatures (Organization.plan org)) in
    let current := ceilGB (storedBytes organizationId db) in
    {| PlanLimit.allowed := (limit =? -1) || (current <? limit);
       PlanLimit.limit := limit;
       PlanLimit.current := current |}.
Proof.
  intros Ho. unfold checkPlanLimit, storedBytes. rewrite Ho. cbv zeta.
  destruct (sumFileSize organizationId (recording db)) as [total|]; [|reflexivity].
  cbn [default from_option id].
  destruct (Z.eqb_spec total 0) as [->|_]; reflexivity.
Qed.

(** X18: the storage check counts started gigabytes: the current usage
    it reports is the stored bytes divided by 2^30 and rounded up, and, on a
    plan with a storage limit, it allows exactly when the stored bytes do
    not exceed the limit less one gigabyte (on the FREE plan, limit 1, only
    when nothing is stored). *)
Theorem checkPlanLimit_storage_threshold (organizationId : string) (startOfMonth : Z)
    (db : BillingDb) (org : Organization.t) :
  organization db !! organizationId = Some org ->
  Organization.plan org <> ENTERPRISE ->
  let r := checkPlanLimit organizationId LimitType.storage startOfMonth db in
  PlanLimit.limit r = PlanFeatures.maxStorageGB (getPlanFeatures (Organization.plan org))
  /\ (PlanLimit.current r - 1) * (1024 * 1024 * 1024) < storedBytes organizationId db
  /\ storedBytes organizationId db <= PlanLimit.current r * (1024 * 1024 * 1024)
  /\ (PlanLimit.allowed r = true
      <-> storedBytes organizationId db <= (PlanLimit.limit r - 1) * (1024 * 1024 * 1024)).
Proof.
  intros Ho Hplan r. subst r.
  rewrite (checkPlanLimit_storage_current organizationId startOfMonth db org Ho).
  cbv zeta. cbn [PlanLimit.allowed PlanLimit.limit PlanLimit.current].
  pose proof (ceilGB_bounds (storedBytes organizationId db)) as Hb.
  split_all; [reflexivity | lia | lia |].
  rewrite orb_true_iff, Z.eqb_eq, Z.ltb_lt.
  destruct (Organization.plan org); try congruence;
    cbn [getPlanFeatures PLANS PlanConfig.features PlanFeatures.maxStorageGB] in *; lia.
Qed.

(** X19: raising the plan of an organization never turns an allowed
    action into a refused one: with the same members, cases and recordings,
    whatever [checkPlanLimit] allows on a plan it allows on every higher
    plan (FREE, STARTER, PROFESSIONAL, ENTERPRISE in this order), for every
    kind of limit. *)
Theorem checkPlanLimit_upgrade_keeps_allowed (organizationId : string)
    (limitType : LimitType.t) (startOfMonth : Z) (db db' : BillingDb)
    (org org' : Organization.t) :
  organization db !! organizationId = Some org ->
  organization db' !! organizationId = Some org' ->
  member db' = member db ->
  case_ db' = case_ db ->
  recording db' = recording db ->
  planRank (Organization.plan org) <= planRank (Organization.plan org') ->
  PlanLimit.allowed (checkPlanLimit organizationId limitType startOfMonth db) = true ->
  PlanLimit.allowed (checkPlanLimit organizationId limitType startOfMonth db') = true.
Proof.
  intros Ho Ho' Hm Hc Hr Hrank.
  unfold checkPlanLimit. rewrite Ho, Ho', Hm, Hc, Hr.
  set (cm := countOf organizationId (member db)).
  set (cc := countOf organizationId (case_ db)).
  set (cr := recordingsSince organizationId startOfMonth (recording db)).
  set (cs := ceilGB _).
  clearbody cm cc cr cs.
  destruct limitType; cbv beta iota zeta;
    cbn [PlanLimit.allowed];
    rewrite !orb_true_iff, !Z.eqb_eq, !Z.ltb_lt;
    destruct (Organization.plan org), (Organization.plan org');
    cbn [getPlanFeatures PLANS PlanConfig.features PlanFeatures.maxMembers
           PlanFeatures.maxCases PlanFeatures.maxRecordingsPerMonth
           PlanFeatures.maxStorageGB planRank] in *;
    lia.
Qed.

(** X20: an organization the store does not know is refused with limit
    0 and current 0, and an ENTERPRISE organization is allowed for every
    kind of limit, whatever it has, with the limit reported as -1. *)
Theorem checkPlanLimit_missing_and_unlimited (organizationId : string)
    (limitType : LimitType.t) (startOfMonth : Z) (db : BillingDb) :
  (organization db !! organizationId = None ->
   checkPlanLimit organizationId limitType startOfMonth db
   = {| PlanLimit.allowed := false; PlanLimit.limit := 0; PlanLimit.current := 0 |})
  /\ (forall org,
        organization db !! organizationId = Some org ->
        Organization.plan org = ENTERPRISE ->
        PlanLimit.allowed (checkPlanLimit organizationId limitType startOfMonth db) = true
        /\ PlanLimit.limit (checkPlanLimit organizationId limitType startOfMonth db) = -1).
Proof.
  unfold checkPlanLimit. split.
  - intros ->. reflexivity.
  - intros org -> ->. destruct limitType; split; reflexivity.
Qed.

(** ** Stripe subscription events *)

Lemma organization_update_effect (id : string) (f : Organization.t -> Organization.t)
    (db db' : BillingDb) :
  organization_update id f db = Ok db' ->
  exists org,
    organization db !! id = Some org
    /\ db' = {| organization := <[id := f org]> (organization db);
                member := member db;
                case_ := case_ db;
                recording := recording db |}.
Proof.
  unfold organization_update. destruct (organization db !! id) as [org|]; [|discriminate].
  intros H. injection H as <-. eauto.
Qed.

(** A handled event leaves the store as it is, or rewrites the row of the
    organization it names. *)
Lemma handleSubscriptionEvent_effect (event : StripeEvent) (db db' : BillingDb) :
  handleSubscriptionEvent event db = Ok db' ->
  db' = db
  \/ exists id org org',
       eventOrganization event = Some id
       /\ organization db !! id = Some org
       /\ db' = {| organization := <[id := org']> (organization db);
                   member := member db;
                   case_ := case_ db;
                   recording := recording db |}.
Proof.
  destruct event as [metadata customer subscription|metadata cancel_at|metadata|i|t];
    cbn [handleSubscriptionEvent eventOrganization]; intros H;
    try (injection H as <-; now left).
  - destruct (truthyField metadata "organizationId") as [id|];
      [|injection H as <-; now left].
    destruct (truthyField metadata "plan") as [plan|];
      [|injection H as <-; now left].
    destruct (Plan_ofString plan) as [p|]; [|discriminate].
    apply organization_update_effect in H as (org & Ho & ->).
    right. eexists id, org, _. split_all; [reflexivity | exact Ho | reflexivity].
  - destruct (truthyField metadata "organizationId") as [id|];
      [|injection H as <-; now left].
    destruct (truthyField metadata "plan") as [plan|].
    + destruct (Plan_ofString plan) as [p|]; [|discriminate].
      apply organization_update_effect in H as (org & Ho & ->).
      right. eexists id, org, _. split_all; [reflexivity | exact Ho | reflexivity].
    + apply organization_update_effect in H as (org & Ho & ->).
      right. eexists id, org, _. split_all; [reflexivity | exact Ho | reflexivity].
  - destruct (truthyField metadata "organizationId") as [id|];
      [|injection H as <-; now left].
    apply organization_update_effect in H as (org & Ho & ->).
    right. eexists id, org, _. split_all; [reflexivity | exact Ho | reflexivity].
Qed.

(** X21: a handled Stripe event never touches members, cases or
    recordings, adds or removes no organization, and changes no
    organization but the one its metadata names; an event that names none
    (no metadata, an empty id, a failed payment, any other type) leaves the
    store as it is. *)
Theorem handleSubscriptionEvent_touches_only_named_organization (event : StripeEvent)
    (db db' : BillingDb) :
  handleSubscriptionEvent event db = Ok db' ->
  member db' = member db
  /\ case_ db' = case_ db
  /\ recording db' = recording db
  /\ (eventOrganization event = None -> db' = db)
  /\ (forall id, eventOrganization event <> Some id ->
                 organization db' !! id = organization db !! id)
  /\ (forall id, organization db' !! id = None <-> organization db !! id = None).
Proof.
  intros H.
  destruct (handleSubscriptionEvent_effect event db db' H)
    as [->|(id & org & org' & He & Ho & ->)].
  - split_all; reflexivity || tauto.
  - cbn [member case_ recording organization].
    split_all; try reflexivity.
    + congruence.
    + intros j Hne. apply lookup_insert_ne. congruence.
    + intros j. rewrite lookup_insert_None. split; [tauto|].
      intros Hj. split; [exact Hj | congruence].
Qed.

Lemma checkPlanLimit_current_same (organizationId : string) (limitType : LimitType.t)
    (startOfMonth : Z) (db db' : BillingDb) (org org' : Organization.t) :
  organization db !! organizationId = Some org ->
  organization db' !! organizationId = Some org' ->
  member db' = member db -> case_ db' = case_ db -> recording db' = recording db ->
  PlanLimit.current (checkPlanLimit organizationId limitType startOfMonth db')
  = PlanLimit.current (checkPlanLimit organizationId limitType startOfMonth db)
  /\ PlanLimit.limit (checkPlanLimit organizationId limitType startOfMonth db')
     = match limitType with
       | LimitType.members =>
           PlanFeatures.maxMembers (getPlanFeatures (Organization.plan org'))
       | LimitType.cases =>
           PlanFeatures.maxCases (getPlanFeatures (Organization.plan org'))
       | LimitType.recordings =>
           PlanFeatures.maxRecordingsPerMonth (getPlanFeatures (Organization.plan org'))
       | LimitType.storage =>
           PlanFeatures.maxStorageGB (getPlanFeatures (Organization.plan org'))
       end.
Proof.
  intros Ho Ho' Hm Hc Hr. unfold checkPlanLimit. rewrite Ho, Ho', Hm, Hc, Hr.
  destruct limitType; split; reflexivity.
Qed.

(** X22: when Stripe reports the subscription of a stored organization
    deleted, the organization falls back to the FREE plan, without
    subscription id or plan expiry and with its customer id kept; from then
    on [checkPlanLimit] applies the FREE limits (2 members, 10 cases, 5
    recordings a month, 1 GB) to the unchanged counts. *)
Theorem subscription_deleted_falls_back_to_free
    (metadata : option (gmap string string)) (organizationId : string)
    (db : BillingDb) (org : Organization.t) :
  truthyField metadata "organizationId" = Some organizationId ->
  organization db !! organizationId = Some org ->
  exists db' org',
    handleSubscriptionEvent (customer_subscription_deleted metadata) db = Ok db'
    /\ organization db' !! organizationId = Some org'
    /\ Organization.plan org' = FREE
    /\ Organization.stripeSubscriptionId org' = None
    /\ Organization.planExpiresAt org' = None
    /\ Organization.stripeCustomerId org' = Organization.stripeCustomerId org
    /\ forall limitType startOfMonth,
         PlanLimit.limit (checkPlanLimit organizationId limitType startOfMonth db')
         = match limitType with
           | LimitType.members => 2
           | LimitType.cases => 10
           | LimitType.recordings => 5
           | LimitType.storage => 1
           end
         /\ PlanLimit.current (checkPlanLimit organizationId limitType startOfMonth db')
            = PlanLimit.current (checkPlanLimit organizationId limitType startOfMonth db).
Proof.
  intros Hmd Ho. cbn [handleSubscriptionEvent]. rewrite Hmd.
  unfold organization_update. rewrite Ho.
  do 2 eexists. split; [reflexivity|]. cbn [organization].
  split; [apply lookup_insert_eq|].
  split_all; try reflexivity.
  intros limitType startOfMonth.
  match goal with
  | |- context [checkPlanLimit _ _ _ ?d] =>
      destruct (checkPlanLimit_current_same organizationId limitType startOfMonth
                  db d org
                  {| Organization.plan := FREE;
                     Organization.stripeCustomerId := Organization.stripeCustomerId org;
                     Organization.stripeSubscriptionId := None;
                     Organization.planExpiresAt := None |}
                  Ho (lookup_insert_eq _ _ _) eq_refl eq_refl eq_refl) as [Hcur Hlim]
  end.
  split; [|exact Hcur].
  rewrite Hlim. destruct limitType; reflexivity.
Qed.

(** X23: a completed checkout that names a stored organization and one
    of the four plans puts the organization on that plan and records the
    Stripe customer and subscription; [checkPlanLimit] then applies that
    plan's limits to the unchanged counts. *)
Theorem checkout_completed_applies_plan
    (metadata : option (gmap string string)) (customer subscription : option string)
    (organizationId planName : string) (plan : Plan)
    (db : BillingDb) (org : Organization.t) :
  truthyField metadata "organizationId" = Some organizationId ->
  truthyField metadata "plan" = Some planName ->
  Plan_ofString planName = Some plan ->
  organization db !! organizationId = Some org ->
  exists db' org',
    handleSubscriptionEvent (checkout_session_completed metadata customer subscription) db
    = Ok db'
    /\ organization db' !! organizationId = Some org'
    /\ Organization.plan org' = plan
    /\ Organization.stripeCustomerId org' = customer
    /\ Organization.stripeSubscriptionId org' = subscription
    /\ Organization.planExpiresAt org' = Organization.planExpiresAt org
    /\ forall limitType startOfMonth,
         PlanLimit.limit (checkPlanLimit organizationId limitType startOfMonth db')
         = match limitType with
           | LimitType.members => PlanFeatures.maxMembers (getPlanFeatures plan)
           | LimitType.cases => PlanFeatures.maxCases (getPlanFeatures plan)
           | LimitType.recordings =>
               PlanFeatures.maxRecordingsPerMonth (getPlanFeatures plan)
           | LimitType.storage => PlanFeatures.maxStorageGB (getPlanFeatures plan)
           end
         /\ PlanLimit.current (checkPlanLimit organizationId limitType startOfMonth db')
            = PlanLimit.current (checkPlanLimit organizationId limitType startOfMonth db).
Proof.
  intros Hmd Hpl Hp Ho. cbn [handleSubscriptionEvent]. rewrite Hmd, Hpl, Hp.
  unfold organization_update. rewrite Ho.
  do 2 eexists. split; [reflexivity|]. cbn [organization].
  split; [apply lookup_insert_eq|].
  split_all; try reflexivity.
  intros limitType startOfMonth.
  match goal with
  | |- context [checkPlanLimit _ _ _ ?d] =>
      destruct (checkPlanLimit_current_same organizationId limitType startOfMonth
                  db d org
                  {| Organization.plan := plan;
                     Organization.stripeCustomerId := customer;
                     Organization.stripeSubscriptionId := subscription;
                     Organization.planExpiresAt := Organization.planExpiresAt org |}
                  Ho (lookup_insert_eq _ _ _) eq_refl eq_refl eq_refl) as [Hcur Hlim]
  end.
  split; [exact Hlim | exact Hcur].
Qed.

(** * The further properties on the sample stores *)

(** X5, on a store: subscriber B, at 9 failures, answers 500 to the
    dispatch of [case.created]; a later dispatch of [form.submitted], to
    which it is subscribed as well, writes no delivery row for it. *)
Lemma failing_subscription_dropped_witness :
  webhook dbThree !! "wh_b" = Some (sampleWebhook "https://b.example/hook" 9 true)
  /\ exists outcomes db1 r2 db2 created2,
       triggerWebhooks (env := sampleEnv) "org_1" case_created JNull 1000 dbThree
       = Ok (Some outcomes, db1)
       /\ triggerWebhooks (env := sampleEnv) "org_1" form_submitted JNull 2000 db1
          = Ok (r2, db2)
       /\ webhookDelivery db2 = (webhookDelivery db1 ++ created2)%list
       /\ "wh_b" ∉ (WebhookDelivery.webhookId <$> created2).
Proof.
  assert (Hw : webhook dbThree !! "wh_b"
               = Some (sampleWebhook "https://b.example/hook" 9 true))
    by (vm_compute; reflexivity).
  split; [exact Hw|].
  destruct (failing_subscription_dropped_from_later_dispatches (env := sampleEnv)
              "org_1" case_created JNull 1000 dbThree "wh_b" _ Hw
              eq_refl eq_refl ltac:(simpl; lia))
    as (outcomes & db1 & Hrun & Hlater).
  destruct (Hlater "org_1" form_submitted JNull 2000)
    as (r2 & db2 & created2 & Hrun2 & Hd2 & Hnot & _).
  exists outcomes, db1, r2, db2, created2. split_all; assumption.
Defined.

(** X7, on a store: a subscription registered beside the inactive one is
    attempted by the next dispatch of its event. *)
Lemma createWebhook_then_triggerWebhooks_witness :
  webhook dbIdle !! "wh_new" = None
  /\ case_created ∈ [case_created; case_updated]
  /\ exists created db1 outcomes db2,
       createWebhook "org_1" "https://a.example/hook" [case_created; case_updated]
         "00ff" "wh_new" dbIdle = Ok (created, db1)
       /\ Webhook.isActive created.2 = true
       /\ triggerWebhooks (env := sampleEnv) "org_1" case_created JNull 1000 db1
          = Ok (Some outcomes, db2)
       /\ "wh_new" ∈ (Outcome.webhookId <$> outcomes).
Proof.
  assert (Hnew : webhook dbIdle !! "wh_new" = None) by (vm_compute; reflexivity).
  assert (Hev : case_created ∈ [case_created; case_updated]) by apply list_elem_of_here.
  split; [exact Hnew|]. split; [exact Hev|].
  destruct (createWebhook_then_triggerWebhooks (env := sampleEnv)
              "org_1" "https://a.example/hook" [case_created; case_updated]
              "00ff" "wh_new" case_created JNull 1000 dbIdle Hnew Hev)
    as (created & db1 & outcomes & db2 & Hc & _ & _ & Hact & _ & _ & _ & Hrun & Hin).
  exists created, db1, outcomes, db2. split_all; assumption.
Defined.

(** X9, on a store: after a revocation, the issued credential is still
    stored, with the same hash and scopes. *)
Lemma gateway_preserves_credentials_witness :
  exists db',
    rtc (gatewayStep (env := sampleEnv)) dbIssued db'
    /\ apiKey dbIssued !! "key_1" = Some sampleKeyRow
    /\ exists k',
         apiKey db' !! "key_1" = Some k'
         /\ ApiKey.key k' = ApiKey.key sampleKeyRow
         /\ ApiKey.scopes k' = ["cases.read"; "forms.*"]
         /\ 0 <= ApiKey.usageCount k'.
Proof.
  destruct (revokeApiKey "key_1" "org_1" "user_1" ∅ 700 dbIssued) as [[r d]|e] eqn:E;
    [|vm_compute in E; discriminate].
  assert (Hreach : rtc (gatewayStep (env := sampleEnv)) dbIssued d)
    by (apply rtc_once; eapply step_revokeApiKey; exact E).
  assert (Hk : apiKey dbIssued !! "key_1" = Some sampleKeyRow)
    by (vm_compute; reflexivity).
  destruct (gateway_preserves_credentials (env := sampleEnv) dbIssued d "key_1"
              sampleKeyRow Hreach Hk)
    as (k' & Hk' & _ & _ & Hkey & Hscopes & _ & _ & Hcount & _).
  exists d. split_all; try assumption.
  exists k'. split_all; assumption.
Defined.

Lemma uniqueHashes_emptyDb : uniqueHashes emptyDb.
Proof. intros i j ki kj Hi. cbn [apiKey emptyDb] in Hi. now rewrite lookup_empty in Hi. Qed.

Lemma emptyDb_reaches_dbIssued : rtc (gatewayStep (env := sampleEnv)) emptyDb dbIssued.
Proof.
  apply rtc_once.
  apply (step_createApiKey (env := sampleEnv) "org_1" "ci"
           ["cases.read"; "forms.*"] "user_1" None "c2FtcGxlLWtleQ" "key_1" ∅ 500
           emptyDb sampleIssued dbIssued).
  vm_compute. reflexivity.
Qed.

(** X10, on a store: the store after one issuance has pairwise different
    hashes. *)
Lemma gateway_keeps_hashes_unique_witness :
  uniqueHashes emptyDb
  /\ rtc (gatewayStep (env := sampleEnv)) emptyDb dbIssued
  /\ uniqueHashes dbIssued.
Proof.
  split; [exact uniqueHashes_emptyDb|]. split; [exact emptyDb_reaches_dbIssued|].
  exact (gateway_keeps_hashes_unique (env := sampleEnv) emptyDb dbIssued
           uniqueHashes_emptyDb emptyDb_reaches_dbIssued).
Defined.

(** X11, on a store: the issuance appended to the empty audit log, and
    only issuance or revocation records. *)
Lemma gateway_appends_to_audit_log_witness :
  rtc (gatewayStep (env := sampleEnv)) emptyDb dbIssued
  /\ webhook dbIssued = webhook emptyDb
  /\ exists suffix,
       auditLog dbIssued = (auditLog emptyDb ++ suffix)%list
       /\ Forall (fun l => AuditLog.action l = "api_key.created"
                           \/ AuditLog.action l = "api_key.deleted") suffix.
Proof.
  split; [exact emptyDb_reaches_dbIssued|].
  destruct (gateway_appends_to_audit_log (env := sampleEnv) emptyDb dbIssued
              emptyDb_reaches_dbIssued) as (Hw & _ & Hs).
  split; assumption.
Defined.

(** X13, on a store: the key issued in the empty store is accepted as a
    bearer token, with the whole limit of 1000 remaining. *)
Lemma createApiKey_then_authenticateApiRequest_witness :
  noUsageLogged emptyDb
  /\ 0 < defaultRateLimit (Env := sampleEnv)
  /\ createApiKey (env := sampleEnv) "org_1" "ci" ["cases.read"; "forms.*"]
       "user_1" None "c2FtcGxlLWtleQ" "key_1" ∅ 500 emptyDb = Ok (sampleIssued, dbIssued)
  /\ sampleBearer !! "authorization" = Some ("Bearer " +:+ ApiKey.key sampleIssued.2)
  /\ exists credential hs db2,
       authenticateApiRequest (env := sampleEnv) sampleBearer 900 dbIssued
       = Ok (AuthOk credential "org_1" hs, db2)
       /\ credential.1 = "key_1"
       /\ ApiKey.scopes credential.2 = ["cases.read"; "forms.*"]
       /\ In ("X-RateLimit-Remaining", "1000") hs.
Proof.
  assert (H0 : noUsageLogged emptyDb) by constructor.
  assert (Hpos : 0 < defaultRateLimit (Env := sampleEnv)) by (simpl; lia).
  assert (Hc : createApiKey (env := sampleEnv) "org_1" "ci"
                 ["cases.read"; "forms.*"] "user_1" None "c2FtcGxlLWtleQ" "key_1" ∅ 500
                 emptyDb = Ok (sampleIssued, dbIssued))
    by (vm_compute; reflexivity).
  assert (Hh : sampleBearer !! "authorization"
               = Some ("Bearer " +:+ ApiKey.key sampleIssued.2))
    by (vm_compute; reflexivity).
  split_all; try assumption.
  destruct (createApiKey_then_authenticateApiRequest (env := sampleEnv)
              "org_1" "ci" ["cases.read"; "forms.*"] "user_1" None "c2FtcGxlLWtleQ"
              "key_1" ∅ sampleBearer 500 900 emptyDb dbIssued sampleIssued
              H0 Hpos ltac:(discriminate) Hc Hh)
    as (credential & hs & db2 & Hrun & Hid & _ & Hscopes & Hrem).
  exists credential, hs, db2. split_all; assumption.
Defined.

Lemma uniqueHashes_dbIssued : uniqueHashes dbIssued.
Proof.
  eapply gatewayStep_uniqueHashes; [|exact uniqueHashes_emptyDb].
  apply (step_createApiKey (env := sampleEnv) "org_1" "ci"
           ["cases.read"; "forms.*"] "user_1" None "c2FtcGxlLWtleQ" "key_1" ∅ 500
           emptyDb sampleIssued dbIssued).
  vm_compute. reflexivity.
Qed.

(** X15, on a store: once revoked, the issued key is answered [null]. *)
Lemma revokeApiKey_then_validateApiKey_witness :
  uniqueHashes dbIssued
  /\ credentialOf (env := sampleEnv) "ip_c2FtcGxlLWtleQ" dbIssued
     = Some ("key_1", sampleKeyRow)
  /\ exists r db1,
       revokeApiKey "key_1" "org_1" "user_1" ∅ 700 dbIssued = Ok (r, db1)
       /\ validateApiKey (env := sampleEnv) "ip_c2FtcGxlLWtleQ" 900 db1 = Ok (None, db1).
Proof.
  assert (Hc : credentialOf (env := sampleEnv) "ip_c2FtcGxlLWtleQ" dbIssued
               = Some ("key_1", sampleKeyRow)) by (vm_compute; reflexivity).
  split; [exact uniqueHashes_dbIssued|]. split; [exact Hc|].
  destruct (revokeApiKey_then_validateApiKey (env := sampleEnv) "ip_c2FtcGxlLWtleQ"
              "key_1" "org_1" "user_1" ∅ 700 dbIssued sampleKeyRow
              uniqueHashes_dbIssued Hc eq_refl)
    as (r & db1 & Hrun & Hval).
  exists r, db1. split; [exact Hrun | apply Hval].
Defined.

(** X18, on a store: [org_1], on the STARTER plan (10 GB), stores 3 GB
    and 5 bytes, which count as 4 GB, and is allowed. *)
Lemma checkPlanLimit_storage_threshold_witness :
  organization sampleBillingDb !! "org_1" = Some (sampleOrganization STARTER)
  /\ Organization.plan (sampleOrganization STARTER) <> ENTERPRISE
  /\ storedBytes "org_1" sampleBillingDb = 3 * 1024 * 1024 * 1024 + 5
  /\ PlanLimit.current (checkPlanLimit "org_1" LimitType.storage 0 sampleBillingDb) = 4
  /\ (PlanLimit.allowed (checkPlanLimit "org_1" LimitType.storage 0 sampleBillingDb) = true
      <-> storedBytes "org_1" sampleBillingDb
          <= (PlanLimit.limit (checkPlanLimit "org_1" LimitType.storage 0 sampleBillingDb) - 1)
             * (1024 * 1024 * 1024)).
Proof.
  assert (Ho : organization sampleBillingDb !! "org_1" = Some (sampleOrganization STARTER))
    by (vm_compute; reflexivity).
  assert (Hp : Organization.plan (sampleOrganization STARTER) <> ENTERPRISE)
    by discriminate.
  destruct (checkPlanLimit_storage_threshold "org_1" 0 sampleBillingDb
              (sampleOrganization STARTER) Ho Hp) as (_ & _ & _ & Hiff).
  split; [exact Ho|]. split; [exact Hp|].
  split; [vm_compute; reflexivity|]. split; [vm_compute; reflexivity|].
  exact Hiff.
Defined.

(** X19, on a store: [org_1] has two members; the STARTER plan allows a
    further one, and so does the PROFESSIONAL plan. *)
Lemma checkPlanLimit_upgrade_keeps_allowed_witness :
  planRank STARTER <= planRank PROFESSIONAL
  /\ PlanLimit.allowed (checkPlanLimit "org_1" LimitType.members 0 sampleBillingDb) = true
  /\ PlanLimit.allowed (checkPlanLimit "org_1" LimitType.members 0 sampleBillingDbUpgraded)
     = true.
Proof.
  assert (Hr : planRank STARTER <= planRank PROFESSIONAL) by (simpl; lia).
  assert (Ha : PlanLimit.allowed (checkPlanLimit "org_1" LimitType.members 0 sampleBillingDb)
               = true) by (vm_compute; reflexivity).
  split; [exact Hr|]. split; [exact Ha|].
  apply (checkPlanLimit_upgrade_keeps_allowed "org_1" LimitType.members 0
           sampleBillingDb sampleBillingDbUpgraded
           (sampleOrganization STARTER) (sampleOrganization PROFESSIONAL));
    try reflexivity; try assumption; vm_compute; reflexivity.
Defined.

(** X21, on a store: the cancellation of the subscription of [org_1]
    leaves [org_2], the members, the cases and the recordings as they
    were. *)
Lemma handleSubscriptionEvent_isolation_witness :
  exists db',
    handleSubscriptionEvent (customer_subscription_deleted sampleMetadata) sampleBillingDb
    = Ok db'
    /\ member db' = member sampleBillingDb
    /\ recording db' = recording sampleBillingDb
    /\ organization db' !! "org_2" = Some (sampleOrganization ENTERPRISE).
Proof.
  destruct (handleSubscriptionEvent (customer_subscription_deleted sampleMetadata)
              sampleBillingDb) as [db'|e] eqn:E; [|vm_compute in E; discriminate].
  destruct (handleSubscriptionEvent_touches_only_named_organization _ _ _ E)
    as (Hm & _ & Hr & _ & Hother & _).
  exists db'. split_all; try assumption; try reflexivity.
  rewrite Hother; [vm_compute; reflexivity|].
  vm_compute. discriminate.
Defined.

(** X22, on a store: after the cancellation [org_1] is on the FREE plan
    and its two members meet the limit of 2. *)
Lemma subscription_deleted_falls_back_to_free_witness :
  truthyField sampleMetadata "organizationId" = Some "org_1"
  /\ organization sampleBillingDb !! "org_1" = Some (sampleOrganization STARTER)
  /\ exists db' org',
       handleSubscriptionEvent (customer_subscription_deleted sampleMetadata)
         sampleBillingDb = Ok db'
       /\ organization db' !! "org_1" = Some org'
       /\ Organization.plan org' = FREE
       /\ Organization.stripeSubscriptionId org' = None
       /\ PlanLimit.limit (checkPlanLimit "org_1" LimitType.members 0 db') = 2
       /\ PlanLimit.current (checkPlanLimit "org_1" LimitType.members 0 db') = 2.
Proof.
  assert (Hmd : truthyField sampleMetadata "organizationId" = Some "org_1")
    by (vm_compute; reflexivity).
  assert (Ho : organization sampleBillingDb !! "org_1" = Some (sampleOrganization STARTER))
    by (vm_compute; reflexivity).
  split; [exact Hmd|]. split; [exact Ho|].
  destruct (subscription_deleted_falls_back_to_free sampleMetadata "org_1"
              sampleBillingDb (sampleOrganization STARTER) Hmd Ho)
    as (db' & org' & Hrun & Ho' & Hplan & Hsub & _ & _ & Hlimits).
  destruct (Hlimits LimitType.members 0) as [Hlim Hcur].
  exists db', org'. split_all; [exact Hrun | exact Ho' | exact Hplan | exact Hsub | exact Hlim |].
  rewrite Hcur. vm_compute. reflexivity.
Defined.

(** X23, on a store: a completed checkout for the ENTERPRISE plan lifts
    the member limit of [org_1]. *)
Lemma checkout_completed_applies_plan_witness :
  truthyField sampleMetadata "organizationId" = Some "org_1"
  /\ truthyField sampleMetadata "plan" = Some "ENTERPRISE"
  /\ Plan_ofString "ENTERPRISE" = Some ENTERPRISE
  /\ exists db' org',
       handleSubscriptionEvent
         (checkout_session_completed sampleMetadata (Some "cus_9") (Some "sub_9"))
         sampleBillingDb = Ok db'
       /\ organization db' !! "org_1" = Some org'
       /\ Organization.plan org' = ENTERPRISE
       /\ Organization.stripeCustomerId org' = Some "cus_9"
       /\ PlanLimit.limit (checkPlanLimit "org_1" LimitType.members 0 db') = -1.
Proof.
  assert (Hmd : truthyField sampleMetadata "organizationId" = Some "org_1")
    by (vm_compute; reflexivity).
  assert (Hpl : truthyField sampleMetadata "plan" = Some "ENTERPRISE")
    by (vm_compute; reflexivity).
  assert (Hp : Plan_ofString "ENTERPRISE" = Some ENTERPRISE) by reflexivity.
  assert (Ho : organization sampleBillingDb !! "org_1" = Some (sampleOrganization STARTER))
    by (vm_compute; reflexivity).
  split; [exact Hmd|]. split; [exact Hpl|]. split; [exact Hp|].
  destruct (checkout_completed_applies_plan sampleMetadata (Some "cus_9") (Some "sub_9")
              "org_1" "ENTERPRISE" ENTERPRISE sampleBillingDb
              (sampleOrganization STARTER) Hmd Hpl Hp Ho)
    as (db' & org' & Hrun & Ho' & Hplan & Hcus & _ & _ & Hlimits).
  destruct (Hlimits LimitType.members 0) as [Hlim _].
  exists db', org'. split_all; assumption.
Defined.
